(** * The heart-disease notebook [oel.ipynb] as a shallow embedding

    The notebook is one linear script: load, clean, encode, split, scale,
    train three classifiers, compare them.  The script itself contains no
    function definitions, so each stage below is the sequence of library calls
    the script performs, with the called pandas / scikit-learn / NumPy
    routine modelled by its documented behaviour:

    - a [DataFrame] is a list of column labels and a list of rows, each row
      carrying its index label (pandas keeps the labels through [dropna],
      [concat] and row selection);
    - a cell is a null marker ([NaN]), a number or a string (a column that
      held a ['?'] is read by [read_csv] as strings);
    - a float64 number is the rational [Q] it denotes; where the script
      computes with such numbers (the scaler), the arithmetic, which rounds,
      is a parameter of the model, and a float64 result that may be
      not-a-number is an [option Q];
    - a call that raises in Python returns [Err] here. *)

From Stdlib Require Import String Ascii.
From Stdlib Require Import List Bool Arith ZArith QArith Qround Lia Lqa.
From Stdlib Require Import Permutation Sorted RelationClasses OrdersEx.
From Stdlib Require Import SpecFloat.
Import ListNotations.

Local Open Scope string_scope.
Local Open Scope list_scope.

(** ** Errors *)

Inductive error : Type :=
| KeyError (key : string)
| TypeError
| ValueError
| IndexError.

Inductive result (A : Type) : Type :=
| Ok (a : A)
| Err (e : error).

Arguments Ok {A} a.
Arguments Err {A} e.

Definition bind {A B : Type} (r : result A) (k : A -> result B) : result B :=
  match r with
  | Ok a => k a
  | Err e => Err e
  end.

Notation "x <- r ;; k" := (bind r (fun x => k))
  (at level 61, r at next level, right associativity).

Fixpoint mapM {A B : Type} (f : A -> result B) (l : list A) : result (list B) :=
  match l with
  | [] => Ok []
  | x :: l' => y <- f x ;; ys <- mapM f l' ;; Ok (y :: ys)
  end.

(** ** Cells, labels, frames *)

Inductive cell : Type :=
| NaN
| Num (q : Q)
| Str (s : string).

(** Python's [==] on two cell values: [nan == nan] is false, a number never
    equals a string. *)
Definition cell_eqb (a b : cell) : bool :=
  match a, b with
  | Num p, Num q => Qeq_bool p q
  | Str s, Str t => String.eqb s t
  | _, _ => false
  end.

(** [pd.isna] / [pd.notna]. *)
Definition isna (c : cell) : bool :=
  match c with NaN => true | _ => false end.

Definition notna (c : cell) : bool := negb (isna c).

(** A column label.  [Dummy p v] stands for the string [p ++ "_" ++ str v]
    that [get_dummies] builds from its [prefix] and a category value. *)
Inductive label : Type :=
| Col (name : string)
| Dummy (prefix : string) (level : cell).

Definition label_eqb (a b : label) : bool :=
  match a, b with
  | Col s, Col t => String.eqb s t
  | Dummy p u, Dummy q v => String.eqb p q && cell_eqb u v
  | _, _ => false
  end.

Definition row : Type := (nat * list cell)%type.

Record DataFrame : Type := mkDF {
  columns : list label;
  rows : list row
}.

(** A pandas Series: index labels with one value each. *)
Definition Series : Type := list (nat * cell).

(** Every row has one cell per column (a frame is rectangular). *)
Definition rectangular (df : DataFrame) : Prop :=
  Forall (fun r : row => length (snd r) = length (columns df)) (rows df).

Definition index (df : DataFrame) : list nat := map fst (rows df).

(** ** Loader: the column names given to [read_csv] (line 14) *)

Definition names : list string :=
  ["age"; "sex"; "cp"; "trestbps"; "chol"; "fbs"; "restecg"; "thalach";
   "exang"; "oldpeak"; "slope"; "ca"; "thal"; "num"].

(** ** Cleaner (lines 19-20)

    The sentinel is replaced by the null marker and the rows that hold a
    null are dropped.  (Lines 23-24 then rewrite five numeric columns as
    floats; that step is [Coercer] below.) *)

Definition is_sentinel (to_replace : string) (c : cell) : bool :=
  match c with
  | Str s => String.eqb s to_replace
  | _ => false
  end.

(** [df.replace(to_replace, value)] for a string [to_replace]. *)
Definition replace (to_replace : string) (value : cell) (df : DataFrame)
  : DataFrame :=
  mkDF (columns df)
       (map (fun r : row =>
               (fst r,
                map (fun c => if is_sentinel to_replace c then value else c)
                    (snd r)))
            (rows df)).

(** [df.dropna()]: keep the rows without a null. *)
Definition dropna (df : DataFrame) : DataFrame :=
  mkDF (columns df) (filter (fun r : row => forallb notna (snd r)) (rows df)).

Definition Cleaner (heart_data : DataFrame) : DataFrame :=
  let heart_data := replace "?" NaN heart_data in
  let heart_data := dropna heart_data in
  heart_data.

(** A row of the raw data is complete when no cell is null or ['?']. *)
Definition complete (r : row) : bool :=
  forallb (fun c => notna c && negb (is_sentinel "?" c)) (snd r).

(** ** Encoder (lines 28-37) *)

Fixpoint index_of (l : label) (cols : list label) : option nat :=
  match cols with
  | [] => None
  | c :: cols' =>
      if label_eqb c l then Some O else option_map S (index_of l cols')
  end.

(** [df[key]]: the column labelled [key]; [KeyError] when there is none. *)
Definition getitem (df : DataFrame) (key : string) : result Series :=
  match index_of (Col key) (columns df) with
  | Some p => Ok (map (fun r : row => (fst r, nth p (snd r) NaN)) (rows df))
  | None => Err (KeyError key)
  end.

(** The order pandas sorts category values by: numbers by value, strings
    lexicographically, numbers before strings. Nulls are never categories. *)
Definition cell_compare (a b : cell) : comparison :=
  match a, b with
  | Num p, Num q => (p ?= q)%Q
  | Num _, _ => Lt
  | Str _, Num _ => Gt
  | Str s, Str t => String_as_OT.compare s t
  | Str _, NaN => Lt
  | NaN, NaN => Eq
  | NaN, _ => Gt
  end.

Definition cell_leb (a b : cell) : bool :=
  match cell_compare a b with Gt => false | _ => true end.

(** The distinct non-null values of a column, in order of first appearance
    (what [factorize] collects before sorting). *)
Fixpoint unique (vals : list cell) : list cell :=
  match vals with
  | [] => []
  | c :: vals' =>
      if isna c then unique vals'
      else c :: filter (fun d => negb (cell_eqb d c)) (unique vals')
  end.

Fixpoint insert (x : cell) (l : list cell) : list cell :=
  match l with
  | [] => [x]
  | y :: l' => if cell_leb x y then x :: l else y :: insert x l'
  end.

Fixpoint sort (l : list cell) : list cell :=
  match l with
  | [] => []
  | x :: l' => insert x (sort l')
  end.

(** The categories of a column as [get_dummies] orders them: the distinct
    values, sorted. *)
Definition categories (vals : list cell) : list cell := sort (unique vals).

(** [pd.get_dummies(data, prefix=prefix, drop_first=drop_first)] on a Series:
    one 0/1 column per category, the first category left out under
    [drop_first]; the index is the Series' index. *)
Definition indicators (levels : list cell) (x : cell) : list cell :=
  map (fun l => Num (if cell_eqb x l then 1 else 0)) levels.

Definition get_dummies (data : Series) (prefix : string) (drop_first : bool)
  : DataFrame :=
  let levels := categories (map snd data) in
  let levels := if drop_first then tl levels else levels in
  mkDF (map (Dummy prefix) levels)
       (map (fun iv : nat * cell => (fst iv, indicators levels (snd iv)))
            data).

Fixpoint zip_rows (a b : list row) : list row :=
  match a, b with
  | r :: a', s :: b' => (fst r, snd r ++ snd s) :: zip_rows a' b'
  | _, _ => []
  end.

(** [pd.concat(frames, axis=1)] for frames over one and the same index, which
    is how the script calls it: the columns are laid side by side. *)
Definition concat (frames : list DataFrame) : DataFrame :=
  match frames with
  | [] => mkDF [] []
  | f :: fs =>
      fold_left (fun acc g =>
                   mkDF (columns acc ++ columns g)
                        (zip_rows (rows acc) (rows g)))
                fs f
  end.

Fixpoint select {A : Type} (mask : list bool) (xs : list A) : list A :=
  match mask, xs with
  | b :: mask', x :: xs' =>
      if b then x :: select mask' xs' else select mask' xs'
  | _, _ => []
  end.

Definition has_column (df : DataFrame) (key : string) : bool :=
  existsb (fun c => label_eqb c (Col key)) (columns df).

(** [df.drop(labels, axis=1)]: [KeyError] on the first label that is not a
    column, otherwise every column with one of the labels is removed. *)
Definition drop (labels : list string) (df : DataFrame) : result DataFrame :=
  match find (fun k => negb (has_column df k)) labels with
  | Some k => Err (KeyError k)
  | None =>
      let mask :=
        map (fun c => negb (existsb (fun k => label_eqb c (Col k)) labels))
            (columns df) in
      Ok (mkDF (select mask (columns df))
               (map (fun r : row => (fst r, select mask (snd r))) (rows df)))
  end.

Fixpoint set_nth (p : nat) (v : cell) (l : list cell) : list cell :=
  match p, l with
  | _, [] => []
  | O, _ :: l' => v :: l'
  | S p', x :: l' => x :: set_nth p' v l'
  end.

(** [df[key] = value]: an existing column is overwritten in place, a new one
    goes last. *)
Definition setitem (df : DataFrame) (key : string) (value : Series)
  : DataFrame :=
  match index_of (Col key) (columns df) with
  | Some p =>
      mkDF (columns df)
           (map (fun rv : row * (nat * cell) =>
                   (fst (fst rv), set_nth p (snd (snd rv)) (snd (fst rv))))
                (combine (rows df) value))
  | None =>
      mkDF (columns df ++ [Col key])
           (map (fun rv : row * (nat * cell) =>
                   (fst (fst rv), snd (fst rv) ++ [snd (snd rv)]))
                (combine (rows df) value))
  end.

(** [x > 0] in Python: a comparison with [nan] is false, a string against an
    integer raises [TypeError]. *)
Definition gt0 (x : cell) : result bool :=
  match x with
  | Num q => Ok (negb (Qle_bool q 0))
  | NaN => Ok false
  | Str _ => Err TypeError
  end.

(** [lambda x: 1 if x > 0 else 0] (line 36). *)
Definition target_of (x : cell) : result cell :=
  b <- gt0 x ;; Ok (Num (if b then 1 else 0)).

(** [series.apply(f)]. *)
Definition apply (f : cell -> result cell) (s : Series) : result Series :=
  mapM (fun iv : nat * cell => v <- f (snd iv) ;; Ok (fst iv, v)) s.

Definition Encoder (heart_data : DataFrame) : result DataFrame :=
  cp_col <- getitem heart_data "cp" ;;
  let cp := get_dummies cp_col "cp" true in
  restecg_col <- getitem heart_data "restecg" ;;
  let restecg := get_dummies restecg_col "restecg" true in
  slope_col <- getitem heart_data "slope" ;;
  let slope := get_dummies slope_col "slope" true in
  thal_col <- getitem heart_data "thal" ;;
  let thal := get_dummies thal_col "thal" true in
  let heart_data := concat [heart_data; cp; restecg; slope; thal] in
  heart_data <- drop ["cp"; "restecg"; "slope"; "thal"] heart_data ;;
  num <- getitem heart_data "num" ;;
  target <- apply target_of num ;;
  let heart_data := setitem heart_data "target" target in
  drop ["num"] heart_data.

(** Lines 40-41: [X = heart_data.drop('target', axis=1)],
    [y = heart_data['target']]. *)
Definition features_target (heart_data : DataFrame)
  : result (DataFrame * Series) :=
  X <- drop ["target"] heart_data ;;
  y <- getitem heart_data "target" ;;
  Ok (X, y).

(** ** Splitter (line 44) *)

(** NumPy's [RandomState] as far as [train_test_split] uses it: seeding a
    fresh generator, and drawing a permutation of [range(n)], which advances
    the generator. *)
Class RandomState : Type := {
  rng : Type;
  seed : Z -> rng;
  permutation : rng -> nat -> list nat * rng
}.

(** What NumPy promises of [permutation]. *)
Definition lawful (R : RandomState) : Prop :=
  forall (s : rng) (n : nat), Permutation (fst (permutation s n)) (seq 0 n).

(** [x.iloc[idx]] on a list of rows or values: selection by position. *)
Definition iloc {A : Type} (l : list A) (idx : list nat) : result (list A) :=
  mapM (fun i => match nth_error l i with
                 | Some a => Ok a
                 | None => Err IndexError
                 end) idx.

Definition Split : Type := (DataFrame * DataFrame * Series * Series)%type.

Section Splitter.

Context {R : RandomState}.

(** [check_random_state]: [None] is NumPy's global generator, an integer
    seeds a fresh one. *)
Definition check_random_state (random_state : option Z) (global : rng) : rng :=
  match random_state with
  | None => global
  | Some s => seed s
  end.

(** [train_test_split(X, y, test_size=test_size, random_state=random_state)]
    with a fractional [test_size].  The second component is NumPy's global
    generator after the call.  [n_test = ceil(test_size * n_samples)],
    [n_train = n_samples - n_test]; an empty train set is a [ValueError].
    (For [test_size = 0.2] the float64 product [0.2 * n] rounds to [n / 5]
    whenever that is an integer, so the ceiling taken on floats is the
    ceiling taken here on rationals.) *)
Definition train_test_split (X : DataFrame) (y : Series) (test_size : Q)
    (random_state : option Z) (global : rng) : result Split * rng :=
  let n_samples := length (rows X) in
  if negb (length y =? n_samples)%nat then (Err ValueError, global)
  else if Qle_bool test_size 0 || Qle_bool 1 test_size
  then (Err ValueError, global)
  else
    let n_test :=
      Z.to_nat (Qceiling (test_size * inject_Z (Z.of_nat n_samples))) in
    let n_train := (n_samples - n_test)%nat in
    if (n_train =? 0)%nat then (Err ValueError, global)
    else
      let (perm, s') :=
        permutation (check_random_state random_state global) n_samples in
      let global' :=
        match random_state with None => s' | Some _ => global end in
      let test := firstn n_test perm in
      let train := firstn n_train (skipn n_test perm) in
      (X_train <- iloc (rows X) train ;;
       X_test <- iloc (rows X) test ;;
       y_train <- iloc y train ;;
       y_test <- iloc y test ;;
       Ok (mkDF (columns X) X_train, mkDF (columns X) X_test, y_train, y_test),
       global').

Definition Splitter (heart_data : DataFrame) (global : rng)
  : result Split * rng :=
  match features_target heart_data with
  | Err e => (Err e, global)
  | Ok (X, y) => train_test_split X y (2 # 10) (Some 42%Z) global
  end.

(** Encoder then Splitter, as the script chains them (lines 28-44). *)
Definition encode_and_split (heart_data : DataFrame) (global : rng)
  : result Split * rng :=
  match Encoder heart_data with
  | Err e => (Err e, global)
  | Ok heart_data => Splitter heart_data global
  end.

End Splitter.

(** ** Scaler (lines 47-49)

    The frames enter as the numeric arrays scikit-learn reads from them:
    one list of numbers per row.

    The scaler computes in float64.  A float64 result is the exact result
    rounded, and the order in which NumPy accumulates a column is the
    library's; the script fixes neither.  The arithmetic is therefore a
    parameter of the scaler, [Float64], and what is proved of the Scaler is
    proved for every arithmetic, rounding or exact.  (An overflow to an
    infinity has no counterpart in [Q].) *)

Definition matrix : Type := list (list Q).

Definition column_of (X : matrix) (j : nat) : list Q :=
  map (fun r => nth j r 0) X.

(** The exact mean. *)
Definition mean (xs : list Q) : Q :=
  fold_right Qplus 0 xs / inject_Z (Z.of_nat (length xs)).

(** The exact population variance ([ddof = 0]). *)
Definition var (xs : list Q) : Q :=
  let m := mean xs in mean (map (fun x => (x - m) * (x - m)) xs).

(** The float64 operations the scaler uses: the four operations and
    [np.sqrt] on numbers, and the mean and the variance of one feature as
    [_incremental_mean_and_var] accumulates them. *)
Class Float64 : Type := {
  fadd : Q -> Q -> Q;
  fsub : Q -> Q -> Q;
  fmul : Q -> Q -> Q;
  fdiv : Q -> Q -> Q;
  fsqrt : Q -> Q;
  fmean : list Q -> Q;
  fvar : list Q -> Q
}.

(** What the handling of a zero variance needs of the arithmetic, and what
    rounding to the nearest float64 keeps: a product with 0 is 0, a square
    is not negative, and 0 added to a number that is not negative gives a
    number that is not negative. *)
Definition sign_sound (F : Float64) : Prop :=
  (forall x y, y == 0 -> fmul x y == 0) /\
  (forall t, 0 <= fmul t t) /\
  (forall x y, x == 0 -> 0 <= y -> 0 <= fadd x y).

Record StandardScaler : Type := mkScaler {
  mean_ : list Q;
  var_ : list Q;
  scale_ : list Q
}.

(** [np.finfo(np.float64).eps]. *)
Definition eps : Q := 1 # (2 ^ 52).

Section Scaler.

Context {F : Float64}.

(** [_is_constant_feature(var, mean, n_samples)]: the variance is within
    the rounding error of the accumulation,
    [var <= n_samples * eps * var + (n_samples * mean * eps) ** 2]. *)
Definition is_constant_feature (var mean : Q) (n_samples : nat) : bool :=
  let n := inject_Z (Z.of_nat n_samples) in
  let t := fmul (fmul n mean) eps in
  let upper_bound := fadd (fmul (fmul n eps) var) (fmul t t) in
  Qle_bool var upper_bound.

(** [_handle_zeros_in_scale(scale, constant_mask)]: the scale of a constant
    feature is set to 1. *)
Definition handle_zeros_in_scale (scale : Q) (constant : bool) : Q :=
  if constant then 1 else scale.

(** [StandardScaler().fit(X)]: [ValueError] without a sample or without a
    feature; per column the mean, the variance, and the scale
    [sqrt(var)], with 1 in place of the scale of a constant feature. *)
Definition fit (X : matrix) : result StandardScaler :=
  match X with
  | [] => Err ValueError
  | r :: _ =>
      let n_features := length r in
      if (n_features =? 0)%nat then Err ValueError
      else
        let n_samples := length X in
        let cols := map (column_of X) (seq 0 n_features) in
        Ok (mkScaler
              (map fmean cols)
              (map fvar cols)
              (map (fun c =>
                      handle_zeros_in_scale
                        (fsqrt (fvar c))
                        (is_constant_feature (fvar c) (fmean c) n_samples))
                   cols))
  end.

(** [scaler.transform(X)]: [(x - mean) / scale] per column. *)
Definition transform (scaler : StandardScaler) (X : matrix) : result matrix :=
  match X with
  | [] => Err ValueError
  | _ =>
      if forallb (fun r => (length r =? length (mean_ scaler))%nat) X
      then Ok (map (fun r =>
                      map (fun xms : Q * (Q * Q) =>
                             fdiv (fsub (fst xms) (fst (snd xms)))
                                  (snd (snd xms)))
                          (combine r (combine (mean_ scaler) (scale_ scaler))))
                   X)
      else Err ValueError
  end.

Definition fit_transform (X : matrix) : result (StandardScaler * matrix) :=
  scaler <- fit X ;;
  X_scaled <- transform scaler X ;;
  Ok (scaler, X_scaled).

Definition Scaler (X_train X_test : matrix) : result (matrix * matrix) :=
  fitted <- fit_transform X_train ;;
  let scaler := fst fitted in
  let X_train_scaled := snd fitted in
  X_test_scaled <- transform scaler X_test ;;
  Ok (X_train_scaled, X_test_scaled).

End Scaler.

(** Exact arithmetic, with a given square root. *)
Definition exact_arith (sqrt : Q -> Q) : Float64 :=
  {| fadd := Qplus;
     fsub := Qminus;
     fmul := Qmult;
     fdiv := Qdiv;
     fsqrt := sqrt;
     fmean := mean;
     fvar := var |}.

(** A square root on [Q] to run the scaler with: the integer square root
    of the value scaled by [4^53], scaled back. *)
Definition sqrt_fixed (q : Q) : Q :=
  Z.sqrt (Qfloor (q * inject_Z (2 ^ 106))) # (2 ^ 53).

(** Float64 arithmetic itself, to run the scaler with: the standard
    library's IEEE 754 binary64 ([SpecFloat], 53 bits of precision,
    rounding to nearest even).  A rational whose numerator and denominator
    are float64 numbers enters as the nearest float64; an infinity or a
    not-a-number leaves as 0.  The mean and the variance are accumulated
    from the first row to the last, the variance by the corrected two-pass
    formula of [_incremental_mean_and_var]; on a long column NumPy may add
    in another order. *)
Module Binary64.

Definition prec : Z := 53.
Definition emax : Z := 1024.

Definition of_Z (z : Z) : spec_float := binary_normalize prec emax z 0 false.

Definition of_Q (q : Q) : spec_float :=
  SFdiv prec emax (of_Z (Qnum q)) (of_Z (Z.pos (Qden q))).

Definition to_Q (f : spec_float) : Q :=
  match f with
  | S754_finite s m e =>
      let z := if s then Z.neg m else Z.pos m in
      if (0 <=? e)%Z then inject_Z (z * 2 ^ e)
      else z # Z.to_pos (2 ^ (- e))
  | _ => 0
  end.

Definition lift2 (op : spec_float -> spec_float -> spec_float) (x y : Q) : Q :=
  to_Q (op (of_Q x) (of_Q y)).

Definition add : Q -> Q -> Q := lift2 (SFadd prec emax).
Definition sub : Q -> Q -> Q := lift2 (SFsub prec emax).
Definition mul : Q -> Q -> Q := lift2 (SFmul prec emax).
Definition div : Q -> Q -> Q := lift2 (SFdiv prec emax).
Definition sqrt (x : Q) : Q := to_Q (SFsqrt prec emax (of_Q x)).

Definition sum (xs : list Q) : Q := fold_left add xs 0.

Definition count (xs : list Q) : Q := inject_Z (Z.of_nat (length xs)).

Definition mean (xs : list Q) : Q := div (sum xs) (count xs).

Definition var (xs : list Q) : Q :=
  let T := div (sum xs) (count xs) in
  let temp := map (fun x => sub x T) xs in
  let correction := sum temp in
  let unnormalized := sum (map (fun t => mul t t) temp) in
  let unnormalized :=
    sub unnormalized (div (mul correction correction) (count xs)) in
  div unnormalized (count xs).

End Binary64.

Definition binary64 : Float64 :=
  {| fadd := Binary64.add;
     fsub := Binary64.sub;
     fmul := Binary64.mul;
     fdiv := Binary64.div;
     fsqrt := Binary64.sqrt;
     fmean := Binary64.mean;
     fvar := Binary64.var |}.

(** Rounding keeps the sign: a rounded mantissa comes out as a float of the
    given sign, a zero, an infinity or a not-a-number. *)
Definition signed (s : bool) (f : spec_float) : Prop :=
  match f with
  | S754_finite s' _ _ => s' = s
  | _ => True
  end.

(** A rational equal to 0 enters as a zero (or, past the range, as a
    not-a-number). *)
Definition zero_or_nan (f : spec_float) : Prop :=
  match f with
  | S754_zero _ | S754_nan => True
  | _ => False
  end.

(** ** Evaluator (lines 238-254, 291-307) *)

(** [accuracy_score(y_true, y_pred)]: [ValueError] when the two differ in
    length; otherwise the share of positions that agree, which for no
    position at all is not-a-number ([None]).  The share is kept exact;
    float64 holds it rounded to the nearest, which keeps the order and the
    equality of two shares of the same number of rows. *)
Definition accuracy_score (y_true y_pred : list Z) : result (option Q) :=
  if negb (length y_true =? length y_pred)%nat then Err ValueError
  else
    match y_true with
    | [] => Ok None
    | _ =>
        Ok (Some
              (inject_Z (Z.of_nat
                           (length (filter (fun p : Z * Z =>
                                              Z.eqb (fst p) (snd p))
                                           (combine y_true y_pred))))
               / inject_Z (Z.of_nat (length y_true))))
    end.

(** [x <= y] on float64: false as soon as one of the two is
    not-a-number. *)
Definition float_le (x y : option Q) : bool :=
  match x, y with
  | Some p, Some q => Qle_bool p q
  | _, _ => false
  end.

Fixpoint argmax_from (best : nat) (best_v : option Q) (i : nat)
    (l : list (option Q)) : nat :=
  match l with
  | [] => best
  | x :: l' =>
      if float_le x best_v then argmax_from best best_v (S i) l'
      else
        match x with
        | None => i
        | Some _ => argmax_from i x (S i) l'
        end
  end.

(** [np.argmax]: the first position of the maximum, a not-a-number counting
    as the maximum; [ValueError] on an empty sequence. *)
Definition argmax (a : list (option Q)) : result nat :=
  match a with
  | [] => Err ValueError
  | None :: _ => Ok 0%nat
  | x :: l => Ok (argmax_from 0 x 1 l)
  end.

Definition models : list string :=
  ["Logistic Regression"; "Random Forest"; "Support Vector Classifier"].

(** Lines 292, 306-307. *)
Definition best_model (lr_acc rf_acc svc_acc : option Q) : result string :=
  let accuracies := [lr_acc; rf_acc; svc_acc] in
  best_model_idx <- argmax accuracies ;;
  match nth_error models best_model_idx with
  | Some m => Ok m
  | None => Err IndexError
  end.

Definition Evaluator (y_test lr_pred rf_pred svc_pred : list Z)
  : result string :=
  lr_acc <- accuracy_score y_test lr_pred ;;
  rf_acc <- accuracy_score y_test rf_pred ;;
  svc_acc <- accuracy_score y_test svc_pred ;;
  best_model lr_acc rf_acc svc_acc.

(** ** Closed forms used to state the properties *)

(** The values of the column at position [p], top to bottom. *)
Definition values_at (df : DataFrame) (p : nat) : list cell :=
  map (fun r : row => nth p (snd r) NaN) (rows df).

(** The categories of the column at position [p] that keep an indicator
    column under [drop_first=True]. *)
Definition kept_levels (df : DataFrame) (p : nat) : list cell :=
  tl (categories (values_at df p)).

Definition feature_names : list string :=
  ["age"; "sex"; "trestbps"; "chol"; "fbs"; "thalach"; "exang"; "oldpeak";
   "ca"].

Definition target_cell (num : cell) : cell :=
  match num with
  | Num q => Num (if Qle_bool q 0 then 0 else 1)
  | _ => Num 0
  end.

Definition encoded_columns (df : DataFrame) : list label :=
  map Col feature_names
  ++ map (Dummy "cp") (kept_levels df 2)
  ++ map (Dummy "restecg") (kept_levels df 6)
  ++ map (Dummy "slope") (kept_levels df 10)
  ++ map (Dummy "thal") (kept_levels df 12)
  ++ [Col "target"].

Definition encoded_row (df : DataFrame) (r : row) : row :=
  let c := fun p => nth p (snd r) NaN in
  (fst r,
   map c [0; 1; 3; 4; 5; 7; 8; 9; 11]%nat
   ++ indicators (kept_levels df 2) (c 2%nat)
   ++ indicators (kept_levels df 6) (c 6%nat)
   ++ indicators (kept_levels df 10) (c 10%nat)
   ++ indicators (kept_levels df 12) (c 12%nat)
   ++ [target_cell (c 13%nat)]).

(** The encoded frame without its last column, [target]. *)
Definition front_columns (df : DataFrame) : list label :=
  map Col feature_names
  ++ map (Dummy "cp") (kept_levels df 2)
  ++ map (Dummy "restecg") (kept_levels df 6)
  ++ map (Dummy "slope") (kept_levels df 10)
  ++ map (Dummy "thal") (kept_levels df 12).

Definition front_cells (df : DataFrame) (r : row) : list cell :=
  let c := fun p => nth p (snd r) NaN in
  map c [0; 1; 3; 4; 5; 7; 8; 9; 11]%nat
  ++ indicators (kept_levels df 2) (c 2%nat)
  ++ indicators (kept_levels df 6) (c 6%nat)
  ++ indicators (kept_levels df 10) (c 10%nat)
  ++ indicators (kept_levels df 12) (c 12%nat).

(** The category values behind the indicator columns of one source column,
    read off a frame's labels from left to right. *)
Definition group_levels (prefix : string) (cols : list label) : list cell :=
  flat_map (fun c => match c with
                     | Dummy p v => if String.eqb p prefix then [v] else []
                     | Col _ => []
                     end) cols.

(** Strictly ascending in the order of [cell_compare]. *)
Definition cell_lt (a b : cell) : Prop := cell_compare a b = Lt.

(** The claim of first-appearance order, in the spec's words: the indicator
    columns of a source column list its distinct values in the order in
    which they first appear, one reference value left out. *)
Definition first_appearance_order (vals group : list cell) : Prop :=
  exists ref,
    In ref (unique vals) /\
    group = filter (fun d => negb (cell_eqb d ref)) (unique vals).

(** ** Sample data: the first five records of the Cleveland file *)

Definition record (i : nat) (age sex cp trestbps chol fbs restecg thalach
                             exang oldpeak slope : Q)
           (ca thal : string) (num : Q) : row :=
  (i, [Num age; Num sex; Num cp; Num trestbps; Num chol; Num fbs; Num restecg;
       Num thalach; Num exang; Num oldpeak; Num slope; Str ca; Str thal;
       Num num]).

Definition cleveland5 : DataFrame :=
  mkDF (map Col names)
       [record 0 63 1 1 145 233 1 2 150 0 2.3 3 "0.0" "6.0" 0;
        record 1 67 1 4 160 286 0 2 108 1 1.5 2 "3.0" "3.0" 2;
        record 2 67 1 4 120 229 0 2 129 1 2.6 2 "2.0" "7.0" 1;
        record 3 37 1 3 130 250 0 0 187 0 3.5 3 "0.0" "3.0" 0;
        record 4 41 0 2 130 204 0 2 172 0 1.4 1 "0.0" "3.0" 0].

Definition encoded5 : DataFrame :=
  Eval vm_compute in
    match Encoder cleveland5 with
    | Ok heart_data => heart_data
    | Err _ => mkDF [] []
    end.

(** A small generator to run the Splitter with: the state is a number, a
    permutation of [range(n)] is the range rotated by the state, and each
    draw steps the state linearly. *)
Definition rotating : RandomState :=
  {| rng := Z;
     seed := fun s => s;
     permutation := fun s n =>
       let k := Z.to_nat (s mod Z.of_nat (S n)) in
       (skipn k (seq 0 n) ++ firstn k (seq 0 n),
        ((1103515245 * s + 12345) mod 2 ^ 31)%Z) |}.

(** Three hundred encoded rows: a feature [age] and the [target]. *)
Definition encoded300 : DataFrame :=
  mkDF [Col "age"; Col "target"]
       (map (fun i : nat =>
               (i, [Num (inject_Z (Z.of_nat (29 + i mod 49)));
                    Num (inject_Z (Z.of_nat (i mod 2)))]))
            (seq 0 300)).

(** ** Type coercion (lines 23-24) *)

Definition to_convert : list string :=
  ["age"; "trestbps"; "chol"; "thalach"; "oldpeak"].

(** [df[keys]] for a list of keys: the frame of those columns, in the order
    of the keys; [KeyError] on the first key that is not a column. *)
Definition getitems (df : DataFrame) (keys : list string) : result DataFrame :=
  ps <- mapM (fun k => match index_of (Col k) (columns df) with
                       | Some p => Ok p
                       | None => Err (KeyError k)
                       end) keys ;;
  Ok (mkDF (map Col keys)
           (map (fun r : row => (fst r, map (fun p => nth p (snd r) NaN) ps))
                (rows df))).

(** [df.astype(dtype)], the conversion of one cell given by [convert]. *)
Definition astype (convert : cell -> result cell) (df : DataFrame)
  : result DataFrame :=
  converted <- mapM (fun r : row =>
                       cells <- mapM convert (snd r) ;; Ok (fst r, cells))
                    (rows df) ;;
  Ok (mkDF (columns df) converted).

(** [df.loc[:, keys] = value] for a frame [value] over the same index whose
    columns are the keys: each of the columns is overwritten in place. *)
Definition loc_setitem (df : DataFrame) (keys : list string)
    (value : DataFrame) : DataFrame :=
  mkDF (columns df)
       (map (fun rv : row * row =>
               (fst (fst rv),
                fold_left
                  (fun cells (kv : string * cell) =>
                     match index_of (Col (fst kv)) (columns df) with
                     | Some p => set_nth p (snd kv) cells
                     | None => cells
                     end)
                  (combine keys (snd (snd rv)))
                  (snd (fst rv))))
            (combine (rows df) (rows value))).

Section Coercion.

(** Python's [float(s)] on a string: [None] when it raises [ValueError],
    [Some None] for a not-a-number literal, [Some (Some q)] for the number
    read. *)
Variable float_of_string : string -> option (option Q).

(** The conversion of one cell to float: numbers and nulls stay, a string is
    parsed. *)
Definition to_float (c : cell) : result cell :=
  match c with
  | Str s =>
      match float_of_string s with
      | Some (Some q) => Ok (Num q)
      | Some None => Ok NaN
      | None => Err ValueError
      end
  | _ => Ok c
  end.

Definition Coercer (heart_data : DataFrame) : result DataFrame :=
  selected <- getitems heart_data to_convert ;;
  converted <- astype to_float selected ;;
  Ok (loc_setitem heart_data to_convert converted).

(** Closed form of the coercion of one row under the loader's columns. *)
Definition coerce_row (r : row) : result row :=
  let c := fun p => nth p (snd r) NaN in
  age <- to_float (c 0%nat) ;;
  trestbps <- to_float (c 3%nat) ;;
  chol <- to_float (c 4%nat) ;;
  thalach <- to_float (c 7%nat) ;;
  oldpeak <- to_float (c 9%nat) ;;
  Ok (fst r,
      [age; c 1%nat; c 2%nat; trestbps; chol; c 5%nat; c 6%nat; thalach;
       c 8%nat; oldpeak; c 10%nat; c 11%nat; c 12%nat; c 13%nat]).

End Coercion.

(** ** Confusion matrix (lines 239, 247, 255) *)

Fixpoint insertZ (x : Z) (l : list Z) : list Z :=
  match l with
  | [] => [x]
  | y :: l' =>
      if (x <? y)%Z then x :: l
      else if (x =? y)%Z then l
      else y :: insertZ x l'
  end.

(** [unique_labels(y_true, y_pred)]: the labels that occur, ascending, each
    once. *)
Definition unique_labels (y_true y_pred : list Z) : list Z :=
  fold_right insertZ [] (y_true ++ y_pred).

(** [confusion_matrix(y_true, y_pred)]: [ValueError] when the two differ in
    length; otherwise the square table over the labels that occur, whose
    entry in row [a], column [b] counts the samples of true label [a]
    predicted as [b]. *)
Definition confusion_matrix (y_true y_pred : list Z)
  : result (list (list nat)) :=
  if negb (length y_true =? length y_pred)%nat then Err ValueError
  else
    let labels := unique_labels y_true y_pred in
    Ok (map (fun a =>
               map (fun b =>
                      length (filter (fun p : Z * Z =>
                                        Z.eqb (fst p) a && Z.eqb (snd p) b)
                                     (combine y_true y_pred)))
                   labels)
            labels).

Definition total (cm : list (list nat)) : nat :=
  fold_right Nat.add 0%nat (map (fold_right Nat.add 0%nat) cm).

(** The sum of the diagonal. *)
Definition trace (cm : list (list nat)) : nat :=
  fold_right Nat.add 0%nat
             (map (fun i => nth i (nth i cm []) 0%nat) (seq 0 (length cm))).

(** The number of cells equal to 1 in a row of indicators. *)
Definition ones (cells : list cell) : nat :=
  length (filter (fun c => cell_eqb c (Num 1)) cells).

(** A decimal reader to run the coercion with: digits, optionally a point
    and more digits; anything else is refused. *)
Fixpoint digits (s : string) (acc : Z) : option Z :=
  match s with
  | EmptyString => Some acc
  | String c s' =>
      let n := Z.of_nat (nat_of_ascii c) in
      if ((48 <=? n) && (n <=? 57))%Z
      then digits s' (10 * acc + (n - 48))%Z
      else None
  end.

Fixpoint split_point (s : string) : string * option string :=
  match s with
  | EmptyString => (EmptyString, None)
  | String c s' =>
      if Ascii.eqb c "."%char then (EmptyString, Some s')
      else let (a, b) := split_point s' in (String c a, b)
  end.

Definition decimal (s : string) : option (option Q) :=
  match split_point s with
  | (EmptyString, _) => None
  | (whole, None) =>
      option_map (fun n => Some (inject_Z n)) (digits whole 0)
  | (whole, Some frac) =>
      match digits whole 0, digits frac 0 with
      | Some n, Some m =>
          Some (Some (inject_Z n
                      + inject_Z m / inject_Z (10 ^ Z.of_nat (String.length frac))))
      | _, _ => None
      end
  end.

(** Two records as [read_csv] returns them when the numeric columns were
    read as text, and the same records after the coercion. *)
Definition text2 : DataFrame :=
  mkDF (map Col names)
       [(0%nat, [Str "63.0"; Num 1; Num 1; Str "145.0"; Str "233.0"; Num 1;
                 Num 2; Str "150.0"; Num 0; Str "2.3"; Num 3; Str "0.0";
                 Str "6.0"; Num 0]);
        (1%nat, [Str "67.0"; Num 1; Num 4; Str "160.0"; Str "286.0"; Num 0;
                 Num 2; Str "108.0"; Num 1; Str "1.5"; Num 2; Str "3.0";
                 Str "3.0"; Num 2])].

Definition numeric2 : DataFrame :=
  Eval vm_compute in
    match Coercer decimal text2 with
    | Ok heart_data => heart_data
    | Err _ => mkDF [] []
    end.

(** Three raw records of a file with the sentinel in [num]: [read_csv]
    reads the whole column as text. *)
Definition text_num3 : DataFrame :=
  mkDF (map Col names)
       [(0%nat, [Num 63; Num 1; Num 1; Num 145; Num 233; Num 1; Num 2;
                 Num 150; Num 0; Num 2.3; Num 3; Str "0.0"; Str "6.0";
                 Str "0"]);
        (1%nat, [Num 67; Num 1; Num 4; Num 160; Num 286; Num 0; Num 2;
                 Num 108; Num 1; Num 1.5; Num 2; Str "3.0"; Str "3.0";
                 Str "2"]);
        (2%nat, [Num 53; Num 0; Num 3; Num 128; Num 216; Num 0; Num 2;
                 Num 115; Num 0; Num 0; Num 1; Str "0.0"; Str "3.0";
                 Str "?"])].

(** Six raw records, the last with the sentinel in [ca]. *)
Definition raw6 : DataFrame :=
  mkDF (map Col names)
       (rows cleveland5
        ++ [record 5 53 0 3 128 216 0 2 115 0 0 1 "?" "3.0" 0]).

Section Preprocess.

Context {R : RandomState}.
Variable float_of_string : string -> option (option Q).

(** Lines 19-44 in one piece: clean, coerce, encode, split. *)
Definition preprocess (raw : DataFrame) (global : rng) : result Split * rng :=
  let heart_data := Cleaner raw in
  match Coercer float_of_string heart_data with
  | Err e => (Err e, global)
  | Ok heart_data => encode_and_split heart_data global
  end.

End Preprocess.
(** * Properties *)

(** ** Cleaner *)

Lemma replace_keeps_complete (cells : list cell) :
  forallb (fun c => notna c && negb (is_sentinel "?" c)) cells = true ->
  map (fun c => if is_sentinel "?" c then NaN else c) cells = cells.
Proof.
  induction cells as [|c cells IH]; simpl; intro H; [reflexivity|].
  apply andb_prop in H. destruct H as [Hc Hcs].
  apply andb_prop in Hc. destruct Hc as [_ Hs].
  apply negb_true_iff in Hs. rewrite Hs, (IH Hcs). reflexivity.
Qed.

Lemma notna_after_replace (cells : list cell) :
  forallb notna (map (fun c => if is_sentinel "?" c then NaN else c) cells)
  = forallb (fun c => notna c && negb (is_sentinel "?" c)) cells.
Proof.
  induction cells as [|c cells IH]; simpl; [reflexivity|].
  rewrite IH. destruct c as [|q|s]; simpl; try reflexivity.
  destruct (String.eqb s "?"); reflexivity.
Qed.

Lemma Cleaner_rows (df : DataFrame) :
  rows (Cleaner df) = filter complete (rows df).
Proof.
  unfold Cleaner, dropna, replace, complete. simpl.
  induction (rows df) as [|r l IH]; simpl; [reflexivity|].
  rewrite notna_after_replace, IH.
  destruct (forallb _ (snd r)) eqn:E; [|reflexivity].
  rewrite (replace_keeps_complete _ E). destruct r; reflexivity.
Qed.

(** C4 (Cleaner): the Cleaner keeps the columns, keeps exactly the rows of
    the raw Dataset that hold neither a null nor the ['?'] sentinel, each
    unchanged and in the original order, and so no cell of its output is a
    null or the sentinel. *)
Theorem Cleaner_no_null_no_sentinel (df : DataFrame) :
  columns (Cleaner df) = columns df /\
  rows (Cleaner df) = filter complete (rows df) /\
  (forall r, In r (rows (Cleaner df)) <->
             In r (rows df) /\
             forall c, In c (snd r) -> c <> NaN /\ c <> Str "?").
Proof.
  split; [reflexivity|]. split; [apply Cleaner_rows|].
  intro r. rewrite Cleaner_rows, filter_In. unfold complete.
  rewrite forallb_forall.
  split; intros [Hin H]; (split; [exact Hin|]); intros c Hc.
  - specialize (H c Hc). apply andb_prop in H. destruct H as [Hn Hs].
    split; intro E; subst c; discriminate.
  - destruct (H c Hc) as [Hn Hs].
    destruct c as [|q|s]; simpl; try reflexivity; [congruence|].
    destruct (String.eqb_spec s "?"); [subst; congruence|reflexivity].
Qed.

(** ** Frames: general facts *)

Lemma mapM_map {A B : Type} (f : A -> result B) (g : A -> B) (l : list A) :
  (forall x, In x l -> f x = Ok (g x)) -> mapM f l = Ok (map g l).
Proof.
  induction l as [|x l IH]; intro H; simpl; [reflexivity|].
  rewrite (H x (or_introl eq_refl)), IH; [reflexivity|].
  intros y Hy. apply H. right. exact Hy.
Qed.

Lemma zip_rows_map {A : Type} (f g : A -> row) (l : list A) :
  zip_rows (map f l) (map g l)
  = map (fun x => (fst (f x), snd (f x) ++ snd (g x))) l.
Proof.
  induction l as [|x l IH]; simpl; [reflexivity|]. rewrite IH. reflexivity.
Qed.

Lemma combine_map_map {A B C : Type} (f : A -> B) (g : A -> C) (l : list A) :
  combine (map f l) (map g l) = map (fun x => (f x, g x)) l.
Proof.
  induction l as [|x l IH]; simpl; [reflexivity|]. rewrite IH. reflexivity.
Qed.

Lemma select_app {A : Type} (m1 m2 : list bool) (x1 x2 : list A) :
  length m1 = length x1 ->
  select (m1 ++ m2) (x1 ++ x2) = select m1 x1 ++ select m2 x2.
Proof.
  revert x1. induction m1 as [|b m1 IH]; intros [|x x1] H;
    simpl in H; try discriminate; simpl.
  - reflexivity.
  - injection H as H. rewrite (IH _ H). destruct b; reflexivity.
Qed.

Lemma select_all {A B : Type} (f : B -> bool) (L : list B) (xs : list A) :
  Forall (fun c => f c = true) L -> length xs = length L ->
  select (map f L) xs = xs.
Proof.
  intro HF. revert xs. induction HF as [|c L Hc HF IH]; intros [|x xs] H;
    simpl in H; try discriminate; simpl; [reflexivity|].
  rewrite Hc, IH; [reflexivity|]. injection H as H. exact H.
Qed.

Lemma index_of_app_l (l : label) (A B : list label) (p : nat) :
  index_of l A = Some p -> index_of l (A ++ B) = Some p.
Proof.
  revert p. induction A as [|c A IH]; simpl; intros p H; [discriminate|].
  destruct (label_eqb c l); [exact H|].
  destruct (index_of l A) as [q|]; [|discriminate].
  rewrite (IH q eq_refl). exact H.
Qed.

Lemma index_of_none (l : label) (A : list label) :
  index_of l A = None <-> existsb (fun c => label_eqb c l) A = false.
Proof.
  induction A as [|c A IH]; simpl; [tauto|].
  destruct (label_eqb c l); simpl.
  - split; discriminate.
  - rewrite <- IH. destruct (index_of l A); simpl; split; congruence.
Qed.

Lemma has_column_index_of (df : DataFrame) (key : string) :
  has_column df key = false <-> index_of (Col key) (columns df) = None.
Proof. symmetry. apply index_of_none. Qed.

(** Dropping from a frame whose columns split into a head that holds every
    label to drop and a tail that holds none of them. *)
Lemma drop_head {A : Type} (labels : list string) (H T : list label)
      (l : list A) (ix : A -> nat) (Fh Ft : A -> list cell) :
  (forall k, In k labels ->
             existsb (fun c => label_eqb c (Col k)) H = true) ->
  Forall (fun c => negb (existsb (fun k => label_eqb c (Col k)) labels) = true)
         T ->
  (forall r, In r l -> length (Fh r) = length H /\ length (Ft r) = length T) ->
  let mask :=
    map (fun c => negb (existsb (fun k => label_eqb c (Col k)) labels)) H in
  drop labels (mkDF (H ++ T) (map (fun r => (ix r, Fh r ++ Ft r)) l))
  = Ok (mkDF (select mask H ++ T)
             (map (fun r => (ix r, select mask (Fh r) ++ Ft r)) l)).
Proof.
  intros Hin HT Hlen mask. unfold drop.
  assert (Hfind : find (fun k => negb (has_column
              (mkDF (H ++ T) (map (fun r => (ix r, Fh r ++ Ft r)) l)) k))
            labels = None).
  { destruct (find _ labels) as [k|] eqn:E; [|reflexivity].
    apply find_some in E. destruct E as [Hk E].
    unfold has_column in E. simpl in E.
    rewrite existsb_app, (Hin k Hk) in E. discriminate. }
  rewrite Hfind. cbn [columns rows]. f_equal.
  rewrite map_app. fold mask.
  assert (Hm : length mask = length H) by (unfold mask; apply length_map).
  f_equal.
  - rewrite select_app by exact Hm. f_equal.
    apply select_all; [exact HT|reflexivity].
  - rewrite map_map. apply map_ext_in. intros r Hr. cbn [fst snd].
    destruct (Hlen r Hr) as [L1 L2].
    rewrite select_app by congruence. f_equal. f_equal.
    apply select_all; [exact HT|exact L2].
Qed.

(** ** Encoder: closed form on the loader's schema *)

Lemma dummies_kept (labels : list string) (prefix : string) (L : list cell) :
  Forall (fun c => negb (existsb (fun k => label_eqb c (Col k)) labels) = true)
         (map (Dummy prefix) L).
Proof.
  apply Forall_forall. intros c Hc. apply in_map_iff in Hc.
  destruct Hc as [v [<- _]]. induction labels; simpl; auto.
Qed.

Lemma index_of_dummies (key prefix : string) (L : list cell) :
  index_of (Col key) (map (Dummy prefix) L) = None.
Proof. induction L as [|v L IH]; simpl; [|rewrite IH]; reflexivity. Qed.

Lemma index_of_app_none (l : label) (A B : list label) :
  index_of l A = None -> index_of l B = None -> index_of l (A ++ B) = None.
Proof.
  rewrite !index_of_none, existsb_app. intros -> ->. reflexivity.
Qed.

Lemma row14 (cells : list cell) :
  length cells = 14%nat ->
  exists c0 c1 c2 c3 c4 c5 c6 c7 c8 c9 c10 c11 c12 c13,
    cells = [c0; c1; c2; c3; c4; c5; c6; c7; c8; c9; c10; c11; c12; c13].
Proof.
  intro H.
  do 14 (destruct cells as [|? cells]; [discriminate H|]).
  destruct cells; [|discriminate H].
  repeat eexists.
Qed.

Lemma getitem_at (df : DataFrame) (key : string) (p : nat) :
  index_of (Col key) (columns df) = Some p ->
  getitem df key = Ok (map (fun r : row => (fst r, nth p (snd r) NaN)) (rows df)).
Proof. unfold getitem. intros ->. reflexivity. Qed.

Lemma get_dummies_at (df : DataFrame) (prefix : string) (p : nat) :
  get_dummies (map (fun r : row => (fst r, nth p (snd r) NaN)) (rows df))
              prefix true
  = mkDF (map (Dummy prefix) (kept_levels df p))
         (map (fun r : row =>
                 (fst r, indicators (kept_levels df p) (nth p (snd r) NaN)))
              (rows df)).
Proof.
  unfold get_dummies, kept_levels, values_at.
  rewrite !map_map. reflexivity.
Qed.

Lemma length_indicators (L : list cell) (x : cell) :
  length (indicators L x) = length L.
Proof. apply length_map. Qed.

Lemma apply_target_of (l : list row) (p : nat) :
  (forall r, In r l -> exists q, nth p (snd r) NaN = Num q) ->
  apply target_of (map (fun r : row => (fst r, nth p (snd r) NaN)) l)
  = Ok (map (fun r : row => (fst r, target_cell (nth p (snd r) NaN))) l).
Proof.
  intro H. unfold apply.
  rewrite (mapM_map _ (fun iv : nat * cell => (fst iv, target_cell (snd iv)))).
  - rewrite map_map. reflexivity.
  - intros iv Hiv. apply in_map_iff in Hiv. destruct Hiv as [r [<- Hr]].
    destruct (H r Hr) as [q Hq]. cbn [fst snd]. rewrite Hq.
    unfold target_of, gt0, target_cell. simpl.
    destruct (Qle_bool q 0); reflexivity.
Qed.

Lemma Encoder_closed_form (df : DataFrame) :
  columns df = map Col names ->
  rectangular df ->
  (forall r, In r (rows df) -> exists q, nth 13 (snd r) NaN = Num q) ->
  Encoder df = Ok (mkDF (encoded_columns df) (map (encoded_row df) (rows df))).
Proof.
  intros Hcols Hrect Hnum.
  assert (H14 : forall r, In r (rows df) -> length (snd r) = 14%nat).
  { intros r Hr. unfold rectangular in Hrect.
    rewrite Forall_forall in Hrect. rewrite (Hrect r Hr), Hcols. reflexivity. }
  unfold Encoder.
  rewrite (getitem_at df "cp" 2), (getitem_at df "restecg" 6),
    (getitem_at df "slope" 10), (getitem_at df "thal" 12)
    by (rewrite Hcols; reflexivity).
  cbn [bind]. rewrite !get_dummies_at.
  set (Lcp := kept_levels df 2). set (Lre := kept_levels df 6).
  set (Lsl := kept_levels df 10). set (Lth := kept_levels df 12).
  set (T := map (Dummy "cp") Lcp ++ map (Dummy "restecg") Lre
            ++ map (Dummy "slope") Lsl ++ map (Dummy "thal") Lth).
  set (I := fun r : row =>
              indicators Lcp (nth 2 (snd r) NaN)
              ++ indicators Lre (nth 6 (snd r) NaN)
              ++ indicators Lsl (nth 10 (snd r) NaN)
              ++ indicators Lth (nth 12 (snd r) NaN)).
  assert (HT : forall labels,
             Forall (fun c => negb (existsb (fun k => label_eqb c (Col k))
                                            labels) = true) T).
  { intro labels. unfold T.
    do 3 (apply Forall_app; split; [apply dummies_kept|]).
    apply dummies_kept. }
  assert (HI : forall r, length (I r) = length T).
  { intro r. unfold I, T. rewrite !length_app, !length_indicators, !length_map.
    reflexivity. }
  (* the concatenated frame *)
  assert (Hcat :
    concat [df;
            mkDF (map (Dummy "cp") Lcp)
              (map (fun r : row => (fst r, indicators Lcp (nth 2 (snd r) NaN)))
                 (rows df));
            mkDF (map (Dummy "restecg") Lre)
              (map (fun r : row => (fst r, indicators Lre (nth 6 (snd r) NaN)))
                 (rows df));
            mkDF (map (Dummy "slope") Lsl)
              (map (fun r : row => (fst r, indicators Lsl (nth 10 (snd r) NaN)))
                 (rows df));
            mkDF (map (Dummy "thal") Lth)
              (map (fun r : row => (fst r, indicators Lth (nth 12 (snd r) NaN)))
                 (rows df))]
    = mkDF (map Col names ++ T)
           (map (fun r : row => (fst r, snd r ++ I r)) (rows df))).
  { unfold concat. cbn [fold_left columns rows].
    rewrite <- (map_id (rows df)) at 1.
    rewrite !zip_rows_map. cbn [fst snd].
    rewrite Hcols. unfold T, I. rewrite <- !app_assoc. f_equal.
    apply map_ext. intro r. rewrite <- !app_assoc. reflexivity. }
  rewrite Hcat.
  rewrite (drop_head ["cp"; "restecg"; "slope"; "thal"] (map Col names) T
             (rows df) fst).
  2: { intros k Hk. simpl in Hk.
       destruct Hk as [<-|[<-|[<-|[<-|[]]]]]; reflexivity. }
  2: { apply HT. }
  2: { intros r Hr. split; [rewrite (H14 r Hr); reflexivity|apply HI]. }
  cbn [bind].
  set (m14 := map (fun c => negb (existsb (fun k => label_eqb c (Col k))
                                    ["cp"; "restecg"; "slope"; "thal"]))
                  (map Col names)).
  set (base10 := select m14 (map Col names)).
  rewrite (getitem_at _ "num" 9)
    by (cbn [columns]; apply index_of_app_l; reflexivity).
  cbn [rows]. rewrite map_map. cbn [fst snd].
  assert (Hn : map (fun r : row =>
                      (fst r, nth 9 (select m14 (snd r) ++ I r) NaN)) (rows df)
               = map (fun r : row => (fst r, nth 13 (snd r) NaN)) (rows df)).
  { apply map_ext_in. intros r Hr.
    destruct (row14 _ (H14 r Hr))
      as (c0&c1&c2&c3&c4&c5&c6&c7&c8&c9&c10&c11&c12&c13&E).
    rewrite E. reflexivity. }
  rewrite Hn. cbn [bind]. rewrite (apply_target_of _ 13 Hnum). cbn [bind].
  unfold setitem. cbn [columns rows].
  rewrite (index_of_app_none (Col "target") base10 T);
    [|reflexivity|
     unfold T;
     do 3 (apply index_of_app_none; [apply index_of_dummies|]);
     apply index_of_dummies].
  rewrite combine_map_map, map_map. cbn [fst snd].
  assert (Hs : map (fun r : row =>
                      (fst r, (select m14 (snd r) ++ I r)
                                ++ [target_cell (nth 13 (snd r) NaN)]))
                   (rows df)
               = map (fun r : row =>
                        (fst r, select m14 (snd r)
                                  ++ (I r ++ [target_cell (nth 13 (snd r) NaN)])))
                     (rows df)).
  { apply map_ext. intro r. rewrite <- app_assoc. reflexivity. }
  rewrite Hs, <- app_assoc.
  rewrite (drop_head ["num"] base10 (T ++ [Col "target"]) (rows df) fst).
  2: { intros k [<-|[]]. reflexivity. }
  2: { apply Forall_app. split; [apply HT|]. repeat constructor. }
  2: { intros r Hr. split.
       - destruct (row14 _ (H14 r Hr))
           as (c0&c1&c2&c3&c4&c5&c6&c7&c8&c9&c10&c11&c12&c13&E).
         rewrite E. reflexivity.
       - rewrite !length_app, HI. reflexivity. }
  f_equal. f_equal.
  - unfold encoded_columns, T. fold Lcp Lre Lsl Lth.
    rewrite <- !app_assoc. reflexivity.
  - apply map_ext_in. intros r Hr. unfold encoded_row, I.
    fold Lcp Lre Lsl Lth.
    destruct (row14 _ (H14 r Hr))
      as (c0&c1&c2&c3&c4&c5&c6&c7&c8&c9&c10&c11&c12&c13&E).
    rewrite E. cbn [fst snd]. rewrite <- !app_assoc. reflexivity.
Qed.

(** ** Categories: the order of [get_dummies] *)

Lemma cell_eqb_sym (a b : cell) : cell_eqb a b = cell_eqb b a.
Proof.
  destruct a as [|p|s], b as [|q|t]; simpl; try reflexivity.
  - apply Qeq_bool_comm.
  - apply String.eqb_sym.
Qed.

Lemma cell_eqb_refl (a : cell) : notna a = true -> cell_eqb a a = true.
Proof.
  destruct a as [|p|s]; simpl; intro H; [discriminate| |].
  - apply Qeq_bool_refl.
  - apply String.eqb_refl.
Qed.

Lemma cell_eqb_trans (a b c : cell) :
  cell_eqb a b = true -> cell_eqb b c = true -> cell_eqb a c = true.
Proof.
  destruct a as [|p|s], b as [|q|t], c as [|r|u]; simpl; try discriminate.
  - apply Qeq_bool_trans.
  - rewrite !String.eqb_eq. congruence.
Qed.

Lemma cell_lt_trans (a b c : cell) : cell_lt a b -> cell_lt b c -> cell_lt a c.
Proof.
  unfold cell_lt.
  destruct a as [|p|s], b as [|q|t], c as [|r|u]; simpl;
    try discriminate; try reflexivity.
  - rewrite <- !Qlt_alt. apply Qlt_trans.
  - apply String_as_OT.lt_strorder.
Qed.

Lemma cell_compare_Gt (a b : cell) : cell_compare a b = Gt -> cell_lt b a.
Proof.
  unfold cell_lt.
  destruct a as [|p|s], b as [|q|t]; simpl; try discriminate; try reflexivity.
  - rewrite <- (Qcompare_antisym q p).
    destruct (q ?= p)%Q; simpl; congruence.
  - intro H. destruct (String_as_OT.compare_spec t s) as [E|E|E];
      [exfalso|reflexivity|exfalso].
    + unfold String_as_OT.eq in E. rewrite E in H.
      destruct (String_as_OT.compare_spec s s) as [_|E'|E']; try discriminate.
      exact (StrictOrder_Irreflexive _ E').
    + destruct (String_as_OT.compare_spec s t) as [E'|E'|E']; try discriminate.
      apply (StrictOrder_Irreflexive s).
      exact (StrictOrder_Transitive _ _ _ E E').
Qed.

Lemma cell_compare_Eq (a b : cell) :
  notna a = true -> cell_compare a b = Eq -> cell_eqb b a = true.
Proof.
  destruct a as [|p|s], b as [|q|t]; simpl; try discriminate.
  - intros _ H. apply Qeq_alt in H. apply Qeq_bool_iff. symmetry. exact H.
  - intros _ H. destruct (String_as_OT.compare_spec s t) as [E|E|E];
      try discriminate. unfold String_as_OT.eq in E. subst. apply String.eqb_refl.
Qed.

Lemma cell_lt_neq (a b : cell) : cell_lt a b -> cell_eqb a b = false.
Proof.
  unfold cell_lt.
  destruct a as [|p|s], b as [|q|t]; simpl; try reflexivity.
  - intro H. apply Qlt_alt in H.
    destruct (Qeq_bool p q) eqn:E; [|reflexivity].
    apply Qeq_bool_iff in E. rewrite E in H.
    exfalso. exact (Qlt_irrefl _ H).
  - intro H. destruct (String.eqb_spec s t); [|reflexivity]. subst t.
    exfalso. exact (StrictOrder_Irreflexive (R := String_as_OT.lt) s H).
Qed.

Lemma In_insert (x z : cell) (l : list cell) :
  In z (insert x l) <-> z = x \/ In z l.
Proof.
  induction l as [|y l IH]; simpl.
  - intuition.
  - destruct (cell_leb x y); simpl; [intuition|].
    rewrite IH. intuition.
Qed.

Lemma In_sort (z : cell) (l : list cell) : In z (sort l) <-> In z l.
Proof.
  induction l as [|x l IH]; simpl; [tauto|].
  rewrite In_insert, IH. intuition.
Qed.

Lemma insert_sorted (x : cell) (l : list cell) :
  notna x = true ->
  Forall (fun y => cell_eqb y x = false) l ->
  StronglySorted cell_lt l ->
  StronglySorted cell_lt (insert x l).
Proof.
  intros Hx Hd Hs. induction Hs as [|y l Hs IH Hy]; simpl.
  - constructor; constructor.
  - inversion Hd as [|? ? Hyx Hd']; subst.
    unfold cell_leb. destruct (cell_compare x y) eqn:E.
    + rewrite (cell_compare_Eq _ _ Hx E) in Hyx. discriminate.
    + constructor; [constructor; assumption|].
      constructor; [exact E|].
      eapply Forall_impl; [|exact Hy]. intros z Hz.
      exact (cell_lt_trans _ _ _ E Hz).
    + constructor; [apply IH; exact Hd'|].
      apply Forall_forall. intros z Hz. apply In_insert in Hz.
      destruct Hz as [->|Hz]; [apply cell_compare_Gt; exact E|].
      rewrite Forall_forall in Hy. apply Hy. exact Hz.
Qed.

Lemma unique_notna (vals : list cell) :
  Forall (fun c => notna c = true) (unique vals).
Proof.
  induction vals as [|c vals IH]; simpl; [constructor|].
  destruct (isna c) eqn:E; [exact IH|].
  constructor; [unfold notna; rewrite E; reflexivity|].
  apply Forall_forall. intros d Hd. apply filter_In in Hd.
  rewrite Forall_forall in IH. apply IH. tauto.
Qed.

Lemma unique_In (vals : list cell) (c : cell) : In c (unique vals) -> In c vals.
Proof.
  induction vals as [|x vals IH]; simpl; [tauto|].
  destruct (isna x); [auto|]. intros [->|H]; [auto|].
  apply filter_In in H. right. apply IH. tauto.
Qed.

Lemma filter_distinct (f : cell -> bool) (l : list cell) :
  ForallOrdPairs (fun a b => cell_eqb b a = false) l ->
  ForallOrdPairs (fun a b => cell_eqb b a = false) (filter f l).
Proof.
  induction 1 as [|a l Ha Hl IH]; simpl; [constructor|].
  destruct (f a); [|exact IH].
  constructor; [|exact IH].
  apply Forall_forall. intros b Hb. apply filter_In in Hb.
  rewrite Forall_forall in Ha. apply Ha. tauto.
Qed.

Lemma unique_distinct (vals : list cell) :
  ForallOrdPairs (fun a b => cell_eqb b a = false) (unique vals).
Proof.
  induction vals as [|c vals IH]; simpl; [constructor|].
  destruct (isna c); [exact IH|].
  constructor; [|apply filter_distinct; exact IH].
  apply Forall_forall. intros d Hd. apply filter_In in Hd.
  destruct Hd as [_ Hd]. apply negb_true_iff in Hd. exact Hd.
Qed.

Lemma sort_sorted (l : list cell) :
  Forall (fun c => notna c = true) l ->
  ForallOrdPairs (fun a b => cell_eqb b a = false) l ->
  StronglySorted cell_lt (sort l).
Proof.
  intros Hn Hd. induction Hd as [|x l Hx Hd IH]; simpl; [constructor|].
  inversion Hn as [|? ? Hnx Hn']; subst.
  apply insert_sorted; [exact Hnx| |apply IH; exact Hn'].
  apply Forall_forall. intros y Hy. apply (proj1 (In_sort _ _)) in Hy.
  rewrite Forall_forall in Hx. apply Hx. exact Hy.
Qed.

(** The categories come out strictly ascending. *)
Lemma categories_sorted (vals : list cell) :
  StronglySorted cell_lt (categories vals).
Proof.
  apply sort_sorted; [apply unique_notna|apply unique_distinct].
Qed.

(** Every category is a value of the column. *)
Lemma categories_sound (vals : list cell) (c : cell) :
  In c (categories vals) -> In c vals.
Proof. intro H. apply (proj1 (In_sort _ _)) in H. apply unique_In. exact H. Qed.

Lemma unique_complete (vals : list cell) (v : cell) :
  In v vals -> notna v = true ->
  exists c, In c (unique vals) /\ cell_eqb v c = true.
Proof.
  induction vals as [|x vals IH]; simpl; [tauto|].
  intros [->|Hin] Hv.
  - unfold notna in Hv. apply negb_true_iff in Hv. rewrite Hv.
    exists v. split; [left; reflexivity|apply cell_eqb_refl].
    unfold notna. rewrite Hv. reflexivity.
  - destruct (IH Hin Hv) as [c [Hc Hvc]].
    destruct (isna x); [exists c; tauto|].
    destruct (cell_eqb c x) eqn:E.
    + exists x. split; [left; reflexivity|].
      exact (cell_eqb_trans _ _ _ Hvc E).
    + exists c. split; [|exact Hvc]. right. apply filter_In.
      rewrite E. tauto.
Qed.

(** Every non-null value of the column equals one of the categories. *)
Lemma categories_complete (vals : list cell) (v : cell) :
  In v vals -> notna v = true ->
  exists c, In c (categories vals) /\ cell_eqb v c = true.
Proof.
  intros Hin Hv. destruct (unique_complete vals v Hin Hv) as [c [Hc E]].
  exists c. split; [apply (proj2 (In_sort _ _)); exact Hc|exact E].
Qed.

(** ** Encoder: the claims *)

Lemma existsb_dummies (key prefix : string) (L : list cell) :
  existsb (fun c => label_eqb c (Col key)) (map (Dummy prefix) L) = false.
Proof. induction L as [|v L IH]; simpl; [reflexivity|exact IH]. Qed.

Lemma index_of_last (l : label) (A : list label) :
  index_of l A = None -> label_eqb l l = true ->
  index_of l (A ++ [l]) = Some (length A).
Proof.
  intros H Hl. induction A as [|c A IH]; simpl in *.
  - rewrite Hl. reflexivity.
  - destruct (label_eqb c l); [discriminate|].
    destruct (index_of l A); [discriminate|].
    rewrite IH; reflexivity.
Qed.

Lemma encoded_columns_front (df : DataFrame) :
  encoded_columns df = front_columns df ++ [Col "target"].
Proof.
  unfold encoded_columns, front_columns. rewrite <- !app_assoc. reflexivity.
Qed.

Lemma encoded_row_front (df : DataFrame) (r : row) :
  encoded_row df r
  = (fst r, front_cells df r ++ [target_cell (nth 13 (snd r) NaN)]).
Proof.
  unfold encoded_row, front_cells. cbv zeta. rewrite <- !app_assoc.
  reflexivity.
Qed.

Lemma length_front (df : DataFrame) (r : row) :
  length (front_cells df r) = length (front_columns df).
Proof.
  unfold front_cells, front_columns.
  rewrite !length_app, !length_indicators, !length_map. reflexivity.
Qed.

Lemma front_columns_no (key : string) (df : DataFrame) :
  existsb (fun c => label_eqb c (Col key)) (map Col feature_names) = false ->
  existsb (fun c => label_eqb c (Col key)) (front_columns df) = false.
Proof.
  intro H. unfold front_columns.
  rewrite !existsb_app, H, !existsb_dummies. reflexivity.
Qed.

Lemma mapM_first_error {A B : Type} (f : A -> result B) (l : list A)
      (e : error) :
  (forall x, In x l -> f x = Err e \/ exists y, f x = Ok y) ->
  (exists x, In x l /\ f x = Err e) ->
  mapM f l = Err e.
Proof.
  induction l as [|x l IH]; intros Hall [z [Hz Ez]]; [destruct Hz|].
  simpl. destruct (Hall x (or_introl eq_refl)) as [E|[y E]]; rewrite E;
    [reflexivity|].
  cbn [bind]. rewrite IH; [reflexivity| |].
  - intros w Hw. apply Hall. right. exact Hw.
  - destruct Hz as [->|Hz]; [congruence|]. exists z. split; assumption.
Qed.

(** On the loader's columns the Encoder gets as far as mapping [num]. *)
Lemma Encoder_until_target (df : DataFrame) :
  columns df = map Col names ->
  rectangular df ->
  exists k : Series -> result DataFrame,
    Encoder df
    = (target <- apply target_of
                   (map (fun r : row => (fst r, nth 13 (snd r) NaN))
                        (rows df)) ;;
       k target).
Proof.
  intros Hcols Hrect.
  assert (H14 : forall r, In r (rows df) -> length (snd r) = 14%nat).
  { intros r Hr. unfold rectangular in Hrect.
    rewrite Forall_forall in Hrect. rewrite (Hrect r Hr), Hcols. reflexivity. }
  unfold Encoder.
  rewrite (getitem_at df "cp" 2), (getitem_at df "restecg" 6),
    (getitem_at df "slope" 10), (getitem_at df "thal" 12)
    by (rewrite Hcols; reflexivity).
  cbn [bind]. rewrite !get_dummies_at.
  set (T := map (Dummy "cp") (kept_levels df 2)
            ++ map (Dummy "restecg") (kept_levels df 6)
            ++ map (Dummy "slope") (kept_levels df 10)
            ++ map (Dummy "thal") (kept_levels df 12)).
  set (I := fun r : row =>
              indicators (kept_levels df 2) (nth 2 (snd r) NaN)
              ++ indicators (kept_levels df 6) (nth 6 (snd r) NaN)
              ++ indicators (kept_levels df 10) (nth 10 (snd r) NaN)
              ++ indicators (kept_levels df 12) (nth 12 (snd r) NaN)).
  assert (Hcat : forall a b c d,
    concat [df; mkDF (map (Dummy "cp") (kept_levels df 2)) (map a (rows df));
            mkDF (map (Dummy "restecg") (kept_levels df 6)) (map b (rows df));
            mkDF (map (Dummy "slope") (kept_levels df 10)) (map c (rows df));
            mkDF (map (Dummy "thal") (kept_levels df 12)) (map d (rows df))]
    = mkDF (map Col names ++ T)
           (map (fun r : row =>
                   (fst r, snd r ++ snd (a r) ++ snd (b r) ++ snd (c r)
                                 ++ snd (d r))) (rows df))).
  { intros a b c d. unfold concat. cbn [fold_left columns rows].
    rewrite <- (map_id (rows df)) at 1.
    rewrite !zip_rows_map. cbn [fst snd].
    rewrite Hcols. unfold T. rewrite <- !app_assoc. f_equal.
    apply map_ext. intro r. rewrite <- !app_assoc. reflexivity. }
  rewrite Hcat. cbn [snd]. fold I.
  rewrite (drop_head ["cp"; "restecg"; "slope"; "thal"] (map Col names) T
             (rows df) fst).
  2: { intros k Hk. simpl in Hk.
       destruct Hk as [<-|[<-|[<-|[<-|[]]]]]; reflexivity. }
  2: { unfold T.
       do 3 (apply Forall_app; split; [apply dummies_kept|]).
       apply dummies_kept. }
  2: { intros r Hr. split; [rewrite (H14 r Hr); reflexivity|].
       unfold I, T. rewrite !length_app, !length_indicators, !length_map.
       reflexivity. }
  cbn [bind].
  rewrite (getitem_at _ "num" 9)
    by (cbn [columns]; apply index_of_app_l; reflexivity).
  cbn [rows]. rewrite map_map. cbn [fst snd].
  match goal with
  | |- context [map ?f (rows df)] =>
      match f with
      | context [nth 9] =>
          replace (map f (rows df))
            with (map (fun r : row => (fst r, nth 13 (snd r) NaN)) (rows df))
      end
  end.
  - cbn [bind]. eexists (fun target => _). reflexivity.
  - apply map_ext_in. intros r Hr.
    destruct (row14 _ (H14 r Hr))
      as (c0&c1&c2&c3&c4&c5&c6&c7&c8&c9&c10&c11&c12&c13&E).
    rewrite E. reflexivity.
Qed.

Lemma Forall2_map_self {A B : Type} (P : A -> B -> Prop) (f : A -> B)
      (l : list A) :
  (forall x, In x l -> P x (f x)) -> Forall2 P l (map f l).
Proof.
  induction l as [|x l IH]; intro H; simpl; constructor.
  - apply H. left. reflexivity.
  - apply IH. intros y Hy. apply H. right. exact Hy.
Qed.

(** C5 (Encoder, target), amended: on a cleaned Dataset with the loader's
    columns, [num] is the column at position 13.  When every [num] holds a
    number, the Encoder returns a frame without a [num] column whose rows
    are the rows of the Dataset in their order, each with its index label,
    and whose [target] column holds in each row 1 where that row's [num] is
    greater than zero and 0 otherwise.  When some [num] holds text, the
    Encoder fails with a type error and returns no frame. *)
Theorem Encoder_target (df : DataFrame) :
  columns df = map Col names ->
  rectangular df ->
  index_of (Col "num") (columns df) = Some 13%nat /\
  ((forall r, In r (rows df) -> exists q, nth 13 (snd r) NaN = Num q) ->
   exists (out : DataFrame) (p : nat),
     Encoder df = Ok out /\
     has_column out "num" = false /\
     index_of (Col "target") (columns out) = Some p /\
     Forall2 (fun (r o : row) =>
                fst o = fst r /\
                exists q, nth 13 (snd r) NaN = Num q /\
                          ((0 < q)%Q -> nth p (snd o) NaN = Num 1) /\
                          ((q <= 0)%Q -> nth p (snd o) NaN = Num 0))
             (rows df) (rows out)) /\
  ((exists r s, In r (rows df) /\ nth 13 (snd r) NaN = Str s) ->
   Encoder df = Err TypeError).
Proof.
  intros Hcols Hrect.
  split; [rewrite Hcols; reflexivity|]. split.
  - intro Hnum.
    exists (mkDF (encoded_columns df) (map (encoded_row df) (rows df))),
      (length (front_columns df)).
    split; [apply Encoder_closed_form; assumption|].
    split.
    { unfold has_column. cbn [columns]. rewrite encoded_columns_front.
      rewrite existsb_app, front_columns_no; reflexivity. }
    split.
    { cbn [columns]. rewrite encoded_columns_front.
      apply index_of_last; [|reflexivity].
      apply index_of_none. apply front_columns_no. reflexivity. }
    cbn [rows]. apply Forall2_map_self. intros r Hr.
    rewrite encoded_row_front. cbn [fst snd]. split; [reflexivity|].
    rewrite <- (length_front df r), nth_middle.
    destruct (Hnum r Hr) as [q Hq].
    exists q. rewrite Hq. split; [reflexivity|]. simpl.
    destruct (Qle_bool q 0) eqn:E.
    + apply Qle_bool_iff in E. split; [|reflexivity].
      intro H. exfalso. exact (Qlt_not_le _ _ H E).
    + split; [reflexivity|]. intro H. apply Qle_bool_iff in H. congruence.
  - intros (r & t & Hr & Ht).
    destruct (Encoder_until_target df Hcols Hrect) as [k ->].
    unfold apply. rewrite (mapM_first_error _ _ TypeError); [reflexivity| |].
    + intros iv _. destruct (snd iv) as [|q|t']; simpl; eauto.
    + exists (fst r, nth 13 (snd r) NaN). split.
      * apply in_map_iff. exists r. auto.
      * cbn [snd]. rewrite Ht. reflexivity.
Qed.

Lemma Encoder_target_witness :
  index_of (Col "num") (columns cleveland5) = Some 13%nat /\
  exists (out : DataFrame) (p : nat),
    Encoder cleveland5 = Ok out /\
    has_column out "num" = false /\
    index_of (Col "target") (columns out) = Some p /\
    Forall2 (fun (r o : row) =>
               fst o = fst r /\
               exists q, nth 13 (snd r) NaN = Num q /\
                         ((0 < q)%Q -> nth p (snd o) NaN = Num 1) /\
                         ((q <= 0)%Q -> nth p (snd o) NaN = Num 0))
            (rows cleveland5) (rows out).
Proof.
  destruct (Encoder_target cleveland5) as (H13 & Hnum & _).
  - reflexivity.
  - repeat constructor.
  - split; [exact H13|]. apply Hnum. intros r Hr. simpl in Hr.
    destruct Hr as [<-|[<-|[<-|[<-|[<-|[]]]]]]; eexists; reflexivity.
Defined.

(** C5, as stated, fails on a cleaned Dataset whose [num] column was read
    as text: the two records the Cleaner keeps of [text_num3] hold no null
    and no sentinel, the float coercion leaves them as they are, and the
    Encoder fails on them with a type error, so it sets no target. *)
Lemma Encoder_target_text_num :
  columns (Cleaner text_num3) = map Col names /\
  rectangular (Cleaner text_num3) /\
  index (Cleaner text_num3) = [0; 1]%nat /\
  Forall (fun r : row => complete r = true) (rows (Cleaner text_num3)) /\
  Coercer decimal (Cleaner text_num3) = Ok (Cleaner text_num3) /\
  map (fun r : row => nth 13 (snd r) NaN) (rows (Cleaner text_num3))
  = [Str "0"; Str "2"] /\
  Encoder (Cleaner text_num3) = Err TypeError.
Proof.
  split; [reflexivity|]. split; [repeat constructor|].
  split; [reflexivity|]. split; [repeat constructor|].
  split; [vm_compute; reflexivity|]. split; [reflexivity|].
  vm_compute. reflexivity.
Qed.

Lemma group_levels_app (key : string) (A B : list label) :
  group_levels key (A ++ B) = group_levels key A ++ group_levels key B.
Proof. apply flat_map_app. Qed.

Lemma group_levels_cols (key : string) (l : list string) :
  group_levels key (map Col l) = [].
Proof. induction l as [|s l IH]; simpl; [reflexivity|exact IH]. Qed.

Lemma group_levels_dummies (key prefix : string) (L : list cell) :
  group_levels key (map (Dummy prefix) L)
  = if String.eqb prefix key then L else [].
Proof.
  unfold group_levels.
  destruct (String.eqb prefix key) eqn:E;
    induction L as [|v L IH]; simpl; rewrite ?E; simpl;
    [reflexivity|rewrite IH; reflexivity|reflexivity|exact IH].
Qed.

Lemma group_levels_encoded (df : DataFrame) (key : string) (p : nat) :
  In (key, p) [("cp", 2); ("restecg", 6); ("slope", 10); ("thal", 12)]%nat ->
  group_levels key (encoded_columns df) = kept_levels df p.
Proof.
  intro H. unfold encoded_columns.
  rewrite !group_levels_app, !group_levels_dummies, group_levels_cols.
  change (group_levels key [Col "target"]) with (@nil cell).
  simpl in H.
  destruct H as [E|[E|[E|[E|[]]]]]; injection E as <- <-; simpl;
    rewrite ?app_nil_r; reflexivity.
Qed.

Lemma categories_nonempty (df : DataFrame) (p : nat) :
  rows df <> [] ->
  (forall r, In r (rows df) -> notna (nth p (snd r) NaN) = true) ->
  exists ref, categories (values_at df p) = ref :: kept_levels df p.
Proof.
  intros Hne Hnn. unfold kept_levels.
  destruct (rows df) as [|r l] eqn:E; [congruence|].
  destruct (categories_complete (values_at df p) (nth p (snd r) NaN))
    as [c [Hc _]].
  - unfold values_at. rewrite E. left. reflexivity.
  - apply Hnn. left. reflexivity.
  - destruct (categories (values_at df p)) as [|ref L]; [destruct Hc|].
    exists ref. reflexivity.
Qed.

(** C3 (Encoder, column order), amended: on a non-empty cleaned Dataset with
    the loader's columns the Encoder's output lists the nine remaining
    original columns first, then the indicator columns grouped by source
    column in the order cp, restecg, slope, thal, then [target]; within a
    group the indicator columns follow the ascending order of the source
    column's distinct values (not the order of first appearance), and the
    one value left out is the smallest. *)
Theorem Encoder_column_order (df : DataFrame) :
  columns df = map Col names ->
  rectangular df ->
  rows df <> [] ->
  (forall r c, In r (rows df) -> In c (snd r) -> c <> NaN) ->
  (forall r, In r (rows df) -> exists q, nth 13 (snd r) NaN = Num q) ->
  exists out : DataFrame,
    Encoder df = Ok out /\
    columns out
    = map Col feature_names
      ++ map (Dummy "cp") (group_levels "cp" (columns out))
      ++ map (Dummy "restecg") (group_levels "restecg" (columns out))
      ++ map (Dummy "slope") (group_levels "slope" (columns out))
      ++ map (Dummy "thal") (group_levels "thal" (columns out))
      ++ [Col "target"] /\
    forall key p,
      In (key, p) [("cp", 2); ("restecg", 6); ("slope", 10); ("thal", 12)]%nat ->
      exists (source : Series) (ref : cell),
        getitem df key = Ok source /\
        categories (map snd source)
        = ref :: group_levels key (columns out) /\
        StronglySorted cell_lt (ref :: group_levels key (columns out)) /\
        (forall v, In v (map snd source) ->
                   exists c, In c (ref :: group_levels key (columns out)) /\
                             cell_eqb v c = true) /\
        (forall c, In c (ref :: group_levels key (columns out)) ->
                   In c (map snd source)).
Proof.
  intros Hcols Hrect Hne Hclean Hnum.
  assert (H14 : forall r, In r (rows df) -> length (snd r) = 14%nat).
  { intros r Hr. unfold rectangular in Hrect.
    rewrite Forall_forall in Hrect. rewrite (Hrect r Hr), Hcols. reflexivity. }
  assert (Hnn : forall p r, (p < 14)%nat -> In r (rows df) ->
                            notna (nth p (snd r) NaN) = true).
  { intros p r Hp Hr.
    assert (Hin : In (nth p (snd r) NaN) (snd r))
      by (apply nth_In; rewrite (H14 r Hr); exact Hp).
    specialize (Hclean r _ Hr Hin).
    destruct (nth p (snd r) NaN); [congruence|reflexivity|reflexivity]. }
  exists (mkDF (encoded_columns df) (map (encoded_row df) (rows df))).
  split; [apply Encoder_closed_form; assumption|].
  cbn [columns]. split.
  { rewrite (group_levels_encoded df "cp" 2),
      (group_levels_encoded df "restecg" 6),
      (group_levels_encoded df "slope" 10),
      (group_levels_encoded df "thal" 12) by (simpl; tauto).
    reflexivity. }
  intros key p Hkp.
  rewrite (group_levels_encoded df key p Hkp).
  assert (Hp : (p < 14)%nat /\ index_of (Col key) (columns df) = Some p).
  { rewrite Hcols. simpl in Hkp.
    destruct Hkp as [E|[E|[E|[E|[]]]]]; injection E as <- <-;
      (split; [lia|reflexivity]). }
  destruct Hp as [Hp Hix].
  destruct (categories_nonempty df p Hne) as [ref Href].
  { intros r Hr. apply Hnn; assumption. }
  exists (map (fun r : row => (fst r, nth p (snd r) NaN)) (rows df)), ref.
  split; [apply getitem_at; exact Hix|].
  rewrite map_map. cbn [snd]. fold (values_at df p).
  split; [exact Href|]. rewrite <- Href.
  split; [apply categories_sorted|]. split.
  - intros v Hv. apply categories_complete; [exact Hv|].
    unfold values_at in Hv. apply in_map_iff in Hv.
    destruct Hv as [r [<- Hr]]. apply Hnn; assumption.
  - apply categories_sound.
Qed.

Lemma Encoder_column_order_witness :
  exists out : DataFrame,
    Encoder cleveland5 = Ok out /\
    columns out
    = map Col feature_names
      ++ map (Dummy "cp") (group_levels "cp" (columns out))
      ++ map (Dummy "restecg") (group_levels "restecg" (columns out))
      ++ map (Dummy "slope") (group_levels "slope" (columns out))
      ++ map (Dummy "thal") (group_levels "thal" (columns out))
      ++ [Col "target"] /\
    forall key p,
      In (key, p) [("cp", 2); ("restecg", 6); ("slope", 10); ("thal", 12)]%nat ->
      exists (source : Series) (ref : cell),
        getitem cleveland5 key = Ok source /\
        categories (map snd source)
        = ref :: group_levels key (columns out) /\
        StronglySorted cell_lt (ref :: group_levels key (columns out)) /\
        (forall v, In v (map snd source) ->
                   exists c, In c (ref :: group_levels key (columns out)) /\
                             cell_eqb v c = true) /\
        (forall c, In c (ref :: group_levels key (columns out)) ->
                   In c (map snd source)).
Proof.
  apply (Encoder_column_order cleveland5).
  - reflexivity.
  - repeat constructor.
  - discriminate.
  - intros r c Hr Hc. simpl in Hr.
    destruct Hr as [<-|[<-|[<-|[<-|[<-|[]]]]]]; simpl in Hc;
      repeat (destruct Hc as [<-|Hc]; [discriminate|]); destruct Hc.
  - intros r Hr. simpl in Hr.
    destruct Hr as [<-|[<-|[<-|[<-|[<-|[]]]]]]; eexists; reflexivity.
Defined.

(** C3, as stated, fails on the first five Cleveland records: [cp] takes the
    values 1, 4, 4, 3, 2, so its values first appear in the order 1, 4, 3,
    2, while the Encoder's indicator columns are cp_2, cp_3, cp_4. *)
Lemma Encoder_order_not_first_appearance :
  Encoder cleveland5 = Ok encoded5 /\
  unique (values_at cleveland5 2) = [Num 1; Num 4; Num 3; Num 2] /\
  group_levels "cp" (columns encoded5) = [Num 2; Num 3; Num 4] /\
  ~ first_appearance_order (values_at cleveland5 2)
      (group_levels "cp" (columns encoded5)).
Proof.
  split; [vm_compute; reflexivity|].
  split; [vm_compute; reflexivity|].
  split; [vm_compute; reflexivity|].
  intros [ref [Hin H]].
  vm_compute in Hin.
  destruct Hin as [<-|[<-|[<-|[<-|[]]]]]; vm_compute in H; discriminate H.
Qed.

(** ** Encoder: re-encoding *)

Lemma existsb_select {A : Type} (f g : A -> bool) (l : list A) :
  existsb g (select (map f l) l) = existsb (fun c => f c && g c) l.
Proof.
  induction l as [|c l IH]; simpl; [reflexivity|].
  destruct (f c); simpl; rewrite IH; reflexivity.
Qed.

(** After [drop], none of the dropped labels is a column. *)
Lemma drop_removes (labels : list string) (df out : DataFrame) (k : string) :
  drop labels df = Ok out -> In k labels -> has_column out k = false.
Proof.
  unfold drop. destruct (find _ labels); [discriminate|].
  intros H Hk. injection H as <-. unfold has_column. cbn [columns].
  rewrite existsb_select. apply not_true_is_false. intro H.
  apply existsb_exists in H. destruct H as [c [_ H]].
  apply andb_prop in H. destruct H as [H1 H2].
  apply negb_true_iff in H1.
  assert (existsb (fun k0 => label_eqb c (Col k0)) labels = true); [|congruence].
  apply existsb_exists. exists k. split; assumption.
Qed.

(** [drop] adds no column. *)
Lemma drop_keeps_absent (labels : list string) (df out : DataFrame)
      (k : string) :
  drop labels df = Ok out -> has_column df k = false -> has_column out k = false.
Proof.
  unfold drop. destruct (find _ labels); [discriminate|].
  intros H Hk. injection H as <-. unfold has_column in *. cbn [columns].
  rewrite existsb_select. apply not_true_is_false. intro H.
  apply existsb_exists in H. destruct H as [c [Hc H]].
  apply andb_prop in H. destruct H as [_ H2].
  assert (existsb (fun c => label_eqb c (Col k)) (columns df) = true);
    [|congruence].
  apply existsb_exists. exists c. split; assumption.
Qed.

Lemma setitem_other (df : DataFrame) (key k : string) (value : Series) :
  String.eqb key k = false ->
  has_column (setitem df key value) k = has_column df k.
Proof.
  intro H. unfold setitem, has_column.
  destruct (index_of (Col key) (columns df)); cbn [columns]; [reflexivity|].
  rewrite existsb_app. simpl. rewrite H, !orb_false_r. reflexivity.
Qed.

(** C9 (Encoder, re-encoding), amended: the Encoder's output has neither a
    [cp] nor a [num] column, and applying the Encoder to it does not return
    it unchanged but fails with a key error on [cp], the first column the
    Encoder looks up. *)
Theorem Encoder_twice_fails (df out : DataFrame) :
  Encoder df = Ok out ->
  has_column out "cp" = false /\
  has_column out "num" = false /\
  Encoder out = Err (KeyError "cp").
Proof.
  unfold Encoder at 1.
  destruct (getitem df "cp") as [cp_col|e]; [|discriminate]. cbn [bind].
  destruct (getitem df "restecg") as [re_col|e]; [|discriminate]. cbn [bind].
  destruct (getitem df "slope") as [sl_col|e]; [|discriminate]. cbn [bind].
  destruct (getitem df "thal") as [th_col|e]; [|discriminate]. cbn [bind].
  destruct (drop ["cp"; "restecg"; "slope"; "thal"] _) as [d|e] eqn:Hd;
    [|discriminate]. cbn [bind].
  destruct (getitem d "num") as [num|e]; [|discriminate]. cbn [bind].
  destruct (apply target_of num) as [target|e]; [|discriminate]. cbn [bind].
  intro Hout.
  assert (Hcp : has_column out "cp" = false).
  { apply (drop_keeps_absent _ _ _ _ Hout).
    rewrite setitem_other by reflexivity.
    apply (drop_removes _ _ _ _ Hd). simpl. tauto. }
  split; [exact Hcp|]. split.
  - apply (drop_removes _ _ _ _ Hout). simpl. tauto.
  - unfold Encoder, getitem.
    apply has_column_index_of in Hcp. rewrite Hcp. reflexivity.
Qed.

Lemma Encoder_twice_fails_witness :
  Encoder cleveland5 = Ok encoded5 /\
  has_column encoded5 "cp" = false /\
  has_column encoded5 "num" = false /\
  Encoder encoded5 = Err (KeyError "cp").
Proof.
  assert (H : Encoder cleveland5 = Ok encoded5) by (vm_compute; reflexivity).
  split; [exact H|]. exact (Encoder_twice_fails cleveland5 encoded5 H).
Defined.

(** C9, as stated, fails on the Encoder's output for the first five
    Cleveland records: that output has none of the four categorical columns
    and no [num] column, and encoding it does not return it. *)
Lemma Encoder_not_idempotent :
  Encoder cleveland5 = Ok encoded5 /\
  forallb (fun k => negb (has_column encoded5 k))
          ["cp"; "restecg"; "slope"; "thal"; "num"] = true /\
  Encoder encoded5 <> Ok encoded5.
Proof.
  split; [vm_compute; reflexivity|].
  split; [vm_compute; reflexivity|].
  vm_compute. discriminate.
Qed.

(** ** Splitter *)

Lemma iloc_spec {A : Type} (l : list A) (idx : list nat) (out : list A) :
  iloc l idx = Ok out -> map Some out = map (nth_error l) idx.
Proof.
  unfold iloc. revert out. induction idx as [|i idx IH]; simpl; intros out H.
  - injection H as <-. reflexivity.
  - destruct (nth_error l i) as [a|] eqn:E; [|discriminate]. cbn [bind] in H.
    destruct (mapM _ idx) as [ys|e]; [|discriminate]. cbn [bind] in H.
    injection H as <-. simpl. rewrite (IH ys eq_refl). reflexivity.
Qed.

Lemma iloc_total {A : Type} (l : list A) (idx : list nat) :
  Forall (fun i => (i < length l)%nat) idx -> exists out, iloc l idx = Ok out.
Proof.
  unfold iloc. induction 1 as [|i idx Hi _ [ys IH]]; simpl.
  - eexists. reflexivity.
  - apply nth_error_Some in Hi.
    destruct (nth_error l i) as [a|]; [|congruence]. cbn [bind].
    rewrite IH. cbn [bind]. eexists. reflexivity.
Qed.

Lemma iloc_length {A : Type} (l : list A) (idx : list nat) (out : list A) :
  iloc l idx = Ok out -> length out = length idx.
Proof.
  intro H. apply iloc_spec in H.
  rewrite <- (length_map Some out), H. apply length_map.
Qed.

Lemma map_Some_inj {A : Type} (a b : list A) :
  map Some a = map Some b -> a = b.
Proof.
  revert b. induction a as [|x a IH]; intros [|y b] H; simpl in H;
    try discriminate; [reflexivity|].
  injection H as -> H. rewrite (IH b H). reflexivity.
Qed.

Lemma nth_error_seq_all {A : Type} (l : list A) :
  map (nth_error l) (seq 0 (length l)) = map Some l.
Proof.
  induction l as [|x l IH]; simpl; [reflexivity|].
  rewrite <- seq_shift, map_map. f_equal. rewrite <- IH.
  apply map_ext. reflexivity.
Qed.

(** Selecting by two position lists that together are a permutation of all
    positions yields, together, a permutation of the list. *)
Lemma iloc_partition {A : Type} (l : list A) (a b : list nat)
      (xa xb : list A) :
  iloc l a = Ok xa -> iloc l b = Ok xb ->
  Permutation (a ++ b) (seq 0 (length l)) ->
  Permutation (xa ++ xb) l.
Proof.
  intros Ha Hb HP. apply iloc_spec in Ha. apply iloc_spec in Hb.
  apply (Permutation_map (nth_error l)) in HP.
  rewrite nth_error_seq_all, map_app, <- Ha, <- Hb, <- map_app in HP.
  apply Permutation_sym, Permutation_map_inv in HP.
  destruct HP as [l3 [E HP]]. apply map_Some_inj in E. subst l3.
  exact HP.
Qed.

Lemma iloc_map {A B : Type} (f : A -> B) (l : list A) (idx : list nat)
      (out : list A) :
  iloc l idx = Ok out -> iloc (map f l) idx = Ok (map f out).
Proof.
  unfold iloc. revert out. induction idx as [|i idx IH]; simpl; intros out H.
  - injection H as <-. reflexivity.
  - rewrite nth_error_map.
    destruct (nth_error l i) as [a|]; [|discriminate]. cbn [bind option_map] in *.
    destruct (mapM _ idx) as [ys|e]; [|discriminate]. cbn [bind] in H.
    injection H as <-. rewrite (IH ys eq_refl). reflexivity.
Qed.

Section SplitterFacts.

Context {R : RandomState}.

Lemma train_test_split_ok (X : DataFrame) (y : Series) (seed0 : Z)
      (global : rng) (n_test : nat) :
  lawful R ->
  length y = length (rows X) ->
  n_test = Z.to_nat (Qceiling ((2 # 10)
                               * inject_Z (Z.of_nat (length (rows X))))) ->
  (n_test < length (rows X))%nat ->
  exists (train test : list nat) (X_train X_test : list row)
         (y_train y_test : Series),
    train_test_split X y (2 # 10) (Some seed0) global
    = (Ok (mkDF (columns X) X_train, mkDF (columns X) X_test,
           y_train, y_test), global) /\
    Permutation (train ++ test) (seq 0 (length (rows X))) /\
    length test = n_test /\
    length train = (length (rows X) - n_test)%nat /\
    iloc (rows X) train = Ok X_train /\
    iloc (rows X) test = Ok X_test /\
    iloc y train = Ok y_train /\
    iloc y test = Ok y_test.
Proof.
  intros HL Hy Hn Hlt. unfold train_test_split.
  rewrite Hy, Nat.eqb_refl. cbn [negb].
  change (Qle_bool (2 # 10) 0 || Qle_bool 1 (2 # 10)) with false.
  cbv iota. rewrite <- Hn.
  destruct (length (rows X) - n_test =? 0)%nat eqn:E;
    [apply Nat.eqb_eq in E; lia|].
  cbn [check_random_state].
  specialize (HL (seed seed0) (length (rows X))).
  destruct (permutation (seed seed0) (length (rows X))) as [perm s'].
  cbn [fst] in HL.
  assert (Hlen : length perm = length (rows X)).
  { rewrite (Permutation_length HL). apply length_seq. }
  set (test := firstn n_test perm).
  set (train := firstn (length (rows X) - n_test) (skipn n_test perm)).
  assert (Htrain : train = skipn n_test perm).
  { unfold train. apply firstn_all2. rewrite length_skipn. lia. }
  assert (HP : Permutation (train ++ test) (seq 0 (length (rows X)))).
  { rewrite Htrain. unfold test.
    apply Permutation_trans with perm; [|exact HL].
    rewrite Permutation_app_comm, firstn_skipn. apply Permutation_refl. }
  assert (Hb : forall idx, incl idx (train ++ test) ->
                 Forall (fun i => (i < length (rows X))%nat) idx).
  { intros idx Hi. apply Forall_forall. intros i Hin.
    apply Hi in Hin. apply (Permutation_in _ HP) in Hin.
    apply in_seq in Hin. lia. }
  assert (Btrain := Hb train (incl_appl _ (incl_refl _))).
  assert (Btest := Hb test (incl_appr _ (incl_refl _))).
  destruct (iloc_total (rows X) train Btrain) as [X_train H1].
  destruct (iloc_total (rows X) test Btest) as [X_test H2].
  rewrite <- Hy in Btrain, Btest.
  destruct (iloc_total y train Btrain) as [y_train H3].
  destruct (iloc_total y test Btest) as [y_test H4].
  exists train, test, X_train, X_test, y_train, y_test.
  rewrite H1, H2, H3, H4. cbn [bind].
  split; [reflexivity|]. split; [exact HP|].
  split; [unfold test; rewrite length_firstn; lia|].
  split; [rewrite Htrain, length_skipn; lia|].
  repeat split; assumption.
Qed.

(** C7 (Splitter, determinism): with the fixed seed the Splitter's partition
    of a Dataset does not depend on the state of the ambient random
    generator, and it leaves that state as it found it; so a second run on
    the same Dataset, started in the state the first run left, returns the
    same train and test partitions. *)
Theorem Splitter_deterministic (heart_data : DataFrame) (g1 g2 : rng) :
  fst (Splitter heart_data g1) = fst (Splitter heart_data g2) /\
  snd (Splitter heart_data g1) = g1 /\
  fst (Splitter heart_data (snd (Splitter heart_data g1)))
  = fst (Splitter heart_data g1).
Proof.
  assert (H : forall g, Splitter heart_data g
                        = (fst (Splitter heart_data g1), g)).
  { intro g. unfold Splitter.
    destruct (features_target heart_data) as [[X y]|e]; [|reflexivity].
    unfold train_test_split.
    destruct (negb _); [reflexivity|].
    destruct (_ || _); [reflexivity|].
    destruct (_ =? 0)%nat; [reflexivity|].
    cbn [check_random_state].
    destruct (permutation _ _) as [perm s']. reflexivity. }
  rewrite (H g2), (H g1), (H (snd _)). cbn [fst snd]. auto.
Qed.

End SplitterFacts.

Lemma rotating_lawful : lawful rotating.
Proof.
  intros s n. cbn [permutation rotating fst].
  rewrite Permutation_app_comm, firstn_skipn. apply Permutation_refl.
Qed.

Lemma iloc_functional {A B : Type} (f : A -> B) (l : list A) (idx : list nat)
      (out : list B) :
  iloc (map f l) idx = Ok out ->
  exists sel, iloc l idx = Ok sel /\ out = map f sel.
Proof.
  intro H. destruct (iloc_total l idx) as [sel Hsel].
  - apply Forall_forall. intros i Hi.
    assert (Hs := iloc_spec _ _ _ H).
    assert (Hn : nth_error (map f l) i <> None).
    { destruct (in_split _ _ Hi) as [l1 [l2 ->]].
      rewrite map_app in Hs. simpl in Hs.
      assert (E : nth_error (map Some out) (length l1)
                  = Some (nth_error (map f l) i)).
      { rewrite Hs, nth_error_app2, length_map, Nat.sub_diag by
            (rewrite length_map; lia). reflexivity. }
      rewrite nth_error_map in E.
      destruct (nth_error out (length l1)); simpl in E; [|discriminate].
      injection E as E. congruence. }
    apply nth_error_Some in Hn. rewrite length_map in Hn. exact Hn.
  - exists sel. split; [exact Hsel|].
    apply (iloc_map f) in Hsel. congruence.
Qed.

Section SplitterClaims.

Context {R : RandomState}.

Lemma features_target_ok (heart_data : DataFrame) :
  has_column heart_data "target" = true ->
  exists (mask : list bool) (p : nat),
    features_target heart_data
    = Ok (mkDF (select mask (columns heart_data))
               (map (fun r : row => (fst r, select mask (snd r)))
                    (rows heart_data)),
          map (fun r : row => (fst r, nth p (snd r) NaN)) (rows heart_data)).
Proof.
  intro H. unfold features_target, drop. cbn [find]. rewrite H. cbn [negb bind].
  destruct (index_of (Col "target") (columns heart_data)) as [p|] eqn:E.
  - eexists _, p. rewrite (getitem_at _ _ p E). reflexivity.
  - apply index_of_none in E. unfold has_column in H. congruence.
Qed.

Lemma Splitter_ok (heart_data : DataFrame) (global : rng) (n_test : nat) :
  lawful R ->
  has_column heart_data "target" = true ->
  n_test = Z.to_nat (Qceiling ((2 # 10)
             * inject_Z (Z.of_nat (length (rows heart_data))))) ->
  (n_test < length (rows heart_data))%nat ->
  exists (X : DataFrame) (y : Series) (X_train X_test : list row)
         (y_train y_test : Series),
    features_target heart_data = Ok (X, y) /\
    Splitter heart_data global
    = (Ok (mkDF (columns X) X_train, mkDF (columns X) X_test,
           y_train, y_test), global) /\
    length X_train = (length (rows heart_data) - n_test)%nat /\
    length X_test = n_test /\
    map fst y_train = map fst X_train /\
    map fst y_test = map fst X_test /\
    Permutation (map fst X_train ++ map fst X_test) (index heart_data).
Proof.
  intros HL Ht Hn Hlt.
  destruct (features_target_ok heart_data Ht) as [mask [p Hft]].
  unfold Splitter. rewrite Hft.
  set (fX := fun r : row => (fst r, select mask (snd r))) in *.
  set (fy := fun r : row => (fst r, nth p (snd r) NaN)) in *.
  set (X := mkDF (select mask (columns heart_data)) (map fX (rows heart_data))).
  destruct (train_test_split_ok X (map fy (rows heart_data)) 42 global n_test HL)
    as (train & test & X_train & X_test & y_train & y_test
        & Hs & HP & Ltest & Ltrain & H1 & H2 & H3 & H4).
  { unfold X. cbn [rows]. rewrite !length_map. reflexivity. }
  { unfold X. cbn [rows]. rewrite length_map. exact Hn. }
  { unfold X. cbn [rows]. rewrite length_map. exact Hlt. }
  unfold X in *. cbn [rows columns] in *. rewrite length_map in *.
  exists X, (map fy (rows heart_data)), X_train, X_test, y_train, y_test.
  split; [reflexivity|]. split; [exact Hs|].
  destruct (iloc_functional fX _ _ _ H1) as [s1 [S1 ->]].
  destruct (iloc_functional fX _ _ _ H2) as [s2 [S2 ->]].
  destruct (iloc_functional fy _ _ _ H3) as [s3 [S3 ->]].
  destruct (iloc_functional fy _ _ _ H4) as [s4 [S4 ->]].
  assert (s3 = s1) by congruence. assert (s4 = s2) by congruence. subst s3 s4.
  rewrite !length_map, !map_map. cbn [fst fX fy].
  split; [rewrite (iloc_length _ _ _ S1); exact Ltrain|].
  split; [rewrite (iloc_length _ _ _ S2); exact Ltest|].
  split; [reflexivity|]. split; [reflexivity|].
  rewrite <- map_app. apply Permutation_map.
  apply (iloc_partition _ train test); assumption.
Qed.

(** C8 (Splitter, sizes): an encoded Dataset of exactly 300 rows is split,
    with test share 0.2 and seed 42, into 240 train rows and 60 test rows;
    the index labels of the two partitions together are a rearrangement of
    the Dataset's index labels, and no label occurs in both. *)
Theorem Splitter_300_rows (heart_data : DataFrame) (global : rng) :
  lawful R ->
  has_column heart_data "target" = true ->
  length (rows heart_data) = 300%nat ->
  NoDup (index heart_data) ->
  exists (X_train X_test : DataFrame) (y_train y_test : Series),
    Splitter heart_data global
    = (Ok (X_train, X_test, y_train, y_test), global) /\
    length (rows X_train) = 240%nat /\
    length (rows X_test) = 60%nat /\
    length y_train = 240%nat /\
    length y_test = 60%nat /\
    Permutation (index X_train ++ index X_test) (index heart_data) /\
    (forall i, In i (index X_train) -> ~ In i (index X_test)).
Proof.
  intros HL Ht Hlen Hnd.
  destruct (Splitter_ok heart_data global 60 HL Ht)
    as (X & y & X_train & X_test & y_train & y_test
        & _ & Hs & L1 & L2 & I1 & I2 & HP).
  { rewrite Hlen. reflexivity. }
  { rewrite Hlen. lia. }
  exists (mkDF (columns X) X_train), (mkDF (columns X) X_test), y_train, y_test.
  unfold index at 1 2 3 4. cbn [rows].
  rewrite Hlen in L1. change (300 - 60)%nat with 240%nat in L1.
  split; [exact Hs|]. split; [exact L1|].
  split; [exact L2|].
  split; [rewrite <- (length_map fst), I1, length_map; exact L1|].
  split; [rewrite <- (length_map fst), I2, length_map; exact L2|].
  split; [exact HP|].
  assert (Hnd' : NoDup (map fst X_train ++ map fst X_test)).
  { apply (Permutation_NoDup (Permutation_sym HP) Hnd). }
  intros i Hi1 Hi2.
  apply in_split in Hi1. destruct Hi1 as [l1 [l2 E]]. rewrite E in Hnd'.
  rewrite <- app_assoc in Hnd'. simpl in Hnd'.
  apply NoDup_remove_2 in Hnd'. apply Hnd'.
  apply in_or_app. right. apply in_or_app. right. exact Hi2.
Qed.

End SplitterClaims.

(** Without a seed the partition does depend on the ambient generator. *)
Example unseeded_split_depends_on_state :
  let y := map (fun r : row => (fst r, NaN)) (rows encoded300) in
  fst (train_test_split (R := rotating) encoded300 y (2 # 10) None 1%Z)
  <> fst (train_test_split (R := rotating) encoded300 y (2 # 10) None 2%Z).
Proof. vm_compute. discriminate. Qed.

Lemma Splitter_300_rows_witness :
  exists (X_train X_test : DataFrame) (y_train y_test : Series),
    Splitter (R := rotating) encoded300 7%Z
    = (Ok (X_train, X_test, y_train, y_test), 7%Z) /\
    length (rows X_train) = 240%nat /\
    length (rows X_test) = 60%nat /\
    length y_train = 240%nat /\
    length y_test = 60%nat /\
    Permutation (index X_train ++ index X_test) (index encoded300) /\
    (forall i, In i (index X_train) -> ~ In i (index X_test)).
Proof.
  apply (Splitter_300_rows (R := rotating) encoded300 7%Z).
  - exact rotating_lawful.
  - reflexivity.
  - reflexivity.
  - unfold index, encoded300. cbn [rows]. rewrite map_map. cbn [fst].
    rewrite map_id. apply seq_NoDup.
Defined.

Lemma n_test_lt (n : nat) :
  (2 <= n)%nat ->
  (Z.to_nat (Qceiling ((2 # 10) * inject_Z (Z.of_nat n))) < n)%nat.
Proof.
  intro H. unfold Qceiling, Qfloor, Qmult, Qopp, inject_Z. cbn [Qnum Qden].
  change (Z.pos (10 * 1)) with 10%Z.
  assert (Hd := Z.div_mod (- (2 * Z.of_nat n)) 10 ltac:(lia)).
  assert (Hm := Z.mod_pos_bound (- (2 * Z.of_nat n)) 10 ltac:(lia)).
  lia.
Qed.

Lemma features_columns (heart_data X : DataFrame) (y : Series)
      (F : list label) :
  features_target heart_data = Ok (X, y) ->
  columns heart_data = F ++ [Col "target"] ->
  existsb (fun c => label_eqb c (Col "target")) F = false ->
  columns X = F.
Proof.
  unfold features_target, drop. destruct (find _ _); [discriminate|].
  cbn [bind]. destruct (getitem _ _); [|discriminate]. cbn [bind].
  intros H Hc HF. injection H as <- _. cbn [columns]. rewrite Hc.
  rewrite map_app, select_app by (apply length_map).
  simpl. rewrite app_nil_r.
  apply select_all; [|reflexivity].
  apply Forall_forall. intros c Hin. simpl. rewrite orb_false_r.
  apply negb_true_iff. apply not_true_is_false. intro E.
  assert (existsb (fun c => label_eqb c (Col "target")) F = true);
    [|congruence].
  apply existsb_exists. exists c. split; assumption.
Qed.

Section Pipeline.

Context {R : RandomState}.

(** C10 (one set of columns): whenever the script reaches a split, the train
    and the test feature frames carry the same column labels in the same
    order, namely those of the feature frame [X] that the Encoder produced
    from the whole Dataset before the split.  And on a Dataset with the
    loader's columns, a numeric [num] and at least two rows the script does
    reach the split, and both partitions have the Encoder's columns without
    [target]. *)
Theorem train_test_same_columns (df : DataFrame) (global : rng) :
  (forall (X_train X_test : DataFrame) (y_train y_test : Series),
      fst (encode_and_split df global)
      = Ok (X_train, X_test, y_train, y_test) ->
      columns X_train = columns X_test /\
      exists (heart_data X : DataFrame) (y : Series),
        Encoder df = Ok heart_data /\
        features_target heart_data = Ok (X, y) /\
        columns X_train = columns X) /\
  (lawful R ->
   columns df = map Col names ->
   rectangular df ->
   (forall r, In r (rows df) -> exists q, nth 13 (snd r) NaN = Num q) ->
   (2 <= length (rows df))%nat ->
   exists (X_train X_test : DataFrame) (y_train y_test : Series),
     encode_and_split df global
     = (Ok (X_train, X_test, y_train, y_test), global) /\
     columns X_train = front_columns df /\
     columns X_test = front_columns df).
Proof.
  split.
  - intros X_train X_test y_train y_test. unfold encode_and_split.
    destruct (Encoder df) as [heart_data|e]; [|discriminate].
    unfold Splitter.
    destruct (features_target heart_data) as [[X y]|e] eqn:Hft; [|discriminate].
    unfold train_test_split.
    destruct (negb _); [discriminate|].
    destruct (_ || _); [discriminate|].
    destruct (_ =? 0)%nat; [discriminate|].
    destruct (permutation _ _) as [perm s']. cbn [fst].
    destruct (iloc (rows X) _) as [a|]; [|discriminate]. cbn [bind].
    destruct (iloc (rows X) _) as [b|]; [|discriminate]. cbn [bind].
    destruct (iloc y _) as [c|]; [|discriminate]. cbn [bind].
    destruct (iloc y _) as [d|]; [|discriminate]. cbn [bind].
    intro H. injection H as <- <- _ _. cbn [columns].
    split; [reflexivity|]. exists heart_data, X, y. repeat split. exact Hft.
  - intros HL Hcols Hrect Hnum Hn. unfold encode_and_split.
    rewrite (Encoder_closed_form df Hcols Hrect Hnum).
    set (heart_data := mkDF (encoded_columns df) (map (encoded_row df) (rows df))).
    assert (Hno : existsb (fun c => label_eqb c (Col "target"))
                          (front_columns df) = false)
      by (apply front_columns_no; reflexivity).
    assert (Ht : has_column heart_data "target" = true).
    { unfold has_column, heart_data. cbn [columns].
      rewrite encoded_columns_front, existsb_app, Hno. reflexivity. }
    destruct (Splitter_ok heart_data global _ HL Ht eq_refl)
      as (X & y & X_train & X_test & y_train & y_test & Hft & Hs & _).
    { unfold heart_data. cbn [rows]. rewrite length_map.
      apply n_test_lt. exact Hn. }
    rewrite Hs.
    exists (mkDF (columns X) X_train), (mkDF (columns X) X_test),
      y_train, y_test.
    cbn [columns].
    assert (HX : columns X = front_columns df).
    { apply (features_columns heart_data X y); [exact Hft| |exact Hno].
      apply encoded_columns_front. }
    repeat split; assumption.
Qed.

End Pipeline.

Lemma train_test_same_columns_witness :
  exists (X_train X_test : DataFrame) (y_train y_test : Series),
    encode_and_split (R := rotating) cleveland5 7%Z
    = (Ok (X_train, X_test, y_train, y_test), 7%Z) /\
    columns X_train = front_columns cleveland5 /\
    columns X_test = front_columns cleveland5.
Proof.
  apply (proj2 (train_test_same_columns (R := rotating) cleveland5 7%Z)).
  - exact rotating_lawful.
  - reflexivity.
  - repeat constructor.
  - intros r Hr. simpl in Hr.
    destruct Hr as [<-|[<-|[<-|[<-|[<-|[]]]]]]; eexists; reflexivity.
  - simpl. lia.
Defined.

(** ** Scaler *)

Lemma nth_map_seq {A : Type} (f : nat -> A) (d j : nat) (dflt : A) :
  (j < d)%nat -> nth j (map f (seq 0 d)) dflt = f j.
Proof.
  intro H. rewrite (nth_indep _ dflt (f 0%nat))
    by (rewrite length_map, length_seq; exact H).
  rewrite map_nth, seq_nth by exact H. reflexivity.
Qed.

Lemma nth_map_in {A B : Type} (f : A -> B) (l : list A) (j : nat)
      (dflt : B) (d : A) :
  (j < length l)%nat -> nth j (map f l) dflt = f (nth j l d).
Proof.
  intro H. rewrite (nth_indep _ dflt (f d)) by (rewrite length_map; exact H).
  apply map_nth.
Qed.

(** Exact arithmetic keeps the signs. *)
Lemma exact_arith_sign_sound (sqrt : Q -> Q) : sign_sound (exact_arith sqrt).
Proof.
  unfold sign_sound. cbn [fmul fadd exact_arith]. repeat split.
  - intros x y H. rewrite H. ring.
  - intro t. nra.
  - intros x y Hx Hy. lra.
Qed.

(** Float64 arithmetic keeps the signs. *)

Lemma binary_round_aux_signed (prec emax : Z) (sx : bool) (mx ex : Z)
      (lx : location) :
  signed sx (binary_round_aux prec emax sx mx ex lx).
Proof.
  unfold binary_round_aux.
  destruct (shr_fexp prec emax mx ex lx) as [mrs' e'].
  destruct (shr_fexp prec emax _ e' loc_Exact) as [mrs'' e''].
  destruct (shr_m mrs''); simpl; [exact I| |exact I].
  destruct (Z.leb e'' (emax - prec)); simpl; [reflexivity|exact I].
Qed.

Lemma binary_normalize_signed (prec emax : Z) (m e : Z) :
  (0 <= m)%Z -> signed false (binary_normalize prec emax m e false).
Proof.
  intro Hm. destruct m as [|p|p]; simpl; [exact I| |lia].
  unfold binary_round. destruct (shl_align _ _ _) as [mz ez].
  apply binary_round_aux_signed.
Qed.

Lemma to_Q_signed (f : spec_float) : signed false f -> 0 <= Binary64.to_Q f.
Proof.
  destruct f as [s|s| |s m e]; cbn [Binary64.to_Q signed]; intro H;
    try apply Qle_refl.
  subst s. destruct (0 <=? e)%Z.
  - assert (P : (0 <= Z.pos m * 2 ^ e)%Z)
      by (apply Z.mul_nonneg_nonneg; [lia|apply Z.pow_nonneg; lia]).
    unfold Qle, inject_Z. cbn [Qnum Qden]. lia.
  - unfold Qle. cbn [Qnum Qden]. lia.
Qed.

Lemma SFdiv_signed (prec emax : Z) (a b : spec_float) :
  signed false a -> signed false b -> signed false (SFdiv prec emax a b).
Proof.
  destruct a as [sa|sa| |sa ma ea], b as [sb|sb| |sb mb eb]; simpl;
    intros Ha Hb; try exact I.
  subst sa sb. destruct (SFdiv_core_binary _ _ _ _ _ _) as [[mz ez] lz].
  apply binary_round_aux_signed.
Qed.

Lemma of_Q_signed (q : Q) : 0 <= q -> signed false (Binary64.of_Q q).
Proof.
  intro H. unfold Binary64.of_Q, Binary64.of_Z.
  apply SFdiv_signed; apply binary_normalize_signed.
  - unfold Qle in H. simpl in H. lia.
  - lia.
Qed.

Lemma of_Q_zero (q : Q) : q == 0 -> zero_or_nan (Binary64.of_Q q).
Proof.
  intro H. assert (E : Qnum q = 0%Z).
  { unfold Qeq in H. simpl in H. lia. }
  unfold Binary64.of_Q, Binary64.of_Z. rewrite E.
  set (b := binary_normalize _ _ (Z.pos (Qden q)) 0 false).
  cbn [binary_normalize]. destruct b; exact I.
Qed.

Lemma binary64_sign_sound : sign_sound binary64.
Proof.
  unfold sign_sound. cbn [fmul fadd binary64]. repeat split.
  - intros x y Hy. unfold Binary64.mul, Binary64.lift2.
    pose proof (of_Q_zero y Hy) as N.
    destruct (Binary64.of_Q x) as [sa|sa| |sa ma ea],
      (Binary64.of_Q y) as [sb|sb| |sb mb eb];
      simpl in N; try contradiction; reflexivity.
  - intro t. unfold Binary64.mul, Binary64.lift2. apply to_Q_signed.
    destruct (Binary64.of_Q t) as [sa|sa| |sa ma ea]; simpl; try exact I.
    pose proof (binary_round_aux_signed Binary64.prec Binary64.emax
                  (xorb sa sa) (Z.pos (ma * ma)) (ea + ea) loc_Exact) as S.
    rewrite Bool.xorb_nilpotent in S. rewrite Bool.xorb_nilpotent. exact S.
  - intros x y Hx Hy. unfold Binary64.add, Binary64.lift2.
    pose proof (of_Q_zero x Hx) as N. pose proof (of_Q_signed y Hy) as S.
    destruct (Binary64.of_Q x) as [sa|sa| |sa ma ea],
      (Binary64.of_Q y) as [sb|sb| |sb mb eb];
      simpl in N; try contradiction; simpl; try apply Qle_refl.
    + destruct sa, sb; simpl; apply Qle_refl.
    + apply (to_Q_signed (S754_finite sb mb eb)). exact S.
Qed.

Section ScalerFacts.

Context {F : Float64}.

Lemma fit_ok (X : matrix) (d : nat) :
  X <> [] -> (0 < d)%nat -> Forall (fun r => length r = d) X ->
  fit X
  = Ok (mkScaler
          (map (fun j => fmean (column_of X j)) (seq 0 d))
          (map (fun j => fvar (column_of X j)) (seq 0 d))
          (map (fun j => handle_zeros_in_scale
                           (fsqrt (fvar (column_of X j)))
                           (is_constant_feature (fvar (column_of X j))
                                                (fmean (column_of X j))
                                                (length X)))
               (seq 0 d))).
Proof.
  intros Hne Hd HX. unfold fit. destruct X as [|r X']; [congruence|].
  inversion HX as [|? ? Hr _]; subst.
  destruct (length r =? 0)%nat eqn:E; [apply Nat.eqb_eq in E; lia|].
  rewrite !map_map. reflexivity.
Qed.

Lemma transform_ok (scaler : StandardScaler) (X : matrix) :
  X <> [] ->
  Forall (fun r => length r = length (mean_ scaler)) X ->
  exists X_scaled,
    transform scaler X = Ok X_scaled /\
    X_scaled
    = map (fun r => map (fun xms : Q * (Q * Q) =>
                           fdiv (fsub (fst xms) (fst (snd xms)))
                                (snd (snd xms)))
                        (combine r (combine (mean_ scaler) (scale_ scaler))))
          X.
Proof.
  intros Hne HX. unfold transform. destruct X as [|r X']; [congruence|].
  assert (E : forallb (fun r0 => (length r0 =? length (mean_ scaler))%nat)
                      (r :: X') = true).
  { apply forallb_forall. intros r0 Hr0. rewrite Forall_forall in HX.
    apply Nat.eqb_eq. apply HX. exact Hr0. }
  rewrite E. eexists. split; reflexivity.
Qed.

(** A feature whose accumulated variance is zero is a constant feature. *)
Lemma zero_variance_constant (v m : Q) (n : nat) :
  sign_sound F -> v == 0 -> is_constant_feature v m n = true.
Proof.
  intros (Hmul & Hsq & Hadd) Hv. unfold is_constant_feature. cbv zeta.
  apply Qle_bool_iff. rewrite Hv at 1.
  apply Hadd; [apply Hmul; exact Hv|apply Hsq].
Qed.

(** The scaled partitions, column by column. *)
Lemma Scaler_columns (X_train X_test : matrix) (d : nat) :
  X_train <> [] ->
  X_test <> [] ->
  (0 < d)%nat ->
  Forall (fun r => length r = d) X_train ->
  Forall (fun r => length r = d) X_test ->
  exists (scaler : StandardScaler) (Xs Ts : matrix),
    fit X_train = Ok scaler /\
    Scaler X_train X_test = Ok (Xs, Ts) /\
    length Xs = length X_train /\
    length Ts = length X_test /\
    Forall (fun r => length r = d) Xs /\
    Forall (fun r => length r = d) Ts /\
    forall j, (j < d)%nat ->
      let col := column_of X_train j in
      let m := fmean col in
      let s := handle_zeros_in_scale
                 (fsqrt (fvar col))
                 (is_constant_feature (fvar col) m (length X_train)) in
      nth j (mean_ scaler) 0 = m /\
      nth j (var_ scaler) 0 = fvar col /\
      nth j (scale_ scaler) 0 = s /\
      column_of Xs j = map (fun x => fdiv (fsub x m) s) col /\
      column_of Ts j = map (fun x => fdiv (fsub x m) s) (column_of X_test j).
Proof.
  intros Hne Hte Hd HX HT.
  pose proof (fit_ok X_train d Hne Hd HX) as Hfit.
  set (scaler := mkScaler _ _ _) in Hfit.
  assert (Hm : length (mean_ scaler) = d)
    by (unfold scaler; cbn [mean_]; rewrite length_map; apply length_seq).
  assert (Hs : length (scale_ scaler) = d)
    by (unfold scaler; cbn [scale_]; rewrite length_map; apply length_seq).
  destruct (transform_ok scaler X_train Hne) as [Xs [H1 E1]];
    [rewrite Hm; exact HX|].
  destruct (transform_ok scaler X_test Hte) as [Ts [H2 E2]];
    [rewrite Hm; exact HT|].
  exists scaler, Xs, Ts.
  split; [exact Hfit|]. split.
  { unfold Scaler, fit_transform. rewrite Hfit. cbn [bind].
    rewrite H1. cbn [bind fst snd]. rewrite H2. reflexivity. }
  assert (Hw : forall M : matrix,
             Forall (fun r => length r = d) M ->
             Forall (fun r => length r = d)
               (map (fun r => map (fun xms : Q * (Q * Q) =>
                                     fdiv (fsub (fst xms) (fst (snd xms)))
                                          (snd (snd xms)))
                                  (combine r (combine (mean_ scaler)
                                                      (scale_ scaler)))) M)).
  { intros M HM. apply Forall_forall. intros r' Hr'.
    apply in_map_iff in Hr'. destruct Hr' as [r [<- Hr]].
    rewrite Forall_forall in HM.
    rewrite length_map, !length_combine, Hm, Hs, (HM r Hr).
    rewrite !Nat.min_id. reflexivity. }
  assert (Hcol : forall (M : matrix) j,
             Forall (fun r => length r = d) M -> (j < d)%nat ->
             column_of
               (map (fun r => map (fun xms : Q * (Q * Q) =>
                                     fdiv (fsub (fst xms) (fst (snd xms)))
                                          (snd (snd xms)))
                                  (combine r (combine (mean_ scaler)
                                                      (scale_ scaler)))) M) j
             = map (fun x => fdiv (fsub x (nth j (mean_ scaler) 0))
                                  (nth j (scale_ scaler) 0))
                   (column_of M j)).
  { intros M j HM Hj. unfold column_of. rewrite !map_map.
    apply map_ext_in. intros r Hr. rewrite Forall_forall in HM.
    pose proof (HM r Hr) as Hlen.
    rewrite (nth_map_in _ _ j 0 (0, (0, 0)))
      by (rewrite !length_combine, Hm, Hs, (HM r Hr); lia).
    rewrite !combine_nth by (rewrite ?length_combine; lia).
    reflexivity. }
  rewrite E1, E2, !length_map.
  split; [reflexivity|]. split; [reflexivity|].
  split; [apply Hw; exact HX|]. split; [apply Hw; exact HT|].
  intros j Hj col m s.
  assert (Em : nth j (mean_ scaler) 0 = m)
    by (unfold scaler; cbn [mean_]; rewrite nth_map_seq by exact Hj;
        reflexivity).
  assert (Ev : nth j (var_ scaler) 0 = fvar col)
    by (unfold scaler; cbn [var_]; rewrite nth_map_seq by exact Hj;
        reflexivity).
  assert (Es : nth j (scale_ scaler) 0 = s)
    by (unfold scaler; cbn [scale_]; rewrite nth_map_seq by exact Hj;
        reflexivity).
  rewrite !Hcol by assumption. rewrite Em, Es. repeat split; assumption.
Qed.

(** C1 (Scaler, zero deviation), amended: whatever the rounding of the
    arithmetic, on a non-empty train partition with at least one feature
    and a non-empty test partition of the same width the Scaler stage does
    not fail when the variance fitted for a train column is zero; for such
    a column the stored scale is 1 in place of the zero deviation, so each
    of its train and test values has the stored mean subtracted and is
    divided by 1. *)
Theorem Scaler_constant_column (X_train X_test : matrix) (d j : nat) :
  sign_sound F ->
  X_train <> [] ->
  X_test <> [] ->
  Forall (fun r => length r = d) X_train ->
  Forall (fun r => length r = d) X_test ->
  (j < d)%nat ->
  fvar (column_of X_train j) == 0 ->
  exists (scaler : StandardScaler) (X_train_scaled X_test_scaled : matrix),
    fit X_train = Ok scaler /\
    Scaler X_train X_test = Ok (X_train_scaled, X_test_scaled) /\
    nth j (scale_ scaler) 0 = 1 /\
    column_of X_train_scaled j
    = map (fun x => fdiv (fsub x (nth j (mean_ scaler) 0)) 1)
          (column_of X_train j) /\
    column_of X_test_scaled j
    = map (fun x => fdiv (fsub x (nth j (mean_ scaler) 0)) 1)
          (column_of X_test j).
Proof.
  intros HF Hne Hte HX HT Hj Hvar.
  destruct (Scaler_columns X_train X_test d Hne Hte ltac:(lia) HX HT)
    as (scaler & Xs & Ts & Hfit & HS & _ & _ & _ & _ & Hc).
  destruct (Hc j Hj) as (Em & _ & Es & E1 & E2).
  rewrite (zero_variance_constant _ _ _ HF Hvar) in Es, E1, E2.
  cbn [handle_zeros_in_scale] in Es, E1, E2.
  exists scaler, Xs, Ts. rewrite Em. auto.
Qed.

End ScalerFacts.

Lemma Scaler_constant_column_witness :
  exists (scaler : StandardScaler) (X_train_scaled X_test_scaled : matrix),
    fit (F := binary64) [[60; 1 # 10]; [64; 1 # 10]; [62; 1 # 10]]
    = Ok scaler /\
    Scaler (F := binary64)
           [[60; 1 # 10]; [64; 1 # 10]; [62; 1 # 10]] [[66; 2 # 10]]
    = Ok (X_train_scaled, X_test_scaled) /\
    nth 1 (scale_ scaler) 0 = 1 /\
    column_of X_train_scaled 1
    = map (fun x => Binary64.div (Binary64.sub x (nth 1 (mean_ scaler) 0)) 1)
          (column_of [[60; 1 # 10]; [64; 1 # 10]; [62; 1 # 10]] 1) /\
    column_of X_test_scaled 1
    = map (fun x => Binary64.div (Binary64.sub x (nth 1 (mean_ scaler) 0)) 1)
          (column_of [[66; 2 # 10]] 1).
Proof.
  apply (Scaler_constant_column (F := binary64)
           [[60; 1 # 10]; [64; 1 # 10]; [62; 1 # 10]] [[66; 2 # 10]] 2 1).
  - exact binary64_sign_sound.
  - discriminate.
  - discriminate.
  - repeat constructor.
  - repeat constructor.
  - lia.
  - vm_compute. reflexivity.
Defined.

(** C1, as stated, fails on a train partition whose second column is the
    constant 1, of zero deviation: whatever the rounding of the arithmetic
    the Scaler stage returns scaled partitions; computed exactly, and
    computed in float64, the constant column is scaled with 1 in place of
    its zero deviation. *)
Lemma Scaler_accepts_zero_deviation :
  var (column_of [[60; 1]; [64; 1]] 1) == 0 /\
  (forall F : Float64,
      exists out : matrix * matrix,
        Scaler (F := F) [[60; 1]; [64; 1]] [[66; 0]] = Ok out) /\
  (exists (X_train_scaled X_test_scaled : matrix),
      Scaler (F := exact_arith sqrt_fixed) [[60; 1]; [64; 1]] [[66; 0]]
      = Ok (X_train_scaled, X_test_scaled) /\
      Forall2 (Forall2 Qeq) X_train_scaled [[-1; 0]; [1; 0]] /\
      Forall2 (Forall2 Qeq) X_test_scaled [[2; -1]]) /\
  exists (X_train_scaled X_test_scaled : matrix),
    Scaler (F := binary64) [[60; 1]; [64; 1]] [[66; 0]]
    = Ok (X_train_scaled, X_test_scaled) /\
    Forall2 (Forall2 Qeq) X_train_scaled [[-1; 0]; [1; 0]] /\
    Forall2 (Forall2 Qeq) X_test_scaled [[2; -1]].
Proof.
  split; [reflexivity|]. split; [|split].
  - intro F. eexists. reflexivity.
  - eexists _, _. split; [vm_compute; reflexivity|].
    split; repeat constructor.
  - eexists _, _. split; [vm_compute; reflexivity|].
    split; repeat constructor.
Qed.

(** Float64 arithmetic on the constant column 0.1, 0.1, 0.1: the mean
    rounds to the float64 above 0.1, the variance is zero, the scale is 1,
    and every value is centred to [- 2^-56]. *)
Example Scaler_binary64_constant_column :
  exists (scaler : StandardScaler) (X_train_scaled X_test_scaled : matrix),
    fit (F := binary64) [[1 # 10]; [1 # 10]; [1 # 10]] = Ok scaler /\
    Forall2 Qeq (var_ scaler) [0] /\
    scale_ scaler = [1] /\
    Scaler (F := binary64) [[1 # 10]; [1 # 10]; [1 # 10]] [[1 # 10]]
    = Ok (X_train_scaled, X_test_scaled) /\
    Forall2 (Forall2 Qeq) X_train_scaled
            [[- (1 # 2 ^ 56)]; [- (1 # 2 ^ 56)]; [- (1 # 2 ^ 56)]] /\
    Forall2 (Forall2 Qeq) X_test_scaled [[- (1 # 2 ^ 56)]].
Proof.
  eexists _, _, _. split; [vm_compute; reflexivity|].
  split; [repeat constructor|]. split; [reflexivity|].
  split; [vm_compute; reflexivity|].
  split; repeat constructor.
Qed.

(** Float64 arithmetic on the column 1e16, 1e16 + 4: the variance, 4, is
    within the rounding error of the accumulation, so the feature counts as
    constant and is scaled by 1, not by its deviation 2. *)
Example Scaler_binary64_near_constant_column :
  exists (scaler : StandardScaler) (X_train_scaled X_test_scaled : matrix),
    fit (F := binary64) [[inject_Z (10 ^ 16)]; [inject_Z (10 ^ 16 + 4)]]
    = Ok scaler /\
    Forall2 Qeq (var_ scaler) [4] /\
    scale_ scaler = [1] /\
    Scaler (F := binary64)
           [[inject_Z (10 ^ 16)]; [inject_Z (10 ^ 16 + 4)]]
           [[inject_Z (10 ^ 16)]]
    = Ok (X_train_scaled, X_test_scaled) /\
    Forall2 (Forall2 Qeq) X_train_scaled [[-2]; [2]] /\
    Forall2 (Forall2 Qeq) X_test_scaled [[-2]].
Proof.
  eexists _, _, _. split; [vm_compute; reflexivity|].
  split; [repeat constructor|]. split; [reflexivity|].
  split; [vm_compute; reflexivity|].
  split; repeat constructor.
Qed.

(** ** Evaluator *)

Lemma argmax_from_spec (l : list Q) :
  forall (pre : list Q) (best : nat) (best_v : Q),
    nth_error pre best = Some best_v ->
    (forall x, In x pre -> (x <= best_v)%Q) ->
    (forall j x, (j < best)%nat -> nth_error pre j = Some x -> (x < best_v)%Q) ->
    let i := argmax_from best (Some best_v) (length pre) (map Some l) in
    exists v,
      nth_error (pre ++ l) i = Some v /\
      (forall x, In x (pre ++ l) -> (x <= v)%Q) /\
      (forall j x, (j < i)%nat -> nth_error (pre ++ l) j = Some x -> (x < v)%Q).
Proof.
  induction l as [|x l IH]; intros pre best best_v Hb Hmax Hfirst;
    cbn [map argmax_from float_le].
  - rewrite app_nil_r. eauto.
  - replace (pre ++ x :: l) with ((pre ++ [x]) ++ l)
      by (rewrite <- app_assoc; reflexivity).
    replace (S (length pre)) with (length (pre ++ [x]))
      by (rewrite length_app; simpl; lia).
    destruct (Qle_bool x best_v) eqn:E.
    + apply Qle_bool_iff in E. apply IH.
      * rewrite nth_error_app1; [exact Hb|].
        apply nth_error_Some. congruence.
      * intros z Hz. apply in_app_or in Hz. destruct Hz as [Hz|[Hz|[]]].
        -- auto.
        -- subst z. exact E.
      * intros j z Hj Hz. apply (Hfirst j z Hj).
        assert (best < length pre)%nat
          by (apply nth_error_Some; congruence).
        rewrite nth_error_app1 in Hz by lia. exact Hz.
    + assert (Hlt : (best_v < x)%Q).
      { apply Qnot_le_lt. intro H. apply Qle_bool_iff in H. congruence. }
      apply IH.
      * rewrite nth_error_app2 by lia. rewrite Nat.sub_diag. reflexivity.
      * intros z Hz. apply in_app_or in Hz. destruct Hz as [Hz|[Hz|[]]].
        -- apply Qle_trans with best_v; [auto|apply Qlt_le_weak; exact Hlt].
        -- subst z. apply Qle_refl.
      * intros j z Hj Hz. rewrite nth_error_app1 in Hz by exact Hj.
        apply Qle_lt_trans with best_v; [|exact Hlt].
        apply Hmax. apply nth_error_In with j. exact Hz.
Qed.

Lemma argmax_spec (a : list Q) (i : nat) :
  argmax (map Some a) = Ok i ->
  exists v,
    nth_error a i = Some v /\
    (forall x, In x a -> (x <= v)%Q) /\
    (forall j x, (j < i)%nat -> nth_error a j = Some x -> (x < v)%Q).
Proof.
  destruct a as [|x l]; simpl; intro H; [discriminate|].
  injection H as <-.
  apply (argmax_from_spec l [x] 0%nat x).
  - reflexivity.
  - intros z [<-|[]]. apply Qle_refl.
  - intros j z Hj. lia.
Qed.

(** The model picked from three accuracies that are numbers: the first
    position of the maximum. *)
Lemma best_model_spec (lr_acc rf_acc svc_acc : Q) :
  exists (i : nat) (m : string) (v : Q),
    best_model (Some lr_acc) (Some rf_acc) (Some svc_acc) = Ok m /\
    nth_error models i = Some m /\
    nth_error [lr_acc; rf_acc; svc_acc] i = Some v /\
    (forall x, In x [lr_acc; rf_acc; svc_acc] -> (x <= v)%Q) /\
    (forall j x, (j < i)%nat ->
                 nth_error [lr_acc; rf_acc; svc_acc] j = Some x -> (x < v)%Q) /\
    ((rf_acc <= lr_acc)%Q -> (svc_acc <= lr_acc)%Q ->
     m = "Logistic Regression") /\
    ((lr_acc < rf_acc)%Q -> (svc_acc <= rf_acc)%Q -> m = "Random Forest").
Proof.
  unfold best_model.
  change [Some lr_acc; Some rf_acc; Some svc_acc]
    with (map Some [lr_acc; rf_acc; svc_acc]).
  destruct (argmax (map Some [lr_acc; rf_acc; svc_acc])) as [i|e] eqn:E;
    [|discriminate E].
  destruct (argmax_spec _ _ E) as [v [Hv [Hmax Hfirst]]].
  assert (Hi : (i < 3)%nat).
  { change 3%nat with (length [lr_acc; rf_acc; svc_acc]).
    apply nth_error_Some. congruence. }
  destruct i as [|[|[|i]]]; [| | |lia]; simpl;
    [ exists 0%nat, "Logistic Regression", v
    | exists 1%nat, "Random Forest", v
    | exists 2%nat, "Support Vector Classifier", v ];
    (split; [reflexivity|]); (split; [reflexivity|]);
    (split; [exact Hv|]); (split; [exact Hmax|]); (split; [exact Hfirst|]);
    simpl in Hv; injection Hv as <-.
  - split; [reflexivity|]. intros H _.
    specialize (Hmax rf_acc (or_intror (or_introl eq_refl))).
    exfalso. apply (Qlt_not_le _ _ H). exact Hmax.
  - split; [|reflexivity]. intros H _.
    specialize (Hfirst 0%nat lr_acc (Nat.lt_0_succ _) eq_refl).
    exfalso. apply (Qlt_not_le _ _ Hfirst). exact H.
  - split.
    + intros _ H.
      specialize (Hfirst 0%nat lr_acc (Nat.lt_0_succ _) eq_refl).
      exfalso. apply (Qlt_not_le _ _ Hfirst). exact H.
    + intros _ H.
      specialize (Hfirst 1%nat rf_acc ltac:(lia) eq_refl).
      exfalso. apply (Qlt_not_le _ _ Hfirst). exact H.
Qed.

(** C6 (Evaluator): when the three accuracies are computed on the test
    labels (each list of predictions is as long as the non-empty list of
    test labels), the model the Evaluator names as best has the maximal
    accuracy of the three, and every model before it in the order logistic
    regression, random forest, support-vector classifier has a strictly
    smaller accuracy; so among equal maximal accuracies the earliest model
    wins, and logistic regression wins whenever no other accuracy exceeds
    its own. *)
Theorem Evaluator_first_maximum (y_test lr_pred rf_pred svc_pred : list Z)
        (lr_acc rf_acc svc_acc : Q) :
  accuracy_score y_test lr_pred = Ok (Some lr_acc) ->
  accuracy_score y_test rf_pred = Ok (Some rf_acc) ->
  accuracy_score y_test svc_pred = Ok (Some svc_acc) ->
  exists (i : nat) (m : string) (v : Q),
    Evaluator y_test lr_pred rf_pred svc_pred = Ok m /\
    nth_error models i = Some m /\
    nth_error [lr_acc; rf_acc; svc_acc] i = Some v /\
    (forall x, In x [lr_acc; rf_acc; svc_acc] -> (x <= v)%Q) /\
    (forall j x, (j < i)%nat ->
                 nth_error [lr_acc; rf_acc; svc_acc] j = Some x -> (x < v)%Q) /\
    ((rf_acc <= lr_acc)%Q -> (svc_acc <= lr_acc)%Q ->
     m = "Logistic Regression") /\
    ((lr_acc < rf_acc)%Q -> (svc_acc <= rf_acc)%Q -> m = "Random Forest").
Proof.
  intros Hlr Hrf Hsvc. unfold Evaluator. rewrite Hlr, Hrf, Hsvc.
  cbn [bind]. exact (best_model_spec lr_acc rf_acc svc_acc).
Qed.

Lemma Evaluator_first_maximum_witness :
  exists (i : nat) (m : string) (v : Q),
    Evaluator [1; 0; 1; 1]%Z [1; 0; 0; 1]%Z [1; 1; 1; 0]%Z [1; 0; 1; 1]%Z
    = Ok m /\
    nth_error models i = Some m /\
    nth_error [3 # 4; 2 # 4; 4 # 4] i = Some v /\
    (forall x, In x [3 # 4; 2 # 4; 4 # 4] -> (x <= v)%Q) /\
    (forall j x, (j < i)%nat ->
                 nth_error [3 # 4; 2 # 4; 4 # 4] j = Some x -> (x < v)%Q) /\
    ((2 # 4 <= 3 # 4)%Q -> (4 # 4 <= 3 # 4)%Q ->
     m = "Logistic Regression") /\
    ((3 # 4 < 2 # 4)%Q -> (4 # 4 <= 2 # 4)%Q -> m = "Random Forest").
Proof.
  apply (Evaluator_first_maximum
           [1; 0; 1; 1]%Z [1; 0; 0; 1]%Z [1; 1; 1; 0]%Z [1; 0; 1; 1]%Z).
  - reflexivity.
  - reflexivity.
  - reflexivity.
Defined.

(** Predictions that differ in number from the test labels stop the
    Evaluator with a value error: no accuracy is computed for them. *)
Lemma Evaluator_length_error (y_test lr_pred rf_pred svc_pred : list Z) :
  length lr_pred <> length y_test \/
  length rf_pred <> length y_test \/
  length svc_pred <> length y_test ->
  Evaluator y_test lr_pred rf_pred svc_pred = Err ValueError.
Proof.
  intro H. unfold Evaluator.
  assert (A : forall p, length p <> length y_test ->
                        accuracy_score y_test p = Err ValueError).
  { intros p Hp. unfold accuracy_score.
    destruct (Nat.eqb_spec (length y_test) (length p));
      [congruence|reflexivity]. }
  assert (B : forall p, accuracy_score y_test p = Err ValueError \/
                        exists a, accuracy_score y_test p = Ok a).
  { intro p. unfold accuracy_score.
    destruct (negb _); [left; reflexivity|right].
    destruct y_test; eexists; reflexivity. }
  destruct (B lr_pred) as [E1|[a E1]]; rewrite E1; [reflexivity|].
  destruct (B rf_pred) as [E2|[b E2]]; rewrite E2; [reflexivity|].
  destruct (B svc_pred) as [E3|[c E3]]; rewrite E3; [reflexivity|].
  destruct H as [H|[H|H]]; apply A in H; congruence.
Qed.


(** * Further properties *)

(** ** Cleaner: idempotence and what it keeps *)

Lemma filter_idempotent {A : Type} (f : A -> bool) (l : list A) :
  filter f (filter f l) = filter f l.
Proof.
  induction l as [|x l IH]; simpl; [reflexivity|].
  destruct (f x) eqn:E; simpl; rewrite ?E, IH; reflexivity.
Qed.

Lemma filter_all_iff {A : Type} (f : A -> bool) (l : list A) :
  filter f l = l <-> forallb f l = true.
Proof.
  induction l as [|x l IH]; simpl; [tauto|].
  destruct (f x) eqn:E; simpl.
  - rewrite <- IH. split; [intro H; injection H; auto|intros ->; reflexivity].
  - split; [|discriminate]. intro H.
    assert (Hl : (length (filter f l) <= length l)%nat)
      by apply filter_length_le.
    rewrite H in Hl. simpl in Hl. lia.
Qed.

(** X1 (Cleaner, idempotence): cleaning a second time changes nothing. *)
Theorem Cleaner_idempotent (df : DataFrame) :
  Cleaner (Cleaner df) = Cleaner df.
Proof.
  change (Cleaner (Cleaner df))
    with (mkDF (columns (Cleaner df)) (rows (Cleaner (Cleaner df)))).
  change (Cleaner df) with (mkDF (columns df) (rows (Cleaner df))) at 3.
  rewrite (Cleaner_rows (Cleaner df)), (Cleaner_rows df), filter_idempotent.
  reflexivity.
Qed.

(** X2 (Cleaner, shape): the Cleaner keeps the frame rectangular, keeps
    the surviving index labels distinct, invents no index label and never
    adds a row. *)
Theorem Cleaner_keeps_shape (df : DataFrame) :
  (rectangular df -> rectangular (Cleaner df)) /\
  (NoDup (index df) -> NoDup (index (Cleaner df))) /\
  (forall i, In i (index (Cleaner df)) -> In i (index df)) /\
  (length (rows (Cleaner df)) <= length (rows df))%nat.
Proof.
  unfold rectangular, index. rewrite Cleaner_rows.
  change (columns (Cleaner df)) with (columns df).
  repeat split.
  - intro H. rewrite Forall_forall in *. intros r Hr.
    apply filter_In in Hr. apply H. tauto.
  - induction (rows df) as [|r l IH]; simpl; intro H; [constructor|].
    inversion H as [|? ? Hn Hl]; subst.
    destruct (complete r); simpl; [|auto].
    constructor; [|auto]. intro Hin. apply Hn.
    apply in_map_iff in Hin. destruct Hin as [r' [E Hr']].
    apply filter_In in Hr'. apply in_map_iff. exists r'. tauto.
  - intros i Hi. apply in_map_iff in Hi. destruct Hi as [r [E Hr]].
    apply filter_In in Hr. apply in_map_iff. exists r. tauto.
  - apply filter_length_le.
Qed.

(** X3 (Cleaner, fixed point): the Cleaner returns the rows it was
    given exactly when none of them holds a null or the sentinel. *)
Theorem Cleaner_fixpoint_iff (df : DataFrame) :
  rows (Cleaner df) = rows df <->
  (forall r c, In r (rows df) -> In c (snd r) -> c <> NaN /\ c <> Str "?").
Proof.
  rewrite Cleaner_rows, filter_all_iff, forallb_forall.
  unfold complete. split.
  - intros H r c Hr Hc. specialize (H r Hr).
    rewrite forallb_forall in H. specialize (H c Hc).
    apply andb_prop in H. destruct H as [Hn Hs].
    split; intro E; subst c; discriminate.
  - intros H r Hr. apply forallb_forall. intros c Hc.
    destruct (H r c Hr Hc) as [Hn Hs].
    destruct c as [|q|s]; simpl; try reflexivity; [congruence|].
    destruct (String.eqb_spec s "?"); [subst; congruence|reflexivity].
Qed.

(** ** get_dummies: one-hot rows *)

Lemma length_insert (x : cell) (l : list cell) :
  length (insert x l) = S (length l).
Proof.
  induction l as [|y l IH]; simpl; [reflexivity|].
  destruct (cell_leb x y); simpl; [reflexivity|]. rewrite IH. reflexivity.
Qed.

Lemma length_sort (l : list cell) : length (sort l) = length l.
Proof.
  induction l as [|x l IH]; simpl; [reflexivity|].
  rewrite length_insert, IH. reflexivity.
Qed.

Lemma ones_indicators (L : list cell) (v : cell) :
  ones (indicators L v) = length (filter (cell_eqb v) L).
Proof.
  unfold ones, indicators. induction L as [|l L IH]; simpl; [reflexivity|].
  destruct (cell_eqb v l); simpl; rewrite IH; reflexivity.
Qed.

Lemma indicators_binary (L : list cell) (v : cell) :
  Forall (fun c => c = Num 0 \/ c = Num 1) (indicators L v).
Proof.
  unfold indicators. apply Forall_forall. intros c Hc.
  apply in_map_iff in Hc. destruct Hc as [l [<- _]].
  destruct (cell_eqb v l); auto.
Qed.

Lemma filter_nil_iff {A : Type} (f : A -> bool) (l : list A) :
  filter f l = [] <-> forall x, In x l -> f x = false.
Proof.
  induction l as [|x l IH]; simpl; [tauto|].
  destruct (f x) eqn:E.
  - split; [discriminate|]. intro H. rewrite (H x (or_introl eq_refl)) in E.
    discriminate.
  - rewrite IH. split; [intros H y [<-|Hy]; auto|auto].
Qed.

(** Among strictly ascending categories at most one equals a given value. *)
Lemma at_most_one_match (L : list cell) (v : cell) :
  StronglySorted cell_lt L -> (length (filter (cell_eqb v) L) <= 1)%nat.
Proof.
  induction 1 as [|a L HL IH Ha]; simpl; [lia|].
  destruct (cell_eqb v a) eqn:E; [|exact IH]. simpl.
  assert (Hnone : filter (cell_eqb v) L = []).
  { apply filter_nil_iff. intros l Hl.
    destruct (cell_eqb v l) eqn:El; [|reflexivity].
    rewrite Forall_forall in Ha. specialize (Ha l Hl).
    apply cell_lt_neq in Ha.
    rewrite cell_eqb_sym in E.
    rewrite (cell_eqb_trans _ _ _ E El) in Ha. discriminate. }
  rewrite Hnone. simpl. lia.
Qed.

Lemma no_match_reference (vals : list cell) (v : cell) :
  In v vals ->
  (filter (cell_eqb v) (tl (categories vals)) = [] <->
   isna v = true \/
   exists ref, hd_error (categories vals) = Some ref /\ cell_eqb v ref = true).
Proof.
  intro Hin. pose proof (categories_sorted vals) as Hs. split.
  - intro H. destruct (isna v) eqn:En; [left; reflexivity|right].
    destruct (categories_complete vals v Hin) as [c [Hc Ec]];
      [unfold notna; rewrite En; reflexivity|].
    destruct (categories vals) as [|ref L]; [destruct Hc|].
    exists ref. split; [reflexivity|]. destruct Hc as [->|Hc]; [exact Ec|].
    simpl in H.
    assert (Hf : In c (filter (cell_eqb v) L)) by (apply filter_In; tauto).
    rewrite H in Hf. destruct Hf.
  - intros [Hn|[ref [Hh Er]]].
    + apply filter_nil_iff.
      intros l _. destruct v; [reflexivity|discriminate|discriminate].
    + destruct (categories vals) as [|r L]; [discriminate|].
      injection Hh as ->. simpl.
      apply filter_nil_iff. intros l Hl.
      destruct (cell_eqb v l) eqn:El; [|reflexivity].
      inversion Hs as [|? ? _ Ha]; subst. rewrite Forall_forall in Ha.
      specialize (Ha l Hl). apply cell_lt_neq in Ha.
      rewrite cell_eqb_sym in Er.
      rewrite (cell_eqb_trans _ _ _ Er El) in Ha. discriminate.
Qed.

(** The indicator frame of a column keeps the
    column's index, has one cell per indicator column in every row, and has
    one indicator column less than the column has distinct non-null values
    (none when it has none). *)
Lemma get_dummies_shape (data : Series) (prefix : string) :
  index (get_dummies data prefix true) = map fst data /\
  rectangular (get_dummies data prefix true) /\
  length (columns (get_dummies data prefix true))
  = pred (length (unique (map snd data))).
Proof.
  unfold get_dummies, index, rectangular. cbn [columns rows].
  split; [rewrite map_map; reflexivity|]. split.
  - apply Forall_forall. intros r Hr. apply in_map_iff in Hr.
    destruct Hr as [iv [<- _]]. cbn [snd].
    unfold indicators. rewrite !length_map. reflexivity.
  - rewrite length_map. unfold categories.
    rewrite <- (length_sort (unique (map snd data))).
    destruct (sort (unique (map snd data))); reflexivity.
Qed.

(** X8 (get_dummies, one-hot): every indicator cell is 0 or 1, no row
    has more than one 1, and a row has no 1 at all exactly when its value is
    null or equals the smallest category, the one left out. *)
Theorem get_dummies_one_hot (data : Series) (prefix : string) :
  Forall2 (fun (iv : nat * cell) (r : row) =>
             fst r = fst iv /\
             Forall (fun c => c = Num 0 \/ c = Num 1) (snd r) /\
             (ones (snd r) <= 1)%nat /\
             (ones (snd r) = 0%nat <->
              isna (snd iv) = true \/
              exists ref, hd_error (categories (map snd data)) = Some ref /\
                          cell_eqb (snd iv) ref = true))
          data (rows (get_dummies data prefix true)).
Proof.
  unfold get_dummies. cbn [rows].
  set (vals := map snd data).
  assert (H : forall iv, In iv data -> In (snd iv) vals)
    by (intros iv Hiv; apply in_map; exact Hiv).
  clearbody vals. induction data as [|iv data IH]; simpl; constructor.
  - cbn [fst snd]. split; [reflexivity|].
    split; [apply indicators_binary|]. rewrite ones_indicators. split.
    + apply at_most_one_match.
      pose proof (categories_sorted vals) as Hs.
      destruct (categories vals); [constructor|]. inversion Hs; assumption.
    + rewrite length_zero_iff_nil. apply no_match_reference.
      apply H. left. reflexivity.
  - apply IH. intros iv' Hiv'. apply H. right. exact Hiv'.
Qed.

Lemma cell_eqb_congr (v w l : cell) :
  cell_eqb v w = true -> cell_eqb v l = cell_eqb w l.
Proof.
  intro E. destruct (cell_eqb w l) eqn:Ew.
  - exact (cell_eqb_trans _ _ _ E Ew).
  - destruct (cell_eqb v l) eqn:Ev; [|reflexivity].
    rewrite cell_eqb_sym in E.
    rewrite (cell_eqb_trans _ _ _ E Ev) in Ew. discriminate.
Qed.

(** X9 (get_dummies, nothing lost): two rows with non-null values get
    the same indicator cells exactly when their values are equal, so leaving
    out the first category loses no information. *)
Theorem get_dummies_injective (data : Series) (prefix : string)
        (a b : nat) (va vb : nat * cell) (ra rb : row) :
  nth_error data a = Some va ->
  nth_error data b = Some vb ->
  notna (snd va) = true ->
  notna (snd vb) = true ->
  nth_error (rows (get_dummies data prefix true)) a = Some ra ->
  nth_error (rows (get_dummies data prefix true)) b = Some rb ->
  (snd ra = snd rb <-> cell_eqb (snd va) (snd vb) = true).
Proof.
  intros Ha Hb Na Nb Hra Hrb. unfold get_dummies in Hra, Hrb.
  cbn [rows] in Hra, Hrb. rewrite nth_error_map in Hra, Hrb.
  rewrite Ha in Hra. rewrite Hb in Hrb. simpl in Hra, Hrb.
  injection Hra as <-. injection Hrb as <-. cbn [snd].
  set (vals := map snd data).
  assert (Ia : In (snd va) vals)
    by (apply in_map; apply nth_error_In with a; exact Ha).
  assert (Ib : In (snd vb) vals)
    by (apply in_map; apply nth_error_In with b; exact Hb).
  set (L := tl (categories vals)).
  split.
  - intro E. unfold indicators in E.
    assert (Hl : forall l, In l L ->
                           cell_eqb (snd va) l = cell_eqb (snd vb) l).
    { intros l Hl. pose proof (proj1 map_ext_in_iff E l Hl) as El.
      cbv beta in El.
      destruct (cell_eqb (snd va) l), (cell_eqb (snd vb) l);
        try reflexivity; discriminate El. }
    destruct (filter (cell_eqb (snd va)) L) as [|l F] eqn:EF.
    + assert (EF' : filter (cell_eqb (snd vb)) L = []).
      { rewrite <- EF. symmetry. apply filter_ext_in. exact Hl. }
      apply (no_match_reference vals _ Ia) in EF.
      apply (no_match_reference vals _ Ib) in EF'.
      unfold notna in Na, Nb. apply negb_true_iff in Na, Nb.
      destruct EF as [EF|[ref [Hr Er]]]; [congruence|].
      destruct EF' as [EF'|[ref' [Hr' Er']]]; [congruence|].
      rewrite Hr in Hr'. injection Hr' as <-.
      rewrite cell_eqb_sym in Er'. exact (cell_eqb_trans _ _ _ Er Er').
    + assert (Hin : In l (filter (cell_eqb (snd va)) L))
        by (rewrite EF; left; reflexivity).
      apply filter_In in Hin. destruct Hin as [Hin El].
      pose proof (Hl l Hin) as Eb. rewrite El in Eb.
      rewrite cell_eqb_sym in Eb. symmetry in Eb.
      exact (cell_eqb_trans _ _ _ El Eb).
  - intro E. unfold indicators. apply map_ext. intro l.
    rewrite (cell_eqb_congr _ _ l E). reflexivity.
Qed.

Lemma get_dummies_injective_witness :
  snd (1%nat, [Num 0; Num 0; Num 1]) = snd (2%nat, [Num 0; Num 0; Num 1])
  <-> cell_eqb (snd (1%nat, Num 4)) (snd (2%nat, Num 4)) = true.
Proof.
  apply (get_dummies_injective
           [(0%nat, Num 1); (1%nat, Num 4); (2%nat, Num 4); (3%nat, Num 3);
            (4%nat, Num 2)] "cp" 1 2 (1%nat, Num 4) (2%nat, Num 4)
           (1%nat, [Num 0; Num 0; Num 1]) (2%nat, [Num 0; Num 0; Num 1])).
  - reflexivity.
  - reflexivity.
  - reflexivity.
  - reflexivity.
  - vm_compute. reflexivity.
  - vm_compute. reflexivity.
Defined.

(** ** Encoder: errors and what it keeps *)

Lemma getitem_missing (df : DataFrame) (key : string) :
  has_column df key = false -> getitem df key = Err (KeyError key).
Proof.
  intro H. apply has_column_index_of in H. unfold getitem. rewrite H.
  reflexivity.
Qed.

Lemma getitem_present (df : DataFrame) (key : string) :
  has_column df key = true -> exists s, getitem df key = Ok s.
Proof.
  intro H. unfold getitem.
  destruct (index_of (Col key) (columns df)) eqn:E; [eexists; reflexivity|].
  apply index_of_none in E. unfold has_column in H. congruence.
Qed.

Lemma drop_present (labels : list string) (df : DataFrame) :
  (forall k, In k labels -> has_column df k = true) ->
  exists out, drop labels df = Ok out.
Proof.
  intro H. unfold drop.
  destruct (find _ labels) as [k|] eqn:E; [|eexists; reflexivity].
  apply find_some in E. destruct E as [Hk E].
  rewrite (H k Hk) in E. discriminate.
Qed.

(** X10 (Encoder, missing column): the Encoder fails with a key error
    naming the first of cp, restecg, slope, thal that is not a column, and,
    when all four are there, naming num when that is not a column. *)
Theorem Encoder_missing_column (df : DataFrame) :
  (has_column df "cp" = false -> Encoder df = Err (KeyError "cp")) /\
  (has_column df "cp" = true -> has_column df "restecg" = false ->
   Encoder df = Err (KeyError "restecg")) /\
  (has_column df "cp" = true -> has_column df "restecg" = true ->
   has_column df "slope" = false -> Encoder df = Err (KeyError "slope")) /\
  (has_column df "cp" = true -> has_column df "restecg" = true ->
   has_column df "slope" = true -> has_column df "thal" = false ->
   Encoder df = Err (KeyError "thal")) /\
  (has_column df "cp" = true -> has_column df "restecg" = true ->
   has_column df "slope" = true -> has_column df "thal" = true ->
   has_column df "num" = false -> Encoder df = Err (KeyError "num")).
Proof.
  unfold Encoder. repeat split.
  - intro H. rewrite (getitem_missing _ _ H). reflexivity.
  - intros H1 H2. destruct (getitem_present _ _ H1) as [s1 ->].
    cbn [bind]. rewrite (getitem_missing _ _ H2). reflexivity.
  - intros H1 H2 H3. destruct (getitem_present _ _ H1) as [s1 ->].
    destruct (getitem_present _ _ H2) as [s2 ->].
    cbn [bind]. rewrite (getitem_missing _ _ H3). reflexivity.
  - intros H1 H2 H3 H4. destruct (getitem_present _ _ H1) as [s1 ->].
    destruct (getitem_present _ _ H2) as [s2 ->].
    destruct (getitem_present _ _ H3) as [s3 ->].
    cbn [bind]. rewrite (getitem_missing _ _ H4). reflexivity.
  - intros H1 H2 H3 H4 H5. destruct (getitem_present _ _ H1) as [s1 ->].
    destruct (getitem_present _ _ H2) as [s2 ->].
    destruct (getitem_present _ _ H3) as [s3 ->].
    destruct (getitem_present _ _ H4) as [s4 ->].
    cbn [bind].
    set (C := concat _).
    assert (HC : forall k, has_column C k = has_column df k).
    { intro k. unfold C, concat, has_column, get_dummies.
      cbn [fold_left columns].
      rewrite !existsb_app, !existsb_dummies, !orb_false_r. reflexivity. }
    destruct (drop_present ["cp"; "restecg"; "slope"; "thal"] C) as [d Hd].
    { intros k Hk. rewrite HC. simpl in Hk.
      destruct Hk as [<-|[<-|[<-|[<-|[]]]]]; assumption. }
    rewrite Hd. cbn [bind].
    rewrite (getitem_missing d "num"); [reflexivity|].
    apply (drop_keeps_absent _ _ _ _ Hd). rewrite HC. exact H5.
Qed.

(** X11 (Encoder, text in num): on the loader's columns, when some cell
    of num is a string (the column was read as text), the Encoder fails with
    a type error. *)
Theorem Encoder_text_num (df : DataFrame) (r : row) (s : string) :
  columns df = map Col names ->
  rectangular df ->
  In r (rows df) ->
  nth 13 (snd r) NaN = Str s ->
  Encoder df = Err TypeError.
Proof.
  intros Hcols Hrect Hr Hs.
  destruct (Encoder_until_target df Hcols Hrect) as [k ->].
  unfold apply. rewrite (mapM_first_error _ _ TypeError); [reflexivity| |].
  - intros iv _. destruct (snd iv) as [|q|t]; simpl; eauto.
  - exists (fst r, nth 13 (snd r) NaN). split.
    + apply in_map_iff. exists r. auto.
    + cbn [snd]. rewrite Hs. reflexivity.
Qed.

Lemma Encoder_text_num_witness :
  Encoder (mkDF (map Col names)
             [record 0 63 1 1 145 233 1 2 150 0 2.3 3 "0.0" "6.0" 0;
              (1%nat, [Num 67; Num 1; Num 4; Num 160; Num 286; Num 0; Num 2;
                       Num 108; Num 1; Num 1.5; Num 2; Str "3.0"; Str "3.0";
                       Str "2"])])
  = Err TypeError.
Proof.
  apply (Encoder_text_num _
           (1%nat, [Num 67; Num 1; Num 4; Num 160; Num 286; Num 0; Num 2;
                    Num 108; Num 1; Num 1.5; Num 2; Str "3.0"; Str "3.0";
                    Str "2"]) "2").
  - reflexivity.
  - repeat constructor.
  - right. left. reflexivity.
  - reflexivity.
Defined.

Lemma In_nth_row (r : row) (p : nat) :
  (p < length (snd r))%nat -> In (nth p (snd r) NaN) (snd r).
Proof. apply nth_In. Qed.

(** X12 (Encoder, rows kept): on the loader's columns with a numeric num
    the Encoder returns a rectangular frame with the same index labels in
    the same order: no row is added, dropped or moved. *)
Theorem Encoder_keeps_rows (df : DataFrame) :
  columns df = map Col names ->
  rectangular df ->
  (forall r, In r (rows df) -> exists q, nth 13 (snd r) NaN = Num q) ->
  exists out : DataFrame,
    Encoder df = Ok out /\
    index out = index df /\
    rectangular out.
Proof.
  intros Hcols Hrect Hnum.
  exists (mkDF (encoded_columns df) (map (encoded_row df) (rows df))).
  split; [apply Encoder_closed_form; assumption|].
  unfold index, rectangular. cbn [rows columns]. split.
  - rewrite map_map. apply map_ext. intro r. rewrite encoded_row_front.
    reflexivity.
  - apply Forall_forall. intros r' Hr'. apply in_map_iff in Hr'.
    destruct Hr' as [r [<- _]].
    rewrite encoded_row_front, encoded_columns_front. cbn [snd].
    rewrite !length_app, length_front. reflexivity.
Qed.

Lemma Encoder_keeps_rows_witness :
  exists out : DataFrame,
    Encoder cleveland5 = Ok out /\
    index out = index cleveland5 /\
    rectangular out.
Proof.
  apply (Encoder_keeps_rows cleveland5).
  - reflexivity.
  - repeat constructor.
  - intros r Hr. simpl in Hr.
    destruct Hr as [<-|[<-|[<-|[<-|[<-|[]]]]]]; eexists; reflexivity.
Defined.

(** X13 (Encoder, no null added): on a cleaned frame with the loader's
    columns and a numeric num, no cell of the Encoder's output is null. *)
Theorem Encoder_no_null (df : DataFrame) :
  columns df = map Col names ->
  rectangular df ->
  (forall r c, In r (rows df) -> In c (snd r) -> c <> NaN) ->
  (forall r, In r (rows df) -> exists q, nth 13 (snd r) NaN = Num q) ->
  exists out : DataFrame,
    Encoder df = Ok out /\
    forall r c, In r (rows out) -> In c (snd r) -> c <> NaN.
Proof.
  intros Hcols Hrect Hclean Hnum.
  exists (mkDF (encoded_columns df) (map (encoded_row df) (rows df))).
  split; [apply Encoder_closed_form; assumption|].
  cbn [rows]. intros r' c Hr' Hc. apply in_map_iff in Hr'.
  destruct Hr' as [r [<- Hr]].
  assert (H14 : length (snd r) = 14%nat).
  { unfold rectangular in Hrect. rewrite Forall_forall in Hrect.
    rewrite (Hrect r Hr), Hcols. reflexivity. }
  unfold encoded_row in Hc. cbn [snd] in Hc.
  assert (Hind : forall L v, In c (indicators L v) -> c <> NaN).
  { intros L v Hin. unfold indicators in Hin. apply in_map_iff in Hin.
    destruct Hin as [l [<- _]]. discriminate. }
  repeat (apply in_app_or in Hc; destruct Hc as [Hc|Hc]);
    try (eapply Hind; exact Hc).
  - apply in_map_iff in Hc. destruct Hc as [p [<- Hp]].
    apply (Hclean r _ Hr). apply In_nth_row. rewrite H14.
    simpl in Hp. repeat (destruct Hp as [<-|Hp]; [lia|]). destruct Hp.
  - destruct Hc as [<-|[]].
    destruct (nth 13 (snd r) NaN); simpl; discriminate.
Qed.

Lemma Encoder_no_null_witness :
  exists out : DataFrame,
    Encoder cleveland5 = Ok out /\
    forall r c, In r (rows out) -> In c (snd r) -> c <> NaN.
Proof.
  apply (Encoder_no_null cleveland5).
  - reflexivity.
  - repeat constructor.
  - intros r c Hr Hc. simpl in Hr.
    destruct Hr as [<-|[<-|[<-|[<-|[<-|[]]]]]]; simpl in Hc;
      repeat (destruct Hc as [<-|Hc]; [discriminate|]); destruct Hc.
  - intros r Hr. simpl in Hr.
    destruct Hr as [<-|[<-|[<-|[<-|[<-|[]]]]]]; eexists; reflexivity.
Defined.

(** X14 (Encoder, features untouched): on the loader's columns with a
    numeric num each of the nine columns that are neither categorical nor
    num comes out of the Encoder with the values it went in with. *)
Theorem Encoder_features_unchanged (df : DataFrame) :
  columns df = map Col names ->
  rectangular df ->
  (forall r, In r (rows df) -> exists q, nth 13 (snd r) NaN = Num q) ->
  exists out : DataFrame,
    Encoder df = Ok out /\
    forall k, In k feature_names -> getitem out k = getitem df k.
Proof.
  intros Hcols Hrect Hnum.
  exists (mkDF (encoded_columns df) (map (encoded_row df) (rows df))).
  split; [apply Encoder_closed_form; assumption|].
  assert (H14 : forall r, In r (rows df) -> length (snd r) = 14%nat).
  { intros r Hr. unfold rectangular in Hrect.
    rewrite Forall_forall in Hrect. rewrite (Hrect r Hr), Hcols. reflexivity. }
  assert (Hget : forall k p p',
             (p' < 9)%nat ->
             index_of (Col k) (map Col feature_names) = Some p' ->
             index_of (Col k) (map Col names) = Some p ->
             (forall cells, length cells = 14%nat ->
                nth p' (map (fun i => nth i cells NaN)
                            [0; 1; 3; 4; 5; 7; 8; 9; 11]%nat) NaN
                = nth p cells NaN) ->
             getitem (mkDF (encoded_columns df)
                           (map (encoded_row df) (rows df))) k
             = getitem df k).
  { intros k p p' Hp H1 H2 H3.
    rewrite (getitem_at _ k p')
      by (cbn [columns]; unfold encoded_columns;
          apply index_of_app_l; exact H1).
    rewrite (getitem_at df k p) by (rewrite Hcols; exact H2).
    cbn [rows]. rewrite map_map. f_equal. apply map_ext_in. intros r Hr.
    unfold encoded_row. cbn [fst snd]. f_equal.
    rewrite app_nth1 by (rewrite length_map; exact Hp).
    apply H3. apply H14. exact Hr. }
  intros k Hk. simpl in Hk.
  destruct Hk as [<-|[<-|[<-|[<-|[<-|[<-|[<-|[<-|[<-|[]]]]]]]]]].
  - apply (Hget _ 0%nat 0%nat); try reflexivity; lia.
  - apply (Hget _ 1%nat 1%nat); try reflexivity; lia.
  - apply (Hget _ 3%nat 2%nat); try reflexivity; lia.
  - apply (Hget _ 4%nat 3%nat); try reflexivity; lia.
  - apply (Hget _ 5%nat 4%nat); try reflexivity; lia.
  - apply (Hget _ 7%nat 5%nat); try reflexivity; lia.
  - apply (Hget _ 8%nat 6%nat); try reflexivity; lia.
  - apply (Hget _ 9%nat 7%nat); try reflexivity; lia.
  - apply (Hget _ 11%nat 8%nat); try reflexivity; lia.
Qed.

Lemma Encoder_features_unchanged_witness :
  exists out : DataFrame,
    Encoder cleveland5 = Ok out /\
    forall k, In k feature_names -> getitem out k = getitem cleveland5 k.
Proof.
  apply (Encoder_features_unchanged cleveland5).
  - reflexivity.
  - repeat constructor.
  - intros r Hr. simpl in Hr.
    destruct Hr as [<-|[<-|[<-|[<-|[<-|[]]]]]]; eexists; reflexivity.
Defined.

(** ** Features and target (lines 40-41) *)

Lemma existsb_pointwise {A : Type} (f g : A -> bool) (l : list A) :
  (forall x, f x = g x) -> existsb f l = existsb g l.
Proof.
  intro H. induction l as [|x l IH]; simpl; [reflexivity|].
  rewrite H, IH. reflexivity.
Qed.

Lemma features_no_target (heart_data X : DataFrame) (y : Series) :
  features_target heart_data = Ok (X, y) -> has_column X "target" = false.
Proof.
  unfold features_target. intro H.
  destruct (drop ["target"] heart_data) as [X'|e] eqn:Hd; [|discriminate].
  cbn [bind] in H. destruct (getitem heart_data "target"); [|discriminate].
  injection H as -> _.
  apply (drop_removes _ _ _ _ Hd). left. reflexivity.
Qed.

(** Which column labels [drop('target')] keeps. *)
Lemma keep_not_target (c : label) :
  negb (existsb (fun k => label_eqb c (Col k)) ["target"])
  = negb (label_eqb c (Col "target")).
Proof. simpl. rewrite orb_false_r. reflexivity. Qed.

Lemma select_map_filter {A : Type} (f : A -> bool) (l : list A) :
  select (map f l) l = filter f l.
Proof.
  induction l as [|x l IH]; simpl; [reflexivity|].
  destruct (f x); rewrite IH; reflexivity.
Qed.

(** A label that is kept stays a label of the kept columns, and under it
    every row keeps the cell it had. *)
Lemma select_keeps_cell (f : label -> bool) (l : label) (cols : list label) :
  forall p : nat,
    index_of l cols = Some p ->
    (forall c, label_eqb c l = true -> f c = true) ->
    exists p' : nat,
      index_of l (filter f cols) = Some p' /\
      forall cells : list cell,
        nth p' (select (map f cols) cells) NaN = nth p cells NaN.
Proof.
  induction cols as [|c cols IH]; intros p Hp Hf; [discriminate|].
  cbn [index_of] in Hp. destruct (label_eqb c l) eqn:Ec.
  - injection Hp as <-. exists 0%nat. cbn [filter map].
    rewrite (Hf c Ec). cbn [index_of]. rewrite Ec.
    split; [reflexivity|]. intros [|x cells]; reflexivity.
  - destruct (index_of l cols) as [q|] eqn:Eq; [|discriminate].
    injection Hp as <-. destruct (IH q eq_refl Hf) as (p' & Hp' & Hcells).
    cbn [filter map]. destruct (f c) eqn:Efc.
    + exists (S p'). cbn [index_of]. rewrite Ec, Hp'.
      split; [reflexivity|].
      intros [|x cells]; [reflexivity|]. cbn [select nth]. apply Hcells.
    + exists p'. split; [exact Hp'|].
      intros [|x cells]; cbn [select nth];
        [destruct p'; reflexivity|apply Hcells].
Qed.

(** X15 (features and target): separating the target fails with a key
    error when there is no target column; otherwise the columns of the
    feature frame are the columns of the frame without the target column,
    indicator columns included, in the order they had; under each of
    these labels the feature frame holds the values the frame held; the
    target Series is the frame's target column; and both keep the frame's
    index. *)
Theorem features_target_spec (heart_data : DataFrame) :
  (has_column heart_data "target" = false ->
   features_target heart_data = Err (KeyError "target")) /\
  (forall X y,
      features_target heart_data = Ok (X, y) ->
      columns X
      = filter (fun c => negb (label_eqb c (Col "target")))
               (columns heart_data) /\
      has_column X "target" = false /\
      (forall k, String.eqb k "target" = false ->
                 has_column X k = has_column heart_data k) /\
      (forall (l : label) (p : nat),
          label_eqb l (Col "target") = false ->
          index_of l (columns heart_data) = Some p ->
          exists p' : nat,
            index_of l (columns X) = Some p' /\
            values_at X p' = values_at heart_data p) /\
      index X = index heart_data /\
      getitem heart_data "target" = Ok y /\
      map fst y = index heart_data).
Proof.
  unfold features_target. split.
  - intro H. unfold drop. cbn [find]. rewrite H. reflexivity.
  - intros X y H.
    destruct (drop ["target"] heart_data) as [X'|e] eqn:Hd; [|discriminate].
    cbn [bind] in H.
    destruct (getitem heart_data "target") as [y'|e] eqn:Hy; [|discriminate].
    cbn [bind] in H. injection H as -> ->.
    assert (Hno : has_column X "target" = false)
      by (apply (drop_removes _ _ _ _ Hd); left; reflexivity).
    unfold drop in Hd. destruct (find _ _); [discriminate|].
    injection Hd as <-. unfold getitem in Hy.
    destruct (index_of _ _) as [pt|]; [|discriminate]. injection Hy as <-.
    split.
    { cbn [columns]. rewrite select_map_filter. apply filter_ext.
      exact keep_not_target. }
    split; [exact Hno|]. split.
    { intros k Hk. unfold has_column. cbn [columns].
      rewrite existsb_select. apply existsb_pointwise. intro c.
      simpl. rewrite orb_false_r.
      destruct c as [s|p' v]; simpl; [|reflexivity].
      destruct (String.eqb_spec s k); [|rewrite andb_false_r; reflexivity].
      subst s. rewrite Hk. reflexivity. }
    split.
    { intros l p Hl Hp.
      destruct (select_keeps_cell
                  (fun c => negb (existsb (fun k => label_eqb c (Col k))
                                          ["target"]))
                  l (columns heart_data) p Hp) as (p' & Hp' & Hcells).
      { intros c Hc. rewrite keep_not_target.
        destruct c as [s|q v], l as [t|q' v']; simpl in *;
          try discriminate; try reflexivity.
        apply String.eqb_eq in Hc. subst t. rewrite Hl. reflexivity. }
      exists p'. split.
      - cbn [columns]. rewrite select_map_filter. exact Hp'.
      - unfold values_at. cbn [rows]. rewrite map_map. apply map_ext.
        intro r. cbn [snd]. apply Hcells. }
    unfold index. cbn [rows]. rewrite !map_map.
    repeat split; reflexivity.
Qed.

(** ** Splitter: any number of rows *)

Lemma n_test_spec (n : nat) :
  let n_test := Z.to_nat (Qceiling ((2 # 10) * inject_Z (Z.of_nat n))) in
  (n <= 5 * n_test)%nat /\ (5 * n_test < n + 5)%nat.
Proof.
  unfold Qceiling, Qfloor, Qmult, Qopp, inject_Z. cbn [Qnum Qden].
  change (Z.pos (10 * 1)) with 10%Z.
  assert (Hd := Z.div_mod (- (2 * Z.of_nat n)) 10 ltac:(lia)).
  assert (Hm := Z.mod_pos_bound (- (2 * Z.of_nat n)) 10 ltac:(lia)).
  cbv zeta. lia.
Qed.

Section SplitterFurther.

Context {R : RandomState}.

Lemma features_target_at (heart_data : DataFrame) (p : nat) :
  index_of (Col "target") (columns heart_data) = Some p ->
  let mask :=
    map (fun c => negb (existsb (fun k => label_eqb c (Col k)) ["target"]))
        (columns heart_data) in
  features_target heart_data
  = Ok (mkDF (select mask (columns heart_data))
             (map (fun r : row => (fst r, select mask (snd r)))
                  (rows heart_data)),
        map (fun r : row => (fst r, nth p (snd r) NaN)) (rows heart_data)).
Proof.
  intros Hp mask.
  assert (Ht : has_column heart_data "target" = true).
  { unfold has_column. destruct (existsb _ _) eqn:E; [reflexivity|].
    apply index_of_none in E. congruence. }
  unfold features_target, drop. cbn [find]. rewrite Ht. cbn [negb bind].
  rewrite (getitem_at _ _ p Hp). reflexivity.
Qed.

(** The split in terms of the rows it selects from the encoded frame:
    one list of rows gives the train features and the train targets, one
    the test features and the test targets. *)
Lemma Splitter_rows (heart_data : DataFrame) (global : rng) (p : nat) :
  lawful R ->
  index_of (Col "target") (columns heart_data) = Some p ->
  (2 <= length (rows heart_data))%nat ->
  let mask :=
    map (fun c => negb (existsb (fun k => label_eqb c (Col k)) ["target"]))
        (columns heart_data) in
  let fX := fun r : row => (fst r, select mask (snd r)) in
  let fy := fun r : row => (fst r, nth p (snd r) NaN) in
  exists train_rows test_rows : list row,
    features_target heart_data
    = Ok (mkDF (select mask (columns heart_data))
               (map fX (rows heart_data)),
          map fy (rows heart_data)) /\
    Permutation (train_rows ++ test_rows) (rows heart_data) /\
    length test_rows
    = Z.to_nat (Qceiling ((2 # 10)
                * inject_Z (Z.of_nat (length (rows heart_data))))) /\
    Splitter heart_data global
    = (Ok (mkDF (select mask (columns heart_data)) (map fX train_rows),
           mkDF (select mask (columns heart_data)) (map fX test_rows),
           map fy train_rows,
           map fy test_rows),
       global).
Proof.
  intros HL Hp Hn mask fX fy.
  pose proof (features_target_at heart_data p Hp) as Hft. cbv zeta in Hft.
  fold mask in Hft. fold fX in Hft. fold fy in Hft.
  set (X := mkDF (select mask (columns heart_data)) (map fX (rows heart_data)))
    in *.
  set (n_test := Z.to_nat (Qceiling ((2 # 10)
                   * inject_Z (Z.of_nat (length (rows heart_data)))))).
  destruct (train_test_split_ok X (map fy (rows heart_data)) 42 global n_test
              HL)
    as (train & test & X_train & X_test & y_train & y_test
        & Hs & HP & Ltest & Ltrain & H1 & H2 & H3 & H4).
  { unfold X. cbn [rows]. rewrite !length_map. reflexivity. }
  { unfold X. cbn [rows]. rewrite length_map. reflexivity. }
  { unfold X. cbn [rows]. rewrite length_map. apply n_test_lt. exact Hn. }
  unfold X in H1, H2, HP, Ltest. cbn [rows] in H1, H2, HP, Ltest.
  rewrite length_map in HP.
  destruct (iloc_functional fX _ _ _ H1) as [s1 [S1 ->]].
  destruct (iloc_functional fX _ _ _ H2) as [s2 [S2 ->]].
  destruct (iloc_functional fy _ _ _ H3) as [s3 [S3 ->]].
  destruct (iloc_functional fy _ _ _ H4) as [s4 [S4 ->]].
  assert (s3 = s1) by congruence. assert (s4 = s2) by congruence. subst s3 s4.
  exists s1, s2.
  split; [exact Hft|].
  split; [apply (iloc_partition _ train test); assumption|].
  split; [rewrite (iloc_length _ _ _ S2); exact Ltest|].
  unfold Splitter. rewrite Hft. exact Hs.
Qed.

Lemma Splitter_selects (heart_data : DataFrame) (global : rng) (p : nat) :
  lawful R ->
  index_of (Col "target") (columns heart_data) = Some p ->
  (2 <= length (rows heart_data))%nat ->
  exists (X : DataFrame) (fX : row -> row) (train_rows test_rows : list row),
    features_target heart_data
    = Ok (X, map (fun r : row => (fst r, nth p (snd r) NaN))
                 (rows heart_data)) /\
    (forall r, fst (fX r) = fst r) /\
    Permutation (train_rows ++ test_rows) (rows heart_data) /\
    length test_rows
    = Z.to_nat (Qceiling ((2 # 10)
                * inject_Z (Z.of_nat (length (rows heart_data))))) /\
    Splitter heart_data global
    = (Ok (mkDF (columns X) (map fX train_rows),
           mkDF (columns X) (map fX test_rows),
           map (fun r : row => (fst r, nth p (snd r) NaN)) train_rows,
           map (fun r : row => (fst r, nth p (snd r) NaN)) test_rows),
       global).
Proof.
  intros HL Hp Hn.
  destruct (Splitter_rows heart_data global p HL Hp Hn)
    as (s1 & s2 & Hft & HP & L2 & Hs).
  eexists _, (fun r : row => (fst r, select _ (snd r))), s1, s2.
  split; [exact Hft|].
  split; [reflexivity|]. split; [exact HP|]. split; [exact L2|]. exact Hs.
Qed.

(** X16 (Splitter, too few rows): an encoded frame with fewer than two
    rows cannot be split: the train partition would be empty, which is a
    value error; the ambient generator is left as it was. *)
Theorem Splitter_too_few_rows (heart_data : DataFrame) (global : rng) :
  has_column heart_data "target" = true ->
  (length (rows heart_data) < 2)%nat ->
  Splitter heart_data global = (Err ValueError, global).
Proof.
  intros Ht Hn.
  destruct (features_target_ok heart_data Ht) as [mask [p Hft]].
  unfold Splitter. rewrite Hft. unfold train_test_split. cbn [rows].
  rewrite !length_map, Nat.eqb_refl. cbn [negb].
  change (Qle_bool (2 # 10) 0 || Qle_bool 1 (2 # 10)) with false.
  cbv iota.
  destruct (length (rows heart_data)) as [|[|n]]; [reflexivity|reflexivity|lia].
Qed.

(** X17 (Splitter, sizes and partition): an encoded frame with a target
    column and [n >= 2] rows is split into a test partition of [ceil(n/5)]
    rows and a train partition of the remaining rows, which is not empty;
    the index labels of the two partitions together are a rearrangement of
    the frame's index labels, and the ambient generator is left as it was. *)
Theorem Splitter_partition (heart_data : DataFrame) (global : rng) :
  lawful R ->
  has_column heart_data "target" = true ->
  (2 <= length (rows heart_data))%nat ->
  exists (X_train X_test : DataFrame) (y_train y_test : Series),
    Splitter heart_data global
    = (Ok (X_train, X_test, y_train, y_test), global) /\
    (length (rows X_train) + length (rows X_test)
     = length (rows heart_data))%nat /\
    (length (rows heart_data) <= 5 * length (rows X_test))%nat /\
    (5 * length (rows X_test) < length (rows heart_data) + 5)%nat /\
    (1 <= length (rows X_train))%nat /\
    length y_train = length (rows X_train) /\
    length y_test = length (rows X_test) /\
    Permutation (index X_train ++ index X_test) (index heart_data).
Proof.
  intros HL Ht Hn.
  destruct (index_of (Col "target") (columns heart_data)) as [p|] eqn:Hp.
  2: { apply index_of_none in Hp. unfold has_column in Ht. congruence. }
  destruct (Splitter_selects heart_data global p HL Hp Hn)
    as (X & fX & s1 & s2 & _ & HfX & HP & L2 & Hs).
  eexists _, _, _, _. split; [exact Hs|].
  unfold index. cbn [rows]. rewrite !length_map.
  pose proof (Permutation_length HP) as HL'. rewrite length_app in HL'.
  pose proof (n_test_spec (length (rows heart_data))) as [B1 B2].
  pose proof (n_test_lt _ Hn) as B3.
  rewrite <- L2 in B1, B2, B3.
  repeat split; try lia.
  rewrite !map_map, <- map_app.
  rewrite (map_ext (fun r => fst (fX r)) fst HfX).
  apply Permutation_map. exact HP.
Qed.

Lemma filter_not_target (cols : list label) :
  existsb (fun c => label_eqb c (Col "target"))
          (filter (fun c => negb (label_eqb c (Col "target"))) cols)
  = false.
Proof.
  induction cols as [|c cols IH]; [reflexivity|]. cbn [filter].
  destruct (label_eqb c (Col "target")) eqn:E; cbn [negb]; [exact IH|].
  cbn [existsb]. rewrite E. exact IH.
Qed.

(** X18 (Splitter, features stay with their target): the rows of the
    encoded frame are rearranged into train rows and test rows; the k-th
    row of the train features is the k-th train row without its target
    cell, under that row's index label, and the k-th train target is the
    target cell of the same row, under the same label; likewise for the
    test partition; the target column is not among the feature columns. *)
Theorem Splitter_pairs_rows (heart_data : DataFrame) (global : rng) (p : nat) :
  lawful R ->
  index_of (Col "target") (columns heart_data) = Some p ->
  (2 <= length (rows heart_data))%nat ->
  let keep := fun c : label => negb (label_eqb c (Col "target")) in
  let features := fun r : row =>
    (fst r, select (map keep (columns heart_data)) (snd r)) in
  let target := fun r : row => (fst r, nth p (snd r) NaN) in
  exists (train_rows test_rows : list row)
         (X_train X_test : DataFrame) (y_train y_test : Series),
    Splitter heart_data global
    = (Ok (X_train, X_test, y_train, y_test), global) /\
    Permutation (train_rows ++ test_rows) (rows heart_data) /\
    X_train = mkDF (filter keep (columns heart_data))
                   (map features train_rows) /\
    y_train = map target train_rows /\
    X_test = mkDF (filter keep (columns heart_data))
                  (map features test_rows) /\
    y_test = map target test_rows /\
    has_column X_train "target" = false /\
    has_column X_test "target" = false.
Proof.
  intros HL Hp Hn keep features target.
  destruct (Splitter_rows heart_data global p HL Hp Hn)
    as (s1 & s2 & Hft & HP & _ & Hs).
  assert (HX : has_column
                 (mkDF (filter keep (columns heart_data))
                       (map features (rows heart_data))) "target" = false).
  { unfold has_column. cbn [columns]. apply filter_not_target. }
  assert (Em : map (fun c => negb (existsb (fun k => label_eqb c (Col k))
                                           ["target"]))
                   (columns heart_data)
               = map keep (columns heart_data))
    by (apply map_ext; exact keep_not_target).
  rewrite Em in Hs. rewrite select_map_filter in Hs.
  exists s1, s2. eexists _, _, _, _. split; [exact Hs|].
  split; [exact HP|].
  repeat split; exact HX.
Qed.

End SplitterFurther.

Lemma Splitter_too_few_rows_witness :
  Splitter (R := rotating)
           (mkDF [Col "age"; Col "target"] [(0%nat, [Num 63; Num 0])]) 7%Z
  = (Err ValueError, 7%Z).
Proof.
  apply (Splitter_too_few_rows (R := rotating)).
  - reflexivity.
  - simpl. lia.
Defined.

Lemma Splitter_partition_witness :
  exists (X_train X_test : DataFrame) (y_train y_test : Series),
    Splitter (R := rotating) encoded5 7%Z
    = (Ok (X_train, X_test, y_train, y_test), 7%Z) /\
    (length (rows X_train) + length (rows X_test)
     = length (rows encoded5))%nat /\
    (length (rows encoded5) <= 5 * length (rows X_test))%nat /\
    (5 * length (rows X_test) < length (rows encoded5) + 5)%nat /\
    (1 <= length (rows X_train))%nat /\
    length y_train = length (rows X_train) /\
    length y_test = length (rows X_test) /\
    Permutation (index X_train ++ index X_test) (index encoded5).
Proof.
  apply (Splitter_partition (R := rotating) encoded5 7%Z).
  - exact rotating_lawful.
  - reflexivity.
  - simpl. lia.
Defined.

Lemma Splitter_pairs_rows_witness :
  let keep := fun c : label => negb (label_eqb c (Col "target")) in
  let features := fun r : row =>
    (fst r, select (map keep (columns encoded5)) (snd r)) in
  let target := fun r : row => (fst r, nth 17 (snd r) NaN) in
  exists (train_rows test_rows : list row)
         (X_train X_test : DataFrame) (y_train y_test : Series),
    Splitter (R := rotating) encoded5 7%Z
    = (Ok (X_train, X_test, y_train, y_test), 7%Z) /\
    Permutation (train_rows ++ test_rows) (rows encoded5) /\
    X_train = mkDF (filter keep (columns encoded5))
                   (map features train_rows) /\
    y_train = map target train_rows /\
    X_test = mkDF (filter keep (columns encoded5))
                  (map features test_rows) /\
    y_test = map target test_rows /\
    has_column X_train "target" = false /\
    has_column X_test "target" = false.
Proof.
  apply (Splitter_pairs_rows (R := rotating) encoded5 7%Z 17).
  - exact rotating_lawful.
  - reflexivity.
  - simpl. lia.
Defined.

(** ** Scaler: statistics of the scaled train partition *)









Section ScalerFurther.

Context {F : Float64}.




(** The scaled partitions have the row counts and
    the width of the partitions that went in. *)
Lemma Scaler_keeps_shape (X_train X_test : matrix) (d : nat) :
  X_train <> [] ->
  X_test <> [] ->
  (0 < d)%nat ->
  Forall (fun r => length r = d) X_train ->
  Forall (fun r => length r = d) X_test ->
  exists X_train_scaled X_test_scaled : matrix,
    Scaler X_train X_test = Ok (X_train_scaled, X_test_scaled) /\
    length X_train_scaled = length X_train /\
    length X_test_scaled = length X_test /\
    Forall (fun r => length r = d) X_train_scaled /\
    Forall (fun r => length r = d) X_test_scaled.
Proof.
  intros Hne Hte Hd HX HT.
  destruct (Scaler_columns X_train X_test d Hne Hte Hd HX HT)
    as (scaler & Xs & Ts & _ & HS & L1 & L2 & W1 & W2 & _).
  exists Xs, Ts. auto.
Qed.

(** X21 (Scaler, when it fails): the Scaler stage returns scaled
    partitions exactly when the train partition has a first row of positive
    width, every train and test row has that width, and the test partition
    is not empty; every failure is a value error. *)
Theorem Scaler_ok_iff (X_train X_test : matrix) :
  ((exists out, Scaler X_train X_test = Ok out) <->
   exists r X', X_train = r :: X' /\
                (0 < length r)%nat /\
                Forall (fun r' => length r' = length r) X_train /\
                X_test <> [] /\
                Forall (fun r' => length r' = length r) X_test) /\
  (forall e, Scaler X_train X_test = Err e -> e = ValueError).
Proof.
  split; [split|].
  - intros [out H]. unfold Scaler, fit_transform, fit in H.
    destruct X_train as [|r X']; [discriminate|].
    destruct (length r =? 0)%nat eqn:E0; [discriminate|].
    cbn [bind] in H. apply Nat.eqb_neq in E0.
    set (scaler := mkScaler _ _ _) in H.
    assert (Hm : length (mean_ scaler) = length r)
      by (unfold scaler; cbn [mean_]; rewrite !length_map; apply length_seq).
    unfold transform in H.
    destruct (forallb _ (r :: X')) eqn:E1; [|discriminate].
    cbn [bind fst snd] in H.
    destruct X_test as [|t T']; [discriminate|].
    destruct (forallb _ (t :: T')) eqn:E2; [|discriminate].
    exists r, X'. split; [reflexivity|]. split; [lia|].
    rewrite forallb_forall in E1, E2.
    split; [|split; [discriminate|]]; apply Forall_forall; intros r' Hr';
      rewrite <- Hm; apply Nat.eqb_eq; auto.
  - intros (r & X' & -> & Hd & HX & Hte & HT).
    destruct (Scaler_columns (r :: X') X_test (length r)
                ltac:(discriminate) Hte Hd HX HT)
      as (scaler & Xs & Ts & _ & HS & _).
    eexists. exact HS.
  - intros e H. unfold Scaler, fit_transform, fit, transform in H.
    destruct X_train as [|r X']; [injection H as <-; reflexivity|].
    destruct (length r =? 0)%nat; [injection H as <-; reflexivity|].
    cbn [bind] in H.
    destruct (forallb _ (r :: X')); cbn [bind fst snd] in H;
      [|injection H as <-; reflexivity].
    destruct X_test as [|t T']; [injection H as <-; reflexivity|].
    destruct (forallb _ (t :: T')); cbn [bind] in H;
      [discriminate|injection H as <-; reflexivity].
Qed.

(** X22 (Scaler, test rows one by one): the statistics come from the
    train partition alone, so scaling two test partitions together gives
    the scaled rows of the one followed by the scaled rows of the other. *)
Theorem Scaler_test_rowwise (X_train T1 T2 A1 A2 B1 B2 : matrix) :
  Scaler X_train T1 = Ok (A1, B1) ->
  Scaler X_train T2 = Ok (A2, B2) ->
  Scaler X_train (T1 ++ T2) = Ok (A1, B1 ++ B2) /\ A1 = A2.
Proof.
  unfold Scaler. destruct (fit_transform X_train) as [[sc A]|e];
    [|discriminate]. cbn [bind fst snd]. unfold transform.
  intros H1 H2.
  destruct T1 as [|t1 T1']; [discriminate|].
  destruct T2 as [|t2 T2']; [discriminate|].
  destruct (forallb _ (t1 :: T1')) eqn:E1; [|discriminate].
  destruct (forallb _ (t2 :: T2')) eqn:E2; [|discriminate].
  cbn [bind] in H1, H2. injection H1 as <- <-. injection H2 as <- <-.
  change ((t1 :: T1') ++ t2 :: T2') with (t1 :: (T1' ++ t2 :: T2')).
  cbv iota.
  change (t1 :: (T1' ++ t2 :: T2')) with ((t1 :: T1') ++ t2 :: T2').
  rewrite forallb_app, E1, E2. cbn [andb bind]. rewrite map_app.
  split; reflexivity.
Qed.

End ScalerFurther.



Lemma Scaler_test_rowwise_witness :
  exists A1 B1 B2 : matrix,
    Scaler (F := exact_arith sqrt_fixed)
           [[60; 1]; [64; 1]] ([[66; 0]] ++ [[62; 1]])
    = Ok (A1, B1 ++ B2) /\ A1 = A1.
Proof.
  destruct (Scaler (F := exact_arith sqrt_fixed) [[60; 1]; [64; 1]] [[66; 0]])
    as [[A1 B1]|e] eqn:E1; [|vm_compute in E1; discriminate E1].
  destruct (Scaler (F := exact_arith sqrt_fixed) [[60; 1]; [64; 1]] [[62; 1]])
    as [[A2 B2]|e] eqn:E2; [|vm_compute in E2; discriminate E2].
  exists A1, B1, B2.
  destruct (Scaler_test_rowwise (F := exact_arith sqrt_fixed)
              _ _ _ _ _ _ _ E1 E2) as [H _].
  split; [exact H|reflexivity].
Defined.

(** ** Evaluator: accuracy and the confusion matrix *)

Lemma agreements_le (y_true y_pred : list Z) :
  (length (filter (fun p : Z * Z => Z.eqb (fst p) (snd p))
                  (combine y_true y_pred)) <= length y_true)%nat.
Proof.
  eapply Nat.le_trans; [apply filter_length_le|].
  rewrite length_combine. apply Nat.le_min_l.
Qed.

Lemma inject_nat_pos (n : nat) : (0 < n)%nat -> 0 < inject_Z (Z.of_nat n).
Proof. intro H. unfold Qlt, inject_Z. simpl. lia. Qed.

(** On a non-empty list of true labels and as many predictions the
    accuracy is computed, and is the share of agreeing positions. *)
Lemma accuracy_score_ok (y_true y_pred : list Z) :
  y_true <> [] ->
  length y_pred = length y_true ->
  accuracy_score y_true y_pred
  = Ok (Some
          (inject_Z (Z.of_nat
                       (length (filter (fun p : Z * Z => Z.eqb (fst p) (snd p))
                                       (combine y_true y_pred))))
           / inject_Z (Z.of_nat (length y_true)))).
Proof.
  intros Hne Hl. unfold accuracy_score. rewrite Hl, Nat.eqb_refl.
  cbn [negb]. destruct y_true; [congruence|reflexivity].
Qed.

(** X23 (accuracy, range): for a non-empty list of true labels and as
    many predictions the accuracy is computed and lies between 0 and 1. *)
Theorem accuracy_score_bounds (y_true y_pred : list Z) :
  y_true <> [] ->
  length y_pred = length y_true ->
  exists a : Q,
    accuracy_score y_true y_pred = Ok (Some a) /\ 0 <= a /\ a <= 1.
Proof.
  intros Hne Hl. rewrite (accuracy_score_ok y_true y_pred Hne Hl).
  eexists. split; [reflexivity|].
  assert (Hn : 0 < inject_Z (Z.of_nat (length y_true))).
  { apply inject_nat_pos. destruct y_true; [congruence|simpl; lia]. }
  pose proof (agreements_le y_true y_pred) as Hc.
  split.
  - apply Qle_shift_div_l; [exact Hn|]. rewrite Qmult_0_l.
    unfold Qle, inject_Z. simpl. lia.
  - apply Qle_shift_div_r; [exact Hn|]. rewrite Qmult_1_l.
    rewrite <- Zle_Qle. lia.
Qed.

Lemma accuracy_score_bounds_witness :
  exists a : Q,
    accuracy_score [1; 0; 1]%Z [1; 1; 1]%Z = Ok (Some a) /\ 0 <= a /\ a <= 1.
Proof. apply accuracy_score_bounds; [discriminate|reflexivity]. Defined.

Lemma all_agree_iff (y_true y_pred : list Z) :
  length y_pred = length y_true ->
  (length (filter (fun p : Z * Z => Z.eqb (fst p) (snd p))
                  (combine y_true y_pred)) = length y_true
   <-> y_pred = y_true).
Proof.
  revert y_pred. induction y_true as [|a y IH]; intros [|b p] Hl;
    simpl in Hl; try discriminate.
  - simpl. tauto.
  - injection Hl as Hl. cbn [combine filter fst snd].
    destruct (Z.eqb_spec a b) as [->|Hab].
    + simpl. split; intro H.
      * injection H as H. apply (IH p Hl) in H. congruence.
      * injection H as H. apply (IH p Hl) in H. congruence.
    + split.
      * intro H. pose proof (agreements_le y p) as Hle. simpl in H. lia.
      * intro H. injection H as H _. congruence.
Qed.

(** X24 (accuracy, perfect score): for predictions as long as the
    non-empty list of true labels the accuracy is computed, and is 1
    exactly when every prediction is the true label. *)
Theorem accuracy_score_one_iff (y_true y_pred : list Z) :
  y_true <> [] ->
  length y_pred = length y_true ->
  exists a : Q,
    accuracy_score y_true y_pred = Ok (Some a) /\
    (a == 1 <-> y_pred = y_true).
Proof.
  intros Hne Hl. rewrite (accuracy_score_ok y_true y_pred Hne Hl).
  eexists. split; [reflexivity|].
  rewrite <- (all_agree_iff y_true y_pred Hl).
  assert (Hn : 0 < inject_Z (Z.of_nat (length y_true))).
  { apply inject_nat_pos. destruct y_true; [congruence|simpl; lia]. }
  set (c := length (filter _ _)). split.
  - intro H.
    assert (Hn0 : ~ inject_Z (Z.of_nat (length y_true)) == 0).
    { intro K. rewrite K in Hn. exact (Qlt_irrefl 0 Hn). }
    assert (E : inject_Z (Z.of_nat c)
                == inject_Z (Z.of_nat c) / inject_Z (Z.of_nat (length y_true))
                   * inject_Z (Z.of_nat (length y_true)))
      by (field; exact Hn0).
    rewrite H, Qmult_1_l in E.
    apply (proj1 (inject_Z_injective _ _)) in E. apply Nat2Z.inj. exact E.
  - intros ->. apply Qmult_inv_r.
    intro K. rewrite K in Hn. exact (Qlt_irrefl 0 Hn).
Qed.

Lemma accuracy_score_one_iff_witness :
  exists a : Q,
    accuracy_score [1; 0; 1]%Z [1; 0; 1]%Z = Ok (Some a) /\
    (a == 1 <-> [1; 0; 1]%Z = [1; 0; 1]%Z).
Proof. apply accuracy_score_one_iff; [discriminate|reflexivity]. Defined.

Lemma filter_length_perm {A : Type} (f : A -> bool) (l l' : list A) :
  Permutation l l' -> length (filter f l) = length (filter f l').
Proof.
  induction 1 as [|x l l' _ IH|x y l|l l' l'' _ IH1 _ IH2]; simpl.
  - reflexivity.
  - destruct (f x); simpl; rewrite IH; reflexivity.
  - destruct (f x), (f y); reflexivity.
  - congruence.
Qed.

(** X25 (accuracy, order of the test rows): the accuracy does not depend
    on the order of the test rows: rearranging the pairs of true label and
    prediction leaves it unchanged. *)
Theorem accuracy_score_permutation (y_true y_pred y_true' y_pred' : list Z) :
  length y_pred = length y_true ->
  length y_pred' = length y_true' ->
  Permutation (combine y_true y_pred) (combine y_true' y_pred') ->
  accuracy_score y_true y_pred = accuracy_score y_true' y_pred'.
Proof.
  intros H1 H2 HP. unfold accuracy_score.
  rewrite (filter_length_perm _ _ _ HP).
  pose proof (Permutation_length HP) as HL.
  rewrite !length_combine, H1, H2, !Nat.min_id in HL.
  rewrite H1, H2, !Nat.eqb_refl. cbn [negb]. rewrite HL.
  destruct y_true as [|a y], y_true' as [|a' y']; simpl in HL;
    try discriminate; reflexivity.
Qed.

Lemma accuracy_score_permutation_witness :
  accuracy_score [1; 0; 1]%Z [1; 1; 0]%Z
  = accuracy_score [0; 1; 1]%Z [1; 1; 0]%Z.
Proof.
  apply accuracy_score_permutation; [reflexivity|reflexivity|].
  simpl. apply perm_swap.
Defined.

(** *** Labels *)

Lemma insertZ_spec (x : Z) (l : list Z) :
  StronglySorted Z.lt l ->
  StronglySorted Z.lt (insertZ x l) /\
  (forall z, In z (insertZ x l) <-> z = x \/ In z l).
Proof.
  induction 1 as [|y l Hs IH Hy]; simpl.
  - split; [repeat constructor|]. intro z. simpl. intuition.
  - destruct IH as [IH1 IH2].
    destruct (Z.ltb_spec x y) as [Hxy|Hxy].
    + split; [|intro z; simpl; intuition].
      constructor; [constructor; assumption|].
      constructor; [exact Hxy|].
      eapply Forall_impl; [|exact Hy]. intros z Hz. lia.
    + destruct (Z.eqb_spec x y) as [->|Hne].
      * split; [constructor; assumption|]. intro z. simpl. intuition.
      * split.
        -- constructor; [exact IH1|]. apply Forall_forall. intros z Hz.
           apply IH2 in Hz. destruct Hz as [->|Hz]; [lia|].
           rewrite Forall_forall in Hy. auto.
        -- intro z. simpl. rewrite IH2. intuition.
Qed.

Lemma unique_labels_spec (y_true y_pred : list Z) :
  StronglySorted Z.lt (unique_labels y_true y_pred) /\
  (forall z, In z (unique_labels y_true y_pred) <->
             In z y_true \/ In z y_pred).
Proof.
  unfold unique_labels.
  assert (H : forall l, StronglySorted Z.lt (fold_right insertZ [] l) /\
                        (forall z, In z (fold_right insertZ [] l) <-> In z l)).
  { induction l as [|x l [IH1 IH2]]; simpl.
    - split; [constructor|tauto].
    - destruct (insertZ_spec x _ IH1) as [H1 H2]. split; [exact H1|].
      intro z. rewrite H2, IH2. intuition. }
  destruct (H (y_true ++ y_pred)) as [H1 H2]. split; [exact H1|].
  intro z. rewrite H2. apply in_app_iff.
Qed.

Lemma sorted_NoDup (l : list Z) : StronglySorted Z.lt l -> NoDup l.
Proof.
  induction 1 as [|x l _ IH Hx]; constructor; [|exact IH].
  intro Hin. rewrite Forall_forall in Hx. specialize (Hx x Hin). lia.
Qed.

(** *** Counting by label *)

Lemma sum_add {A : Type} (f g : A -> nat) (l : list A) :
  fold_right Nat.add 0%nat (map (fun a => (f a + g a)%nat) l)
  = (fold_right Nat.add 0%nat (map f l)
     + fold_right Nat.add 0%nat (map g l))%nat.
Proof. induction l as [|a l IH]; simpl; [reflexivity|]. rewrite IH. lia. Qed.

Lemma sum_indicator (x : Z) (L : list Z) :
  NoDup L -> In x L ->
  fold_right Nat.add 0%nat
             (map (fun a => if Z.eqb x a then 1%nat else 0%nat) L) = 1%nat.
Proof.
  induction 1 as [|a L Ha Hnd IH]; intro Hin; [destruct Hin|]. simpl.
  destruct (Z.eqb_spec x a) as [->|Hne].
  - assert (E : fold_right Nat.add 0%nat
                  (map (fun b => if Z.eqb a b then 1%nat else 0%nat) L)
                = 0%nat).
    { clear - Ha. induction L as [|b L IH]; simpl; [reflexivity|].
      destruct (Z.eqb_spec a b) as [->|_]; [exfalso; apply Ha; left; auto|].
      apply IH. intro H. apply Ha. right. exact H. }
    rewrite E. reflexivity.
  - destruct Hin as [->|Hin]; [congruence|]. rewrite (IH Hin). reflexivity.
Qed.

(** Counting the elements of a list label by label counts each once. *)
Lemma count_by_label {A : Type} (key : A -> Z) (L : list Z) (l : list A) :
  NoDup L -> (forall x, In x l -> In (key x) L) ->
  fold_right Nat.add 0%nat
    (map (fun a => length (filter (fun x => Z.eqb (key x) a) l)) L)
  = length l.
Proof.
  intros Hnd. induction l as [|x l IH]; intro Hin.
  - simpl. clear Hnd Hin. induction L as [|a L IHL]; simpl; auto.
  - rewrite (map_ext _ (fun a => ((if Z.eqb (key x) a then 1 else 0)
                 + length (filter (fun x0 => Z.eqb (key x0) a) l))%nat)).
    + rewrite sum_add, sum_indicator, IH; auto.
      * intros y Hy. apply Hin. right. exact Hy.
      * apply Hin. left. reflexivity.
    + intro a. simpl. destruct (Z.eqb (key x) a); reflexivity.
Qed.

Lemma filter_filter {A : Type} (f g : A -> bool) (l : list A) :
  filter (fun x => f x && g x) l = filter g (filter f l).
Proof.
  induction l as [|x l IH]; simpl; [reflexivity|].
  destruct (f x); simpl; [destruct (g x)|]; rewrite IH; reflexivity.
Qed.

Lemma combine_labels (y_true y_pred : list Z) (p : Z * Z) :
  In p (combine y_true y_pred) ->
  In (fst p) (unique_labels y_true y_pred) /\
  In (snd p) (unique_labels y_true y_pred).
Proof.
  intro H. destruct p as [a b]. cbn [fst snd].
  destruct (unique_labels_spec y_true y_pred) as [_ Hm].
  split; apply Hm.
  - left. apply (in_combine_l _ _ _ _ H).
  - right. apply (in_combine_r _ _ _ _ H).
Qed.

(** X26 (confusion matrix, total): the confusion matrix is refused with
    a value error exactly when the predictions and the true labels differ in
    number; for a non-empty list of true labels and as many predictions it
    is a square table with one row and one column per label that occurs,
    and its entries sum to the number of test rows. *)
Theorem confusion_matrix_total (y_true y_pred : list Z) :
  (length y_true <> length y_pred ->
   confusion_matrix y_true y_pred = Err ValueError) /\
  (y_true <> [] -> length y_true = length y_pred ->
   exists cm,
     confusion_matrix y_true y_pred = Ok cm /\
     length cm = length (unique_labels y_true y_pred) /\
     Forall (fun r => length r = length (unique_labels y_true y_pred)) cm /\
     total cm = length y_true).
Proof.
  unfold confusion_matrix. split.
  - intro H. apply Nat.eqb_neq in H. rewrite H. reflexivity.
  - intros _ H. rewrite H, Nat.eqb_refl. cbn [negb].
    eexists. split; [reflexivity|].
    set (L := unique_labels y_true y_pred).
    split; [apply length_map|]. split.
    + apply Forall_forall. intros r Hr. apply in_map_iff in Hr.
      destruct Hr as [a [<- _]]. apply length_map.
    + unfold total. rewrite map_map.
      destruct (unique_labels_spec y_true y_pred) as [Hs _].
      pose proof (sorted_NoDup _ Hs) as Hnd. fold L in Hnd.
      rewrite (map_ext _ (fun a => length (filter (fun p : Z * Z =>
                                     Z.eqb (fst p) a)
                                   (combine y_true y_pred)))).
      * rewrite (count_by_label fst L _ Hnd).
        -- rewrite length_combine, <- H. apply Nat.min_id.
        -- intros p Hp. apply (combine_labels _ _ _ Hp).
      * intro a.
        rewrite (map_ext _ (fun b => length (filter (fun p : Z * Z =>
                                       Z.eqb (snd p) b)
                                     (filter (fun p : Z * Z => Z.eqb (fst p) a)
                                             (combine y_true y_pred))))).
        -- apply (count_by_label snd L _ Hnd).
           intros p Hp. apply filter_In in Hp.
           apply (combine_labels _ _ _ (proj1 Hp)).
        -- intro b. rewrite <- filter_filter. reflexivity.
Qed.

Lemma map_nth_seq {A B : Type} (f : A -> B) (l : list A) (d : A) :
  map (fun i => f (nth i l d)) (seq 0 (length l)) = map f l.
Proof.
  induction l as [|x l IH]; simpl; [reflexivity|].
  rewrite <- seq_shift, map_map. simpl. rewrite IH. reflexivity.
Qed.

(** X27 (confusion matrix, diagonal): the diagonal of the confusion
    matrix counts the correct predictions, so the accuracy is the diagonal
    sum divided by the number of test rows. *)
Theorem confusion_matrix_trace (y_true y_pred : list Z)
        (cm : list (list nat)) :
  y_true <> [] ->
  confusion_matrix y_true y_pred = Ok cm ->
  accuracy_score y_true y_pred
  = Ok (Some (inject_Z (Z.of_nat (trace cm))
              / inject_Z (Z.of_nat (length y_true)))).
Proof.
  intros Hne. unfold confusion_matrix.
  destruct (length y_true =? length y_pred)%nat eqn:El; [|discriminate].
  cbn [negb]. apply Nat.eqb_eq in El.
  intro H. injection H as <-.
  rewrite (accuracy_score_ok y_true y_pred Hne (eq_sym El)). do 5 f_equal.
  set (L := unique_labels y_true y_pred).
  destruct (unique_labels_spec y_true y_pred) as [Hs _].
  pose proof (sorted_NoDup _ Hs) as Hnd. fold L in Hnd.
  unfold trace. rewrite length_map.
  set (g := fun a => length (filter (fun p : Z * Z =>
                               Z.eqb (fst p) a && Z.eqb (snd p) a)
                             (combine y_true y_pred))).
  rewrite (map_ext_in _ (fun i => g (nth i L 0%Z))).
  - rewrite (map_nth_seq g L 0%Z). unfold g.
    rewrite (map_ext _ (fun a => length (filter (fun p : Z * Z =>
                                   Z.eqb (fst p) a)
                                 (filter (fun p : Z * Z =>
                                            Z.eqb (fst p) (snd p))
                                         (combine y_true y_pred))))).
    + symmetry. apply (count_by_label fst L _ Hnd).
      intros p Hp. apply filter_In in Hp.
      apply (combine_labels _ _ _ (proj1 Hp)).
    + intro a. rewrite <- filter_filter. f_equal. apply filter_ext.
      intros [u v]. cbn [fst snd].
      destruct (Z.eqb_spec u a), (Z.eqb_spec v a), (Z.eqb_spec u v);
        simpl; try reflexivity; lia.
  - intros i Hi. apply in_seq in Hi.
    rewrite (nth_map_in _ L i [] 0%Z) by lia.
    rewrite (nth_map_in _ L i 0%nat 0%Z) by lia. reflexivity.
Qed.

Lemma confusion_matrix_trace_witness :
  accuracy_score [1; 0; 1; 0]%Z [1; 1; 1; 0]%Z
  = Ok (Some (inject_Z (Z.of_nat (trace [[1; 1]; [0; 2]]%nat))
              / inject_Z (Z.of_nat (length [1; 0; 1; 0]%Z)))).
Proof.
  apply (confusion_matrix_trace [1; 0; 1; 0]%Z [1; 1; 1; 0]%Z);
    [discriminate|reflexivity].
Defined.

(** X28 (confusion matrix, binary layout): when the labels that occur
    are exactly 0 and 1, the matrix is two by two with the true label
    choosing the row and the prediction the column:
    [[TN, FP], [FN, TP]]. *)
Theorem confusion_matrix_binary (y_true y_pred : list Z) :
  length y_true = length y_pred ->
  (forall z, In z y_true \/ In z y_pred <-> z = 0%Z \/ z = 1%Z) ->
  let count := fun a b =>
    length (filter (fun p : Z * Z => Z.eqb (fst p) a && Z.eqb (snd p) b)
                   (combine y_true y_pred)) in
  confusion_matrix y_true y_pred
  = Ok [[count 0%Z 0%Z; count 0%Z 1%Z]; [count 1%Z 0%Z; count 1%Z 1%Z]].
Proof.
  intros Hl Hz count. unfold confusion_matrix.
  rewrite Hl, Nat.eqb_refl. cbn [negb].
  assert (E : unique_labels y_true y_pred = [0; 1]%Z).
  { destruct (unique_labels_spec y_true y_pred) as [Hs Hm].
    assert (H0 : In 0%Z (unique_labels y_true y_pred))
      by (apply Hm, Hz; auto).
    assert (H1 : In 1%Z (unique_labels y_true y_pred))
      by (apply Hm, Hz; auto).
    assert (Hall : forall z, In z (unique_labels y_true y_pred) ->
                             z = 0%Z \/ z = 1%Z)
      by (intros z Hin; apply Hz, Hm; exact Hin).
    destruct (unique_labels y_true y_pred) as [|a [|b [|c l]]].
    - destruct H0.
    - simpl in H0, H1. lia.
    - inversion Hs as [|? ? _ Ha]; subst. inversion Ha as [|? ? Hab _]; subst.
      destruct (Hall a (or_introl eq_refl)),
        (Hall b (or_intror (or_introl eq_refl)));
        subst; try lia. reflexivity.
    - inversion Hs as [|? ? Hs' Ha]; subst.
      inversion Ha as [|? ? Hab Ha']; subst.
      inversion Ha' as [|? ? Hac _]; subst.
      inversion Hs' as [|? ? _ Hb]; subst.
      inversion Hb as [|? ? Hbc _]; subst.
      destruct (Hall a (or_introl eq_refl)),
        (Hall b (or_intror (or_introl eq_refl))),
        (Hall c (or_intror (or_intror (or_introl eq_refl)))); lia. }
  rewrite E. reflexivity.
Qed.

Lemma confusion_matrix_binary_witness :
  confusion_matrix [1; 0; 1; 0]%Z [1; 1; 1; 0]%Z = Ok [[1; 1]; [0; 2]]%nat.
Proof.
  apply (confusion_matrix_binary [1; 0; 1; 0]%Z [1; 1; 1; 0]%Z).
  - reflexivity.
  - intro z. simpl. split; [intuition|]. intros [-> | ->]; auto.
Defined.

(** ** Type coercion (lines 23-24) *)

Lemma mapM_compose {A B C : Type} (f : B -> result C) (g : A -> B)
      (l : list A) :
  mapM f (map g l) = mapM (fun x => f (g x)) l.
Proof.
  induction l as [|x l IH]; simpl; [reflexivity|]. rewrite IH. reflexivity.
Qed.

Lemma mapM_Forall2 {A B : Type} (f : A -> result B) (l : list A)
      (out : list B) :
  mapM f l = Ok out -> Forall2 (fun x y => f x = Ok y) l out.
Proof.
  revert out. induction l as [|x l IH]; simpl; intros out H.
  - injection H as <-. constructor.
  - destruct (f x) as [y|e] eqn:E; [|discriminate]. cbn [bind] in H.
    destruct (mapM f l) as [ys|e]; [|discriminate]. cbn [bind] in H.
    injection H as <-. constructor; [exact E|apply IH; reflexivity].
Qed.

Lemma Forall2_map_eq {A B C : Type} (R : A -> B -> Prop) (f : A -> C)
      (g : B -> C) (l : list A) (l' : list B) :
  Forall2 R l l' -> (forall x y, In x l -> R x y -> f x = g y) ->
  map f l = map g l'.
Proof.
  induction 1 as [|x y l l' HR _ IH]; intro H; simpl; [reflexivity|].
  rewrite (H x y (or_introl eq_refl) HR), IH; [reflexivity|].
  intros a b Ha. apply H. right. exact Ha.
Qed.

Lemma Forall2_in_r_exists {A B : Type} (R : A -> B -> Prop) (l : list A)
      (l' : list B) :
  Forall2 R l l' -> forall y, In y l' -> exists x, In x l /\ R x y.
Proof.
  induction 1 as [|x y l l' HR _ IH]; intros z Hz; [destruct Hz|].
  destruct Hz as [<-|Hz]; [exists x; split; [left; reflexivity|exact HR]|].
  destruct (IH z Hz) as [w [Hw HRw]]. exists w. split; [right|]; assumption.
Qed.

Section CoercionFacts.

Variable float_of_string : string -> option (option Q).

Lemma to_float_cases (c : cell) :
  to_float float_of_string c = Err ValueError \/
  exists v, to_float float_of_string c = Ok v /\
            (forall s, v <> Str s) /\
            ((forall s, c <> Str s) -> v = c).
Proof.
  destruct c as [|q|s]; simpl.
  - right. exists NaN. split; [reflexivity|]. split; [discriminate|].
    intros _. reflexivity.
  - right. exists (Num q). split; [reflexivity|]. split; [discriminate|].
    intros _. reflexivity.
  - destruct (float_of_string s) as [[q|]|]; [right|right|left; reflexivity].
    + exists (Num q). split; [reflexivity|]. split; [discriminate|].
      intro H. exfalso. exact (H s eq_refl).
    + exists NaN. split; [reflexivity|]. split; [discriminate|].
      intro H. exfalso. exact (H s eq_refl).
Qed.

(** On the loader's columns the coercion works row by row. *)
Lemma Coercer_closed_form (df : DataFrame) :
  columns df = map Col names ->
  rectangular df ->
  Coercer float_of_string df
  = (converted <- mapM (coerce_row float_of_string) (rows df) ;;
     Ok (mkDF (columns df) converted)).
Proof.
  intros Hcols Hrect.
  assert (H14 : forall r, In r (rows df) -> length (snd r) = 14%nat).
  { intros r Hr. unfold rectangular in Hrect.
    rewrite Forall_forall in Hrect. rewrite (Hrect r Hr), Hcols. reflexivity. }
  unfold Coercer, getitems. rewrite Hcols.
  change (mapM _ to_convert) with (@Ok (list nat) [0; 3; 4; 7; 9]%nat).
  cbn [bind]. unfold astype. cbn [rows columns].
  rewrite mapM_compose. cbn [fst snd].
  unfold loc_setitem. rewrite Hcols. cbn [rows].
  set (A := fun x : row => _).
  set (h := fun rv : row * row => _).
  assert (Hrow : forall r, length (snd r) = 14%nat ->
             coerce_row float_of_string r = (y <- A r ;; Ok (h (r, y)))).
  { intros r Hr. destruct r as [i cells].
    destruct (row14 _ Hr)
      as (c0&c1&c2&c3&c4&c5&c6&c7&c8&c9&c10&c11&c12&c13&E).
    cbn [snd] in E. subst cells. unfold coerce_row, A, h.
    cbn [fst snd nth map mapM].
    destruct (to_float float_of_string c0); [|reflexivity]. cbn [bind].
    destruct (to_float float_of_string c3); [|reflexivity]. cbn [bind].
    destruct (to_float float_of_string c4); [|reflexivity]. cbn [bind].
    destruct (to_float float_of_string c7); [|reflexivity]. cbn [bind].
    destruct (to_float float_of_string c9); [|reflexivity]. cbn [bind].
    reflexivity. }
  assert (Hl : forall l, (forall r, In r l -> length (snd r) = 14%nat) ->
             (converted <- mapM A l ;; Ok (map h (combine l converted)))
             = mapM (coerce_row float_of_string) l).
  { induction l as [|r l IH]; intro Hlen; [reflexivity|].
    cbn [mapM]. rewrite (Hrow r) by (apply Hlen; left; reflexivity).
    rewrite <- IH by (intros r' Hr'; apply Hlen; right; exact Hr').
    destruct (A r) as [y|e]; [|reflexivity]. cbn [bind].
    destruct (mapM A l) as [ys|e]; reflexivity. }
  rewrite <- (Hl (rows df) H14).
  destruct (mapM A (rows df)); reflexivity.
Qed.

Lemma coerce_row_cases (r : row) :
  length (snd r) = 14%nat ->
  coerce_row float_of_string r = Err ValueError \/
  exists r',
    coerce_row float_of_string r = Ok r' /\
    fst r' = fst r /\
    length (snd r') = 14%nat /\
    (forall p, In p [1; 2; 5; 6; 8; 10; 11; 12; 13]%nat ->
               nth p (snd r') NaN = nth p (snd r) NaN) /\
    (forall p s, In p [0; 3; 4; 7; 9]%nat -> nth p (snd r') NaN <> Str s) /\
    ((forall p s, In p [0; 3; 4; 7; 9]%nat -> nth p (snd r) NaN <> Str s) ->
     r' = r).
Proof.
  intro Hr. destruct r as [i cells].
  destruct (row14 _ Hr)
    as (c0&c1&c2&c3&c4&c5&c6&c7&c8&c9&c10&c11&c12&c13&E).
  cbn [snd] in E. subst cells. unfold coerce_row. cbn [fst snd nth].
  destruct (to_float_cases c0) as [->|(v0 & -> & N0 & I0)];
    [left; reflexivity|].
  destruct (to_float_cases c3) as [->|(v3 & -> & N3 & I3)];
    [left; reflexivity|].
  destruct (to_float_cases c4) as [->|(v4 & -> & N4 & I4)];
    [left; reflexivity|].
  destruct (to_float_cases c7) as [->|(v7 & -> & N7 & I7)];
    [left; reflexivity|].
  destruct (to_float_cases c9) as [->|(v9 & -> & N9 & I9)];
    [left; reflexivity|].
  right. cbn [bind]. eexists. split; [reflexivity|]. cbn [fst snd].
  split; [reflexivity|]. split; [reflexivity|]. split; [|split].
  - intros p Hp. simpl in Hp.
    repeat (destruct Hp as [<-|Hp]; [reflexivity|]). destruct Hp.
  - intros p s Hp. simpl in Hp.
    repeat (destruct Hp as [<-|Hp]; [simpl; auto|]). destruct Hp.
  - intro H.
    rewrite I0, I3, I4, I7, I9; [reflexivity| | | | |];
      intro s; [apply (H 9%nat)|apply (H 7%nat)|apply (H 4%nat)
                |apply (H 3%nat)|apply (H 0%nat)]; simpl; auto 10.
Qed.

(** X4 (coercion, numeric frame): on a frame with the loader's columns
    whose five columns to convert hold no string, the coercion returns the
    frame as it is. *)
Theorem Coercer_numeric_identity (df : DataFrame) :
  columns df = map Col names ->
  rectangular df ->
  (forall r p s, In r (rows df) -> In p [0; 3; 4; 7; 9]%nat ->
                 nth p (snd r) NaN <> Str s) ->
  Coercer float_of_string df = Ok df.
Proof.
  intros Hcols Hrect Hnum.
  rewrite (Coercer_closed_form df Hcols Hrect).
  rewrite (mapM_map _ (fun r => r)).
  - rewrite map_id. destruct df; reflexivity.
  - intros r Hr.
    assert (H14 : length (snd r) = 14%nat).
    { unfold rectangular in Hrect. rewrite Forall_forall in Hrect.
      rewrite (Hrect r Hr), Hcols. reflexivity. }
    destruct (coerce_row_cases r H14) as [E|(r' & E & _ & _ & _ & _ & I)].
    + exfalso. revert E. destruct r as [i cells].
      destruct (row14 _ H14)
        as (c0&c1&c2&c3&c4&c5&c6&c7&c8&c9&c10&c11&c12&c13&E').
      cbn [snd] in E'. subst cells. unfold coerce_row. cbn [fst snd nth].
      assert (Hc : forall p, In p [0; 3; 4; 7; 9]%nat ->
                  exists v, to_float float_of_string
                              (nth p [c0; c1; c2; c3; c4; c5; c6; c7; c8; c9;
                                      c10; c11; c12; c13] NaN) = Ok v).
      { intros p Hp.
        pose proof (fun s => Hnum _ p s Hr Hp) as Hs. cbn [snd] in Hs.
        destruct (nth p _ NaN) as [|q|s]; simpl; eauto.
        exfalso. exact (Hs s eq_refl). }
      destruct (Hc 0%nat) as [v0 E0]; [simpl; auto|].
      destruct (Hc 3%nat) as [v3 E3]; [simpl; auto|].
      destruct (Hc 4%nat) as [v4 E4]; [simpl; auto|].
      destruct (Hc 7%nat) as [v7 E7]; [simpl; auto 10|].
      destruct (Hc 9%nat) as [v9 E9]; [simpl; auto 10|].
      cbn [nth] in E0, E3, E4, E7, E9.
      rewrite E0, E3, E4, E7, E9. discriminate.
    + rewrite E. f_equal. apply I. intros p s Hp. apply Hnum; assumption.
Qed.

(** Row by row, what a successful coercion does. *)
Lemma Coercer_rows (df out : DataFrame) :
  columns df = map Col names ->
  rectangular df ->
  Coercer float_of_string df = Ok out ->
  columns out = columns df /\
  Forall2 (fun r r' : row =>
             In r (rows df) /\
             fst r' = fst r /\ length (snd r') = 14%nat /\
             (forall p, In p [1; 2; 5; 6; 8; 10; 11; 12; 13]%nat ->
                        nth p (snd r') NaN = nth p (snd r) NaN) /\
             (forall p s, In p [0; 3; 4; 7; 9]%nat ->
                          nth p (snd r') NaN <> Str s))
          (rows df) (rows out).
Proof.
  intros Hcols Hrect H.
  assert (H14 : forall r, In r (rows df) -> length (snd r) = 14%nat).
  { intros r Hr. unfold rectangular in Hrect.
    rewrite Forall_forall in Hrect. rewrite (Hrect r Hr), Hcols. reflexivity. }
  rewrite (Coercer_closed_form df Hcols Hrect) in H.
  destruct (mapM _ (rows df)) as [rows'|e] eqn:E; [|discriminate].
  cbn [bind] in H. injection H as <-.
  apply mapM_Forall2 in E. cbn [columns rows]. split; [reflexivity|].
  revert H14. clear Hrect. induction E as [|r r' l l' Er _ IH]; intro H14;
    constructor.
  - destruct (coerce_row_cases r (H14 r (or_introl eq_refl)))
      as [E'|(r'' & E' & F1 & F2 & F3 & F4 & _)]; [congruence|].
    assert (r'' = r') by congruence. subst r''.
    split; [left; reflexivity|]. auto.
  - eapply Forall2_impl; [|apply IH; intros x Hx; apply H14; right; exact Hx].
    intros a b (Ha & Hb). split; [right; exact Ha|exact Hb].
Qed.

(** X5 (coercion, what it touches): when the coercion succeeds on a
    frame with the loader's columns, it keeps the column labels, the index
    and the width; every column outside the five it converts keeps its
    values; and no cell of the five converted columns is a string any
    more. *)
Theorem Coercer_keeps_rest (df out : DataFrame) :
  columns df = map Col names ->
  rectangular df ->
  Coercer float_of_string df = Ok out ->
  columns out = columns df /\
  index out = index df /\
  rectangular out /\
  (forall p, In p [1; 2; 5; 6; 8; 10; 11; 12; 13]%nat ->
             values_at out p = values_at df p) /\
  (forall p c, In p [0; 3; 4; 7; 9]%nat -> In c (values_at out p) ->
               forall s, c <> Str s).
Proof.
  intros Hcols Hrect H.
  destruct (Coercer_rows df out Hcols Hrect H) as [Hco HF].
  unfold index, rectangular, values_at. rewrite Hco.
  split; [reflexivity|]. split; [|split; [|split]].
  - symmetry. apply (Forall2_map_eq _ _ _ _ _ HF).
    intros x y _ (_ & Hf & _). symmetry. exact Hf.
  - rewrite Hcols. apply Forall_forall. intros r' Hr'.
    destruct (Forall2_in_r_exists _ _ _ HF r' Hr') as (r & _ & _ & _ & Hl & _).
    exact Hl.
  - intros p Hp. symmetry. apply (Forall2_map_eq _ _ _ _ _ HF).
    intros x y _ (_ & _ & _ & Hk & _). symmetry. apply Hk. exact Hp.
  - intros p c Hp Hc s. apply in_map_iff in Hc. destruct Hc as [r' [<- Hr']].
    destruct (Forall2_in_r_exists _ _ _ HF r' Hr')
      as (r & _ & _ & _ & _ & _ & Hs).
    apply Hs. exact Hp.
Qed.

(** X6 (coercion, unreadable text): on a frame with the loader's
    columns, a string that [float] refuses in one of the five columns to
    convert makes the coercion fail with a value error. *)
Theorem Coercer_value_error (df : DataFrame) (r : row) (p : nat) (s : string) :
  columns df = map Col names ->
  rectangular df ->
  In r (rows df) ->
  In p [0; 3; 4; 7; 9]%nat ->
  nth p (snd r) NaN = Str s ->
  float_of_string s = None ->
  Coercer float_of_string df = Err ValueError.
Proof.
  intros Hcols Hrect Hr Hp Hs Hf.
  assert (H14 : forall r, In r (rows df) -> length (snd r) = 14%nat).
  { intros r0 Hr0. unfold rectangular in Hrect.
    rewrite Forall_forall in Hrect. rewrite (Hrect r0 Hr0), Hcols.
    reflexivity. }
  rewrite (Coercer_closed_form df Hcols Hrect).
  rewrite (mapM_first_error _ _ ValueError); [reflexivity| |].
  - intros x Hx. destruct (coerce_row_cases x (H14 x Hx))
      as [E|(x' & E & _)]; eauto.
  - exists r. split; [exact Hr|].
    destruct (coerce_row_cases r (H14 r Hr))
      as [E|(r' & E & _ & _ & _ & Hno & _)]; [exact E|exfalso].
    revert E Hno. destruct r as [i cells].
    destruct (row14 _ (H14 _ Hr))
      as (c0&c1&c2&c3&c4&c5&c6&c7&c8&c9&c10&c11&c12&c13&E').
    cbn [snd] in E', Hs. subst cells. unfold coerce_row. cbn [fst snd nth].
    assert (Hbad : to_float float_of_string (Str s) = Err ValueError)
      by (simpl; rewrite Hf; reflexivity).
    simpl in Hp.
    destruct Hp as [<-|[<-|[<-|[<-|[<-|[]]]]]]; cbn [nth] in Hs; subst;
      rewrite Hbad;
      repeat match goal with
             | |- context [to_float float_of_string ?c] =>
                 lazymatch c with
                 | Str s => fail
                 | _ => destruct (to_float float_of_string c)
                 end
             end; cbn [bind]; discriminate.
Qed.

(** X7 (coercion, missing column): when one of the five columns to
    convert is not a column of the frame, the coercion fails with a key
    error naming one of the five that is missing. *)
Theorem Coercer_missing_column (df : DataFrame) (k : string) :
  In k to_convert ->
  has_column df k = false ->
  exists k', In k' to_convert /\ has_column df k' = false /\
             Coercer float_of_string df = Err (KeyError k').
Proof.
  intros Hk Hmiss. unfold Coercer, getitems.
  set (f := fun k0 => match index_of (Col k0) (columns df) with
                      | Some p => Ok p
                      | None => Err (KeyError k0)
                      end).
  assert (H : forall keys, In k keys ->
              exists k', In k' keys /\ has_column df k' = false /\
                         mapM f keys = Err (KeyError k')).
  { induction keys as [|a keys IH]; intro Hin; [destruct Hin|].
    simpl. unfold f at 1.
    destruct (index_of (Col a) (columns df)) as [p|] eqn:E.
    - cbn [bind]. destruct Hin as [->|Hin].
      + apply has_column_index_of in Hmiss. congruence.
      + destruct (IH Hin) as (k' & H1 & H2 & H3).
        exists k'. rewrite H3. auto.
    - exists a. split; [left; reflexivity|].
      split; [apply has_column_index_of; exact E|reflexivity]. }
  destruct (H to_convert Hk) as (k' & H1 & H2 & H3).
  exists k'. rewrite H3. auto.
Qed.

End CoercionFacts.

Lemma Coercer_numeric_identity_witness :
  Coercer decimal cleveland5 = Ok cleveland5.
Proof.
  apply (Coercer_numeric_identity decimal cleveland5).
  - reflexivity.
  - repeat constructor.
  - intros r p s Hr Hp. simpl in Hr, Hp.
    destruct Hr as [<-|[<-|[<-|[<-|[<-|[]]]]]];
      destruct Hp as [<-|[<-|[<-|[<-|[<-|[]]]]]]; discriminate.
Defined.

Lemma Coercer_keeps_rest_witness :
  Coercer decimal text2 = Ok numeric2 /\
  columns numeric2 = columns text2 /\
  index numeric2 = index text2 /\
  rectangular numeric2 /\
  (forall p, In p [1; 2; 5; 6; 8; 10; 11; 12; 13]%nat ->
             values_at numeric2 p = values_at text2 p) /\
  (forall p c, In p [0; 3; 4; 7; 9]%nat -> In c (values_at numeric2 p) ->
               forall s, c <> Str s).
Proof.
  assert (H : Coercer decimal text2 = Ok numeric2)
    by (vm_compute; reflexivity).
  split; [exact H|].
  apply (Coercer_keeps_rest decimal text2 numeric2);
    [reflexivity|repeat constructor|exact H].
Defined.

Lemma Coercer_value_error_witness :
  Coercer decimal
    (mkDF (map Col names)
       [(0%nat, [Str "63.0"; Num 1; Num 1; Str "high"; Num 233; Num 1; Num 2;
                 Num 150; Num 0; Num 2.3; Num 3; Str "0.0"; Str "6.0";
                 Num 0])])
  = Err ValueError.
Proof.
  apply (Coercer_value_error decimal _
           (0%nat, [Str "63.0"; Num 1; Num 1; Str "high"; Num 233; Num 1;
                    Num 2; Num 150; Num 0; Num 2.3; Num 3; Str "0.0";
                    Str "6.0"; Num 0]) 3 "high").
  - reflexivity.
  - repeat constructor.
  - left. reflexivity.
  - simpl. auto.
  - reflexivity.
  - reflexivity.
Defined.

Lemma Coercer_missing_column_witness :
  exists k',
    In k' to_convert /\
    has_column (mkDF [Col "age"; Col "trestbps"; Col "chol"] []) k' = false /\
    Coercer decimal (mkDF [Col "age"; Col "trestbps"; Col "chol"] [])
    = Err (KeyError k').
Proof.
  apply (Coercer_missing_column decimal
           (mkDF [Col "age"; Col "trestbps"; Col "chol"] []) "oldpeak").
  - simpl. auto 10.
  - reflexivity.
Defined.

(** ** The stages in sequence (lines 19-44) *)

Lemma mapM_total {A B : Type} (f : A -> result B) (l : list A) :
  (forall x, In x l -> exists y, f x = Ok y) -> exists out, mapM f l = Ok out.
Proof.
  induction l as [|x l IH]; intro H; simpl; [eexists; reflexivity|].
  destruct (H x (or_introl eq_refl)) as [y ->].
  destruct IH as [ys ->]; [intros z Hz; apply H; right; exact Hz|].
  eexists. reflexivity.
Qed.

Lemma Cleaner_rectangular (df : DataFrame) :
  rectangular df -> rectangular (Cleaner df).
Proof.
  unfold rectangular. rewrite Cleaner_rows.
  change (columns (Cleaner df)) with (columns df).
  intro H. rewrite Forall_forall in *. intros r Hr.
  apply filter_In in Hr. apply H. tauto.
Qed.

Section PreprocessFacts.

Context {R : RandomState}.
Variable float_of_string : string -> option (option Q).

Lemma to_float_ok (c : cell) :
  (forall s, c = Str s -> float_of_string s <> None) ->
  exists v, to_float float_of_string c = Ok v.
Proof.
  intro H. destruct c as [|q|s]; simpl; eauto.
  specialize (H s eq_refl).
  destruct (float_of_string s) as [[q|]|]; eauto. congruence.
Qed.

Lemma coerce_row_ok (r : row) :
  length (snd r) = 14%nat ->
  (forall p s, In p [0; 3; 4; 7; 9]%nat -> nth p (snd r) NaN = Str s ->
               float_of_string s <> None) ->
  exists r', coerce_row float_of_string r = Ok r'.
Proof.
  intros Hr Hparse. destruct r as [i cells].
  destruct (row14 _ Hr)
    as (c0&c1&c2&c3&c4&c5&c6&c7&c8&c9&c10&c11&c12&c13&E').
  cbn [snd] in E', Hparse. subst cells. unfold coerce_row.
  cbn [fst snd nth].
  destruct (to_float_ok c0) as [v0 ->];
    [intros s Hs; apply (Hparse 0%nat s); [simpl; auto|exact Hs]|].
  destruct (to_float_ok c3) as [v3 ->];
    [intros s Hs; apply (Hparse 3%nat s); [simpl; auto|exact Hs]|].
  destruct (to_float_ok c4) as [v4 ->];
    [intros s Hs; apply (Hparse 4%nat s); [simpl; auto|exact Hs]|].
  destruct (to_float_ok c7) as [v7 ->];
    [intros s Hs; apply (Hparse 7%nat s); [simpl; auto 10|exact Hs]|].
  destruct (to_float_ok c9) as [v9 ->];
    [intros s Hs; apply (Hparse 9%nat s); [simpl; auto 10|exact Hs]|].
  cbn [bind]. eexists. reflexivity.
Qed.

(** Cleaning, coercing and encoding a raw frame whose complete rows are
    well formed. *)
Lemma clean_coerce_encode (raw : DataFrame) :
  columns raw = map Col names ->
  rectangular raw ->
  (forall r, In r (rows raw) -> complete r = true ->
             (exists q, nth 13 (snd r) NaN = Num q) /\
             (forall p s, In p [0; 3; 4; 7; 9]%nat ->
                          nth p (snd r) NaN = Str s ->
                          float_of_string s <> None)) ->
  exists coerced encoded : DataFrame,
    Coercer float_of_string (Cleaner raw) = Ok coerced /\
    Encoder coerced = Ok encoded /\
    index encoded = map fst (filter complete (rows raw)) /\
    has_column encoded "target" = true.
Proof.
  intros Hcols Hrect Hwf.
  pose proof (Cleaner_rectangular raw Hrect) as Hrc.
  assert (Hcc : columns (Cleaner raw) = map Col names) by exact Hcols.
  assert (H14 : forall r, In r (rows (Cleaner raw)) ->
                          length (snd r) = 14%nat).
  { intros r Hr. unfold rectangular in Hrc.
    rewrite Forall_forall in Hrc. rewrite (Hrc r Hr), Hcc. reflexivity. }
  assert (Hin : forall r, In r (rows (Cleaner raw)) ->
                          In r (rows raw) /\ complete r = true).
  { intros r Hr. rewrite Cleaner_rows in Hr. apply filter_In in Hr. exact Hr. }
  destruct (mapM_total (coerce_row float_of_string) (rows (Cleaner raw)))
    as [rows' Hm].
  { intros r Hr. apply coerce_row_ok; [apply H14; exact Hr|].
    destruct (Hin r Hr) as [H1 H2]. apply (Hwf r H1 H2). }
  assert (Hco : Coercer float_of_string (Cleaner raw)
                = Ok (mkDF (columns (Cleaner raw)) rows')).
  { rewrite (Coercer_closed_form float_of_string _ Hcc Hrc), Hm.
    reflexivity. }
  destruct (Coercer_rows float_of_string _ _ Hcc Hrc Hco) as [_ HF].
  cbn [rows] in HF.
  set (coerced := mkDF (columns (Cleaner raw)) rows') in *.
  assert (Hrect' : rectangular coerced).
  { unfold rectangular, coerced. cbn [rows columns]. rewrite Hcc.
    apply Forall_forall. intros r' Hr'.
    destruct (Forall2_in_r_exists _ _ _ HF r' Hr') as (r & _ & _ & _ & Hl & _).
    exact Hl. }
  assert (Hnum : forall r', In r' (rows coerced) ->
                            exists q, nth 13 (snd r') NaN = Num q).
  { intros r' Hr'.
    destruct (Forall2_in_r_exists _ _ _ HF r' Hr')
      as (r & Hr & _ & _ & _ & Hk & _).
    rewrite (Hk 13%nat) by (simpl; auto 15).
    destruct (Hin r Hr) as [H1 H2]. apply (Hwf r H1 H2). }
  exists coerced,
    (mkDF (encoded_columns coerced) (map (encoded_row coerced) (rows coerced))).
  split; [exact Hco|].
  split; [apply (Encoder_closed_form coerced Hcc Hrect' Hnum)|].
  split.
  - unfold index. cbn [rows]. rewrite map_map, <- Cleaner_rows.
    rewrite (map_ext (fun r => fst (encoded_row coerced r)) fst)
      by (intro r; rewrite encoded_row_front; reflexivity).
    symmetry. apply (Forall2_map_eq _ _ _ _ _ HF).
    intros x y _ (_ & Hf & _). symmetry. exact Hf.
  - unfold has_column. cbn [columns]. rewrite encoded_columns_front.
    rewrite existsb_app. simpl. apply orb_true_r.
Qed.

(** X29 (pipeline, who reaches the partitions): on a raw frame with the
    loader's columns whose complete rows have a numeric num and readable
    text in the five columns to convert, and which has at least two
    complete rows, cleaning, coercing, encoding and splitting succeed; the
    index labels of the train and test partitions together are exactly the
    index labels of the complete rows, so no row that held a null or the
    sentinel reaches a partition; and the features carry no target. *)
Theorem preprocess_complete_rows (raw : DataFrame) (global : rng) :
  lawful R ->
  columns raw = map Col names ->
  rectangular raw ->
  (forall r, In r (rows raw) -> complete r = true ->
             (exists q, nth 13 (snd r) NaN = Num q) /\
             (forall p s, In p [0; 3; 4; 7; 9]%nat ->
                          nth p (snd r) NaN = Str s ->
                          float_of_string s <> None)) ->
  (2 <= length (filter complete (rows raw)))%nat ->
  exists (X_train X_test : DataFrame) (y_train y_test : Series),
    preprocess float_of_string raw global
    = (Ok (X_train, X_test, y_train, y_test), global) /\
    Permutation (index X_train ++ index X_test)
                (map fst (filter complete (rows raw))) /\
    columns X_train = columns X_test /\
    has_column X_train "target" = false /\
    has_column X_test "target" = false.
Proof.
  intros HL Hcols Hrect Hwf Hn.
  destruct (clean_coerce_encode raw Hcols Hrect Hwf)
    as (coerced & encoded & Hco & Hen & Hix & Ht).
  unfold preprocess. cbv zeta. rewrite Hco.
  unfold encode_and_split. rewrite Hen.
  destruct (index_of (Col "target") (columns encoded)) as [p|] eqn:Hp.
  2: { apply index_of_none in Hp. unfold has_column in Ht. congruence. }
  assert (Hlen : (2 <= length (rows encoded))%nat).
  { pose proof (f_equal (@length nat) Hix) as HL'. unfold index in HL'.
    rewrite !length_map in HL'.
    apply (Nat.le_trans _ _ _ Hn). apply Nat.eq_le_incl. symmetry.
    exact HL'. }
  destruct (Splitter_selects encoded global p HL Hp Hlen)
    as (X & fX & s1 & s2 & Hft & HfX & HP & _ & Hs).
  eexists _, _, _, _. split; [exact Hs|].
  unfold index at 1 2. cbn [rows columns].
  pose proof (features_no_target _ _ _ Hft) as HX.
  split; [|split; [reflexivity|split; exact HX]].
  rewrite <- Hix. unfold index.
  rewrite !map_map, <- map_app.
  rewrite (map_ext (fun r => fst (fX r)) fst HfX).
  apply Permutation_map. exact HP.
Qed.

(** X30 (pipeline, too little data): on such a raw frame with fewer
    than two complete rows the script stops at the split with a value
    error, since the train partition would be empty. *)
Theorem preprocess_too_few_rows (raw : DataFrame) (global : rng) :
  columns raw = map Col names ->
  rectangular raw ->
  (forall r, In r (rows raw) -> complete r = true ->
             (exists q, nth 13 (snd r) NaN = Num q) /\
             (forall p s, In p [0; 3; 4; 7; 9]%nat ->
                          nth p (snd r) NaN = Str s ->
                          float_of_string s <> None)) ->
  (length (filter complete (rows raw)) < 2)%nat ->
  preprocess float_of_string raw global = (Err ValueError, global).
Proof.
  intros Hcols Hrect Hwf Hn.
  destruct (clean_coerce_encode raw Hcols Hrect Hwf)
    as (coerced & encoded & Hco & Hen & Hix & Ht).
  unfold preprocess. cbv zeta. rewrite Hco.
  unfold encode_and_split. rewrite Hen.
  assert (Hlen : (length (rows encoded) < 2)%nat).
  { pose proof (f_equal (@length nat) Hix) as HL'. unfold index in HL'.
    rewrite !length_map in HL'.
    apply (Nat.le_lt_trans _ _ _ (Nat.eq_le_incl _ _ HL')). exact Hn. }
  destruct (features_target_ok encoded Ht) as [mask [p Hft]].
  unfold Splitter. rewrite Hft. unfold train_test_split. cbn [rows].
  rewrite !length_map, Nat.eqb_refl. cbn [negb].
  change (Qle_bool (2 # 10) 0 || Qle_bool 1 (2 # 10)) with false.
  cbv iota.
  destruct (length (rows encoded)) as [|[|n]]; [reflexivity|reflexivity|lia].
Qed.

End PreprocessFacts.

Lemma raw6_well_formed (r : row) :
  In r (rows raw6) -> complete r = true ->
  (exists q, nth 13 (snd r) NaN = Num q) /\
  (forall p s, In p [0; 3; 4; 7; 9]%nat -> nth p (snd r) NaN = Str s ->
               decimal s <> None).
Proof.
  intros Hr _. simpl in Hr.
  destruct Hr as [<-|[<-|[<-|[<-|[<-|[<-|[]]]]]]];
    (split; [eexists; reflexivity|]);
    intros p s Hp; simpl in Hp;
    destruct Hp as [<-|[<-|[<-|[<-|[<-|[]]]]]]; discriminate.
Qed.

Lemma preprocess_complete_rows_witness :
  exists (X_train X_test : DataFrame) (y_train y_test : Series),
    preprocess (R := rotating) decimal raw6 7%Z
    = (Ok (X_train, X_test, y_train, y_test), 7%Z) /\
    Permutation (index X_train ++ index X_test)
                (map fst (filter complete (rows raw6))) /\
    columns X_train = columns X_test /\
    has_column X_train "target" = false /\
    has_column X_test "target" = false.
Proof.
  apply (preprocess_complete_rows (R := rotating) decimal raw6 7%Z).
  - exact rotating_lawful.
  - reflexivity.
  - repeat constructor.
  - exact raw6_well_formed.
  - vm_compute. lia.
Defined.

Lemma preprocess_too_few_rows_witness :
  preprocess (R := rotating) decimal
    (mkDF (map Col names)
       [record 0 63 1 1 145 233 1 2 150 0 2.3 3 "0.0" "6.0" 0;
        record 1 53 0 3 128 216 0 2 115 0 0 1 "?" "3.0" 0]) 7%Z
  = (Err ValueError, 7%Z).
Proof.
  apply (preprocess_too_few_rows (R := rotating) decimal).
  - reflexivity.
  - repeat constructor.
  - intros r Hr _. simpl in Hr.
    destruct Hr as [<-|[<-|[]]];
      (split; [eexists; reflexivity|]);
      intros p s Hp; simpl in Hp;
      destruct Hp as [<-|[<-|[<-|[<-|[<-|[]]]]]]; discriminate.
  - vm_compute. lia.
Defined.
